(** * fastKoF: the image-transform orchestration subsystem

    A shallow embedding of [src/services/APIService.ts] (the transform
    client with its result cache, in-flight registry and retry loop) and of
    [src/core/ImageTransformManager.ts] (the orchestrator with its history),
    followed by the properties established about them.

    Conventions of the embedding.
    - A JavaScript string is a [string]; one character is one UTF-16 code
      unit (code units 0..255).
    - A JavaScript number that the code only counts with (attempt numbers,
      sizes, milliseconds) is a [Z]. The numeric transform parameters are
      never computed with: the code only tests their truthiness
      ([x || default]) and serialises them ([JSON.stringify]), so they are
      kept as [JsNumber], the pair of these two observations.
    - [async] functions are run to completion: every [await] of a fresh
      promise is a call. The points at which two calls of
      [APIService.transformImage] can interleave are made explicit in
      [transformImage_enter] / [transformImage_owner] /
      [transformImage_waiter], and [step] runs calls that overlap.
    - The clock ([Date.now()]) moves when the code sleeps or waits for the
      network, not during synchronous code.
    - Code that throws returns [Throw e]; the state reached so far is kept,
      as [try]/[catch]/[finally] observe it.
    - Arrays that are shared by reference (the transform history) live in a
      store and are named by their location. *)

From stdpp Require Import gmap strings list fin_maps.
From Stdlib Require Import ZArith Lia Ascii String.

Local Open Scope string_scope.
Local Open Scope Z_scope.

(** ** JavaScript strings *)

Module Js.

Definition quote : string := String "034"%char EmptyString.
Definition backslash : string := String "092"%char EmptyString.

(** [str.charCodeAt(i)] for every [i], in order. *)
Fixpoint charCodes (s : string) : list Z :=
  match s with
  | EmptyString => []
  | String c r => Z.of_N (N_of_ascii c) :: charCodes r
  end.

Fixpoint startsWith (s prefix : string) : bool :=
  match prefix, s with
  | EmptyString, _ => true
  | String p pr, String c r => if Ascii.eqb p c then startsWith r pr else false
  | String _ _, EmptyString => false
  end.

Fixpoint dropPrefix (s prefix : string) : option string :=
  match prefix, s with
  | EmptyString, _ => Some s
  | String p pr, String c r => if Ascii.eqb p c then dropPrefix r pr else None
  | String _ _, EmptyString => None
  end.

(** A string is truthy when it is not empty. *)
Definition truthy (s : string) : bool :=
  match s with EmptyString => false | String _ _ => true end.

Definition digitChar (d : Z) : ascii :=
  if d <? 10 then ascii_of_N (Z.to_N (48 + d)) else ascii_of_N (Z.to_N (87 + d)).

Fixpoint digits (fuel : nat) (radix n : Z) (acc : string) : string :=
  match fuel with
  | O => acc
  | S fuel' =>
      let acc' := String (digitChar (n mod radix)) acc in
      if n / radix =? 0 then acc' else digits fuel' radix (n / radix) acc'
  end.

(** [n.toString(radix)] for an integer [n]; [2 <= radix <= 36]. *)
Definition toString (radix n : Z) : string :=
  let body := digits (S (Z.to_nat (Z.log2 (Z.abs n)))) radix (Z.abs n) EmptyString in
  if n <? 0 then "-" ++ body else body.

Definition hex4 (n : Z) : string :=
  String (digitChar (n / 4096 mod 16)) (String (digitChar (n / 256 mod 16))
    (String (digitChar (n / 16 mod 16)) (String (digitChar (n mod 16)) EmptyString))).

(** The escape [JSON.stringify] writes for one code unit of a string. *)
Definition jsonEscape (c : ascii) : string :=
  let n := Z.of_N (N_of_ascii c) in
  if n =? 34 then backslash ++ quote
  else if n =? 92 then backslash ++ backslash
  else if n =? 8 then backslash ++ "b"
  else if n =? 12 then backslash ++ "f"
  else if n =? 10 then backslash ++ "n"
  else if n =? 13 then backslash ++ "r"
  else if n =? 9 then backslash ++ "t"
  else if n <? 32 then backslash ++ "u" ++ hex4 n
  else String c EmptyString.

Fixpoint jsonEscapeAll (s : string) : string :=
  match s with
  | EmptyString => EmptyString
  | String c r => jsonEscape c ++ jsonEscapeAll r
  end.

(** [JSON.stringify(s)] for a string [s]. *)
Definition jsonString (s : string) : string := quote ++ jsonEscapeAll s ++ quote.

(** [ToInt32]: the value of a bit operation's operand and result. *)
Definition toInt32 (z : Z) : Z :=
  let m := z mod 2 ^ 32 in
  if 2 ^ 31 <=? m then m - 2 ^ 32 else m.

(** [x << k] and [x & y] on numbers. *)
Definition shl (x k : Z) : Z := toInt32 (Z.shiftl (toInt32 x) (k mod 32)).
Definition band (x y : Z) : Z := toInt32 (Z.land (toInt32 x) (toInt32 y)).

Fixpoint isPrefix (sub s : string) : bool :=
  match sub, s with
  | EmptyString, _ => true
  | String a r, String b t => if Ascii.eqb a b then isPrefix r t else false
  | String _ _, EmptyString => false
  end.

(** [s.includes(sub)] *)
Fixpoint includes (s sub : string) : bool :=
  if isPrefix sub s then true
  else match s with
       | EmptyString => false
       | String _ r => includes r sub
       end.

End Js.

(** A numeric transform parameter, as the code can observe it. *)
Record JsNumber := mkNumber {
  num_json : string;   (* what JSON.stringify writes for it *)
  num_truthy : bool    (* false for 0, -0 and NaN *)
}.

(** The integer [z] as a number (for the integers JavaScript prints in
    plain decimal notation). *)
Definition intNumber (z : Z) : JsNumber :=
  {| num_json := Js.toString 10 z; num_truthy := negb (z =? 0) |}.

(** A non-zero number written as a decimal literal, such as [0.4]. *)
Definition decNumber (literal : string) : JsNumber :=
  {| num_json := literal; num_truthy := true |}.


(** ** Values shared by the two classes *)

Inductive TransformType := light | heavy.

Definition transformTypeName (t : TransformType) : string :=
  match t with light => "light" | heavy => "heavy" end.

(** *** Errors and wire formats *)

Inductive APIErrorType :=
| AUTH_ERROR | RATE_LIMIT_ERROR | INVALID_REQUEST | SERVER_ERROR
| NETWORK_ERROR | TIMEOUT_ERROR | UNKNOWN_ERROR.

Definition APIErrorType_name (t : APIErrorType) : string :=
  match t with
  | AUTH_ERROR => "AUTH_ERROR"
  | RATE_LIMIT_ERROR => "RATE_LIMIT_ERROR"
  | INVALID_REQUEST => "INVALID_REQUEST"
  | SERVER_ERROR => "SERVER_ERROR"
  | NETWORK_ERROR => "NETWORK_ERROR"
  | TIMEOUT_ERROR => "TIMEOUT_ERROR"
  | UNKNOWN_ERROR => "UNKNOWN_ERROR"
  end.

Record JimengImageTransformRequest := {
  req_model : string;
  req_prompt : string;
  req_image : string;
  req_strength : JsNumber;
  req_steps : JsNumber;
  req_guidance_scale : JsNumber;
  req_width : JsNumber;
  req_height : JsNumber;
  req_seed : option JsNumber
}.

(** [data_image] is [response.data?.image]; an absent [message] is the
    empty string. *)
Record JimengImageTransformResponse := {
  success : bool;
  message : string;
  data_image : option string;
  error : option string
}.

(** The values this code throws and catches: instances of [Error] (of
    [TypeError] when [isTypeError]), which carry no [type] property, the
    plain objects built by [APIService.createAPIError], and the plain
    objects built by [ImageTransformManager.createError]; [Undefined] is an
    absent [details]. *)
Inductive JsValue :=
| ErrorInstance (isTypeError : bool) (name msg : string)
| APIError (type : APIErrorType) (msg : string) (details : APIErrorDetails) (timestamp : Z)
| GameError (type : string) (msg : string) (details : JsValue)
            (timestamp : Z) (recoverable : bool)
| Undefined
with APIErrorDetails :=
| det_transformType (t : TransformType)
| det_response (response : JimengImageTransformResponse) (attempt : Z) (requestId : string)
| det_status (status : Z) (errorText requestId : string)
| det_timeout (timeout : Z) (requestId : string)
| det_originalError (originalError : JsValue) (requestId : string)
| det_error (error : JsValue) (requestId : string)
| det_requestId (requestId : string).

(** [error instanceof Error], [error instanceof TypeError], [error.name],
    [error.message] and [error.type]. *)
Definition instanceofError (e : JsValue) : bool :=
  match e with ErrorInstance _ _ _ => true | _ => false end.

Definition instanceofTypeError (e : JsValue) : bool :=
  match e with ErrorInstance b _ _ => b | _ => false end.

Definition errorName (e : JsValue) : option string :=
  match e with ErrorInstance _ n _ => Some n | _ => None end.

Definition errorMessage (e : JsValue) : string :=
  match e with
  | ErrorInstance _ _ m | APIError _ m _ _ | GameError _ m _ _ _ => m
  | Undefined => EmptyString
  end.

Definition errorType (e : JsValue) : option string :=
  match e with
  | ErrorInstance _ _ _ => None
  | APIError t _ _ _ => Some (APIErrorType_name t)
  | GameError t _ _ _ _ => Some t
  | Undefined => None
  end.

(** The truthiness of [error.type]. *)
Definition hasType (e : JsValue) : bool :=
  match errorType e with Some t => Js.truthy t | None => false end.

(** What [fetch] delivers. [resp_text] is what [response.text()] resolves
    to; [resp_json] is what [response.json()] settles with. *)
(** How a call, or a promise, ends. *)
Inductive Outcome (A : Type) :=
| Return (a : A)
| Throw (e : JsValue).
Arguments Return {A} a.
Arguments Throw {A} e.

(** *** Computations that change a state and may throw *)

Definition M (S A : Type) : Type := S -> Outcome A * S.

Definition ret {S A} (a : A) : M S A := fun s => (Return a, s).
Definition throw {S A} (e : JsValue) : M S A := fun s => (Throw e, s).

Definition bind {S A B} (c : M S A) (k : A -> M S B) : M S B :=
  fun s => match c s with
           | (Return a, s') => k a s'
           | (Throw e, s') => (Throw e, s')
           end.

Definition gets {S A} (f : S -> A) : M S A := fun s => (Return (f s), s).
Definition modify {S} (f : S -> S) : M S unit := fun s => (Return tt, f s).

(** [try { c } catch (e) { h e }] *)
Definition tryCatch {S A} (c : M S A) (h : JsValue -> M S A) : M S A :=
  fun s => match c s with
           | (Return a, s') => (Return a, s')
           | (Throw e, s') => h e s'
           end.

(** [try { c } finally { f }] *)
Definition tryFinally {S A} (c : M S A) (f : M S unit) : M S A :=
  fun s => match c s with
           | (o, s') => match f s' with
                        | (Return _, s'') => (o, s'')
                        | (Throw e, s'') => (Throw e, s'')
                        end
           end.

(** Run [c] and hand over how it settled. *)
Definition settled {S A} (c : M S A) : M S (Outcome A) :=
  fun s => match c s with (o, s') => (Return o, s') end.

(** [await p] for a promise that settles with [o]. *)
Definition await {S A} (o : Outcome A) : M S A := fun s => (o, s).

(** Run a computation of a component inside the whole. *)
Definition zoom {S T A} (proj : S -> T) (inj : T -> S -> S) (c : M T A) : M S A :=
  fun s => match c (proj s) with (o, t') => (o, inj t' s) end.

Declare Scope js_scope.
Delimit Scope js_scope with js.
Notation "'let*' x := c 'in' k" := (bind c (fun x => k))
  (at level 10, x name, c at level 100, k at level 200) : js_scope.
Notation "c ;; k" := (bind c (fun _ => k))
  (at level 100, k at level 200, right associativity) : js_scope.
Local Open Scope js_scope.

(** ** [APIService] ([src/services/APIService.ts]) *)

Module APIService.

(** *** Transform options *)

(** One own property of a [TransformOptions] object. An options object is
    the list of its properties in insertion order, which is the order
    [{...options}] and [JSON.stringify] follow; a name occurs at most once. *)
Inductive OptionEntry :=
| opt_strength (n : JsNumber)
| opt_steps (n : JsNumber)
| opt_guidance_scale (n : JsNumber)
| opt_width (n : JsNumber)
| opt_height (n : JsNumber)
| opt_seed (n : JsNumber)
| opt_customPrompt (s : string).

Definition TransformOptions := list OptionEntry.

Definition entryName (e : OptionEntry) : string :=
  match e with
  | opt_strength _ => "strength"
  | opt_steps _ => "steps"
  | opt_guidance_scale _ => "guidance_scale"
  | opt_width _ => "width"
  | opt_height _ => "height"
  | opt_seed _ => "seed"
  | opt_customPrompt _ => "customPrompt"
  end.

Definition entryJson (e : OptionEntry) : string :=
  match e with
  | opt_strength n | opt_steps n | opt_guidance_scale n
  | opt_width n | opt_height n | opt_seed n => num_json n
  | opt_customPrompt s => Js.jsonString s
  end.

Fixpoint get_strength (o : TransformOptions) : option JsNumber :=
  match o with [] => None | opt_strength n :: _ => Some n | _ :: r => get_strength r end.
Fixpoint get_steps (o : TransformOptions) : option JsNumber :=
  match o with [] => None | opt_steps n :: _ => Some n | _ :: r => get_steps r end.
Fixpoint get_guidance_scale (o : TransformOptions) : option JsNumber :=
  match o with [] => None | opt_guidance_scale n :: _ => Some n | _ :: r => get_guidance_scale r end.
Fixpoint get_width (o : TransformOptions) : option JsNumber :=
  match o with [] => None | opt_width n :: _ => Some n | _ :: r => get_width r end.
Fixpoint get_height (o : TransformOptions) : option JsNumber :=
  match o with [] => None | opt_height n :: _ => Some n | _ :: r => get_height r end.
Fixpoint get_seed (o : TransformOptions) : option JsNumber :=
  match o with [] => None | opt_seed n :: _ => Some n | _ :: r => get_seed r end.
Fixpoint get_customPrompt (o : TransformOptions) : option string :=
  match o with [] => None | opt_customPrompt s :: _ => Some s | _ :: r => get_customPrompt r end.

(** [x || d] on an optional number and on an optional string. *)
Definition orNumber (x : option JsNumber) (d : JsNumber) : JsNumber :=
  match x with
  | Some n => if num_truthy n then n else d
  | None => d
  end.

Definition orString (x : option string) (d : string) : string :=
  match x with
  | Some s => if Js.truthy s then s else d
  | None => d
  end.

(** [if (x)] on an optional string: the string when it is truthy. *)
Definition truthyString (x : option string) : option string :=
  match x with
  | Some s => if Js.truthy s then Some s else None
  | None => None
  end.

(** *** Request keys *)

(** [simpleHash]: the loop over the code units. *)
Fixpoint simpleHash_loop (codes : list Z) (hash : Z) : Z :=
  match codes with
  | [] => hash
  | char :: rest =>
      let hash1 := (Js.shl hash 5 - hash) + char in
      simpleHash_loop rest (Js.band hash1 hash1)
  end.

Definition simpleHash (str : string) : string :=
  Js.toString 36 (Z.abs (simpleHash_loop (Js.charCodes str) 0)).

(** [JSON.stringify({ transformType, ...options })]. *)
Fixpoint optionsJsonTail (o : TransformOptions) : string :=
  match o with
  | [] => "}"
  | e :: r => "," ++ Js.jsonString (entryName e) ++ ":" ++ entryJson e ++ optionsJsonTail r
  end.

Definition optionsStr (transformType : string) (options : TransformOptions) : string :=
  "{" ++ Js.jsonString "transformType" ++ ":" ++ Js.jsonString transformType
      ++ optionsJsonTail options.

Definition generateRequestKey
    (imageBase64 transformType : string) (options : TransformOptions) : string :=
  let imageHash := simpleHash imageBase64 in
  imageHash ++ "_" ++ simpleHash (optionsStr transformType options).

Record Response := {
  ok : bool;
  status : Z;
  statusText : string;
  resp_text : string;
  resp_json : JsValue + JimengImageTransformResponse
}.

Inductive FetchOutcome :=
| FetchRejected (e : JsValue)
| FetchResolved (r : Response).

(** Modelled from the spec: the declaration of [APIConfig] (module
    [@/config/api.config]) is not among the sources; these are the fields of
    [config.jimengAI] that [APIService] reads, named as it names them. *)
Record APIConfig := {
  endpoint : string;
  apiKey : string;
  defaultModel : string;
  transformPrompts : TransformType -> string;
  defaultParams_strength : TransformType -> JsNumber;
  defaultParams_steps : JsNumber;
  defaultParams_guidance_scale : JsNumber;
  defaultParams_width : JsNumber;
  defaultParams_height : JsNumber;
  timeout : Z;
  retryCount : Z
}.

(** [Required<APIServiceOptions>] without [apiConfig]. *)
Record APIServiceOptions := {
  enableRetry : bool;
  enableCache : bool;
  maxCacheSize : Z
}.

(** What is outside the program: the configuration, and how the network
    answers. [fetch k id request] is the outcome of the [k]-th call of
    [fetch] (counting from 0), [elapsed k] the time it takes, and
    [pending p] how promise [p], already in flight, settles. *)
Record Env := {
  config : APIConfig;
  serviceOptions : APIServiceOptions;
  fetch : nat -> string -> JimengImageTransformRequest -> FetchOutcome;
  elapsed : nat -> Z;
  pending : nat -> Outcome string
}.

(** *** The state of an [APIService] and of its surroundings *)

Record CacheEntry := {
  key : string;
  result : string;
  timestamp : Z;
  expiresAt : Z
}.

(** A JavaScript [Map] whose iteration order is observed: the entries in
    insertion order, no key twice. *)
Module OMap.
Section OMap.
Context {V : Type}.

Fixpoint get (k : string) (m : list (string * V)) : option V :=
  match m with
  | [] => None
  | (k', v) :: r => if String.eqb k' k then Some v else get k r
  end.

(** [m.set(k, v)]: a present key keeps its place. *)
Fixpoint set (k : string) (v : V) (m : list (string * V)) : list (string * V) :=
  match m with
  | [] => [(k, v)]
  | (k', v') :: r => if String.eqb k' k then (k, v) :: r else (k', v') :: set k v r
  end.

Fixpoint delete (k : string) (m : list (string * V)) : list (string * V) :=
  match m with
  | [] => []
  | (k', v') :: r => if String.eqb k' k then delete k r else (k', v') :: delete k r
  end.

(** [m.keys().next().value] *)
Definition firstKey (m : list (string * V)) : option string :=
  match m with
  | [] => None
  | (k, _) :: _ => Some k
  end.

Definition size (m : list (string * V)) : Z := Z.of_nat (List.length m).
End OMap.
End OMap.

Record Service := {
  now : Z;                                  (* what Date.now() reads *)
  fetches : nat;                            (* calls of fetch so far *)
  slept : list Z;                           (* the sleeps so far, in order *)
  requestCache : list (string * CacheEntry);
  activeRequests : gmap string nat;         (* request key to promise *)
  requestIdCounter : Z;
  started : nat                             (* calls of performTransformation so far *)
}.

Definition with_now (f : Z -> Z) (s : Service) : Service :=
  {| now := f (now s); fetches := fetches s; slept := slept s;
     requestCache := requestCache s; activeRequests := activeRequests s;
     requestIdCounter := requestIdCounter s; started := started s |}.

Definition with_fetches (f : nat -> nat) (s : Service) : Service :=
  {| now := now s; fetches := f (fetches s); slept := slept s;
     requestCache := requestCache s; activeRequests := activeRequests s;
     requestIdCounter := requestIdCounter s; started := started s |}.

Definition with_slept (f : list Z -> list Z) (s : Service) : Service :=
  {| now := now s; fetches := fetches s; slept := f (slept s);
     requestCache := requestCache s; activeRequests := activeRequests s;
     requestIdCounter := requestIdCounter s; started := started s |}.

Definition with_requestCache
    (f : list (string * CacheEntry) -> list (string * CacheEntry)) (s : Service) : Service :=
  {| now := now s; fetches := fetches s; slept := slept s;
     requestCache := f (requestCache s); activeRequests := activeRequests s;
     requestIdCounter := requestIdCounter s; started := started s |}.

Definition with_activeRequests
    (f : gmap string nat -> gmap string nat) (s : Service) : Service :=
  {| now := now s; fetches := fetches s; slept := slept s;
     requestCache := requestCache s; activeRequests := f (activeRequests s);
     requestIdCounter := requestIdCounter s; started := started s |}.

Definition with_requestIdCounter (f : Z -> Z) (s : Service) : Service :=
  {| now := now s; fetches := fetches s; slept := slept s;
     requestCache := requestCache s; activeRequests := activeRequests s;
     requestIdCounter := f (requestIdCounter s); started := started s |}.

Definition with_started (f : nat -> nat) (s : Service) : Service :=
  {| now := now s; fetches := fetches s; slept := slept s;
     requestCache := requestCache s; activeRequests := activeRequests s;
     requestIdCounter := requestIdCounter s; started := f (started s) |}.

(** A service as its constructor leaves it, at time [t]. *)
Definition newService (t : Z) : Service :=
  {| now := t; fetches := O; slept := []; requestCache := [];
     activeRequests := ∅; requestIdCounter := 0; started := O |}.

(** *** Helpers *)

Definition Date_now : M Service Z := gets now.

(** [await this.sleep(ms)]: the timer fires after [ms] milliseconds. *)
Definition sleep (ms : Z) : M Service unit :=
  modify (fun s => with_slept (fun l => (l ++ [ms])%list) (with_now (fun t => t + Z.max 0 ms) s)).

Definition createAPIError
    (type : APIErrorType) (msg : string) (details : APIErrorDetails) : M Service JsValue :=
  let* t := Date_now in
  ret (APIError type msg details t).

Definition getErrorTypeFromStatus (status : Z) : APIErrorType :=
  if (status =? 401) || (status =? 403) then AUTH_ERROR
  else if status =? 429 then RATE_LIMIT_ERROR
  else if (400 <=? status) && (status <? 500) then INVALID_REQUEST
  else if 500 <=? status then SERVER_ERROR
  else UNKNOWN_ERROR.

Definition retryableTypes : list APIErrorType :=
  [NETWORK_ERROR; TIMEOUT_ERROR; SERVER_ERROR].

Definition isRetryableError (error : JsValue) : bool :=
  match errorType error with
  | Some t => existsb (fun r => String.eqb (APIErrorType_name r) t) retryableTypes
  | None => false
  end.

(** [Math.min(1000 * Math.pow(2, attempt - 1), 10000)], for the attempt
    numbers the loop passes ([attempt >= 1]). *)
Definition calculateRetryDelay (attempt : Z) : Z :=
  Z.min (1000 * 2 ^ (attempt - 1)) 10000.

Fixpoint dropLowercase (s : string) : string :=
  match s with
  | String c r =>
      let n := Z.of_N (N_of_ascii c) in
      if (97 <=? n) && (n <=? 122) then dropLowercase r else s
  | EmptyString => s
  end.

(** [base64.replace(/^data:image\/[a-z]+;base64,/, '')] *)
Definition cleanBase64 (base64 : string) : string :=
  match Js.dropPrefix base64 "data:image/" with
  | Some r =>
      let r' := dropLowercase r in
      if (String.length r' <? String.length r)%nat then
        match Js.dropPrefix r' ";base64," with
        | Some rest => rest
        | None => base64
        end
      else base64
  | None => base64
  end.

Definition addBase64Prefix (base64 : string) : string :=
  if Js.startsWith base64 "data:" then base64
  else "data:image/jpeg;base64," ++ base64.

(** *** The result cache *)

Definition getCachedResult
    (imageBase64 transformType : string) (options : TransformOptions)
  : M Service (option string) :=
  let key := generateRequestKey imageBase64 transformType options in
  let* cache := gets requestCache in
  match OMap.get key cache with
  | None => ret None
  | Some entry =>
      let* t := Date_now in
      if expiresAt entry <? t then
        modify (with_requestCache (OMap.delete key)) ;;
        ret None
      else ret (Some (result entry))
  end.

Definition cacheResult (opts : APIServiceOptions) (key result : string) : M Service unit :=
  let* cache := gets requestCache in
  (if maxCacheSize opts <=? OMap.size cache then
     match OMap.firstKey cache with
     | Some oldestKey =>
         if Js.truthy oldestKey
         then modify (with_requestCache (OMap.delete oldestKey))
         else ret tt
     | None => ret tt
     end
   else ret tt) ;;
  let* t1 := Date_now in
  let* t2 := Date_now in
  let entry := {| key := key; result := result; timestamp := t1;
                  expiresAt := t2 + 24 * 60 * 60 * 1000 |} in
  modify (with_requestCache (OMap.set key entry)).

Definition clearCache : M Service unit := modify (with_requestCache (fun _ => [])).

Definition cancelAllRequests : M Service unit := modify (with_activeRequests (fun _ => ∅)).

Definition destroy : M Service unit := cancelAllRequests ;; clearCache.

(** *** One exchange and the retry loop *)

Definition makeAPIRequest
    (env : Env) (request : JimengImageTransformRequest) (requestId : string)
  : M Service JimengImageTransformResponse :=
  tryCatch
    (let* k := gets fetches in
     modify (fun s => with_now (fun t => t + elapsed env k) (with_fetches S s)) ;;
     match fetch env k requestId request with
     | FetchRejected e => throw e
     | FetchResolved response =>
         if negb (ok response) then
           let* e := createAPIError
                  (getErrorTypeFromStatus (status response))
                  ("HTTP " ++ Js.toString 10 (status response) ++ ": " ++ statusText response)
                  (det_status (status response) (resp_text response) requestId) in
           throw e
         else
           match resp_json response with
           | inl e => throw e
           | inr parsed => ret parsed
           end
     end)
    (fun error =>
       if instanceofError error && bool_decide (errorName error = Some "AbortError") then
         let* e := createAPIError TIMEOUT_ERROR "Request timeout"
                (det_timeout (timeout (config env)) requestId) in
         throw e
       else if instanceofTypeError error && Js.includes (errorMessage error) "fetch" then
         let* e := createAPIError NETWORK_ERROR "Network connection failed"
                (det_originalError error requestId) in
         throw e
       else throw error).

(** The [request] that [performTransformation] builds. *)
Definition transformationRequest
    (cfg : APIConfig) (imageBase64 : string) (transformType : TransformType)
    (options : TransformOptions) : JimengImageTransformRequest :=
  {| req_model := defaultModel cfg;
     req_prompt := orString (get_customPrompt options) (transformPrompts cfg transformType);
     req_image := cleanBase64 imageBase64;
     req_strength := orNumber (get_strength options) (defaultParams_strength cfg transformType);
     req_steps := orNumber (get_steps options) (defaultParams_steps cfg);
     req_guidance_scale :=
       orNumber (get_guidance_scale options) (defaultParams_guidance_scale cfg);
     req_width := orNumber (get_width options) (defaultParams_width cfg);
     req_height := orNumber (get_height options) (defaultParams_height cfg);
     req_seed := get_seed options |}.

(** [response.message || response.error || 'Transformation failed'] *)
Definition failureMessage (response : JimengImageTransformResponse) : string :=
  if Js.truthy (message response) then message response
  else orString (error response) "Transformation failed".

(** The body of the [try] of one iteration. *)
Definition performTransformation_attempt
    (env : Env) (request : JimengImageTransformRequest) (requestId : string) (attempt : Z)
  : M Service string :=
  let* response := makeAPIRequest env request requestId in
  match success response, data_image response with
  | true, Some image =>
      if Js.truthy image then ret (addBase64Prefix image)
      else
        let* e := createAPIError SERVER_ERROR (failureMessage response)
               (det_response response attempt requestId) in
        throw e
  | _, _ =>
      let* e := createAPIError SERVER_ERROR (failureMessage response)
             (det_response response attempt requestId) in
      throw e
  end.

(** [throw lastError || this.createAPIError('UNKNOWN_ERROR', ...)] *)
Definition performTransformation_giveUp
    (requestId : string) (lastError : option JsValue) : M Service string :=
  match lastError with
  | Some e => throw e
  | None =>
      let* e := createAPIError UNKNOWN_ERROR "All retry attempts failed" (det_requestId requestId) in
      throw e
  end.

(** [for (let attempt = 1; attempt <= maxRetries; attempt++)], entered at
    [attempt] with [remaining] iterations to go: the loop test holds exactly
    when [remaining] is not 0. *)
Fixpoint performTransformation_loop
    (env : Env) (request : JimengImageTransformRequest) (requestId : string)
    (maxRetries : Z) (remaining : nat) (attempt : Z) (lastError : option JsValue)
  : M Service string :=
  match remaining with
  | O => performTransformation_giveUp requestId lastError
  | S remaining' =>
      let* r := settled (performTransformation_attempt env request requestId attempt) in
      match r with
      | Return image => ret image
      | Throw error =>
          if (attempt =? maxRetries) || negb (isRetryableError error)
          then performTransformation_giveUp requestId (Some error)
          else
            sleep (calculateRetryDelay attempt) ;;
            performTransformation_loop env request requestId maxRetries
              remaining' (attempt + 1) (Some error)
      end
  end.

Definition maxRetriesOf (env : Env) : Z :=
  if enableRetry (serviceOptions env) then retryCount (config env) else 1.

Definition performTransformation
    (env : Env) (imageBase64 : string) (transformType : TransformType)
    (options : TransformOptions) (requestId : string) : M Service string :=
  let request := transformationRequest (config env) imageBase64 transformType options in
  let maxRetries := maxRetriesOf env in
  performTransformation_loop env request requestId maxRetries
    (Z.to_nat maxRetries) 1 None.

(** *** [transformImage] *)

(** What the [catch] of [transformImage] throws for [error]. *)
Definition transformImage_rethrow (requestId : string) (error : JsValue) : M Service string :=
  if instanceofError error && hasType error then throw error
  else
    let* e := createAPIError UNKNOWN_ERROR "Image transformation failed"
           (det_error error requestId) in
    throw e.

(** Where a call of [transformImage] stands when it first yields: it has
    returned a cached result, or it awaits the promise of an execution that
    another call started, or it has started an execution of its own and
    awaits that. *)
Inductive Entry :=
| CacheHit (cachedResult : string)
| Join (requestId requestKey : string) (promise : nat)
| Start (requestId requestKey : string) (promise : nat).

(** [transformImage] up to its first [await]. The call of
    [performTransformation] of the third case is counted in [started]. *)
Definition transformImage_enter
    (env : Env) (imageBase64 : string) (transformType : TransformType)
    (options : TransformOptions) : M Service Entry :=
  if negb (Js.truthy (apiKey (config env))) then
    let* e := createAPIError AUTH_ERROR "API key not configured" (det_transformType transformType) in
    throw e
  else
    modify (with_requestIdCounter Z.succ) ;;
    let* n := gets requestIdCounter in
    let requestId := "transform_" ++ Js.toString 10 n in
    let* cachedResult :=
      (if enableCache (serviceOptions env)
       then getCachedResult imageBase64 (transformTypeName transformType) options
       else ret None) in
    match truthyString cachedResult with
    | Some r => ret (CacheHit r)
    | None =>
        let requestKey :=
          generateRequestKey imageBase64 (transformTypeName transformType) options in
        let* active := gets activeRequests in
        match active !! requestKey with
        | Some p => ret (Join requestId requestKey p)
        | None =>
            let* p := gets started in
            modify (fun s => with_activeRequests <[requestKey := p]> (with_started S s)) ;;
            ret (Start requestId requestKey p)
        end
    end.

(** The owner's [try { await requestPromise; cache } finally { delete }],
    resumed when its promise settles with [settlement]. *)
Definition transformImage_awaitOwn
    (env : Env) (requestKey : string) (settlement : Outcome string) : M Service string :=
  tryFinally
    (let* result := await settlement in
     (if enableCache (serviceOptions env)
      then cacheResult (serviceOptions env) requestKey result
      else ret tt) ;;
     ret result)
    (modify (with_activeRequests (delete requestKey))).

(** The rest of a call that started an execution, once it has settled. *)
Definition transformImage_owner
    (env : Env) (requestId requestKey : string) (settlement : Outcome string)
  : M Service string :=
  tryCatch (transformImage_awaitOwn env requestKey settlement)
           (transformImage_rethrow requestId).

(** The rest of a call that joined the execution of another call. *)
Definition transformImage_waiter
    (requestId : string) (settlement : Outcome string) : M Service string :=
  tryCatch (await settlement) (transformImage_rethrow requestId).

(** [await this.transformImage(...)], run to completion with nothing else
    running in between. A call that joins a promise already in flight is
    resumed after the call that owns the promise, whose reaction was
    registered first. *)
Definition transformImage
    (env : Env) (imageBase64 : string) (transformType : TransformType)
    (options : TransformOptions) : M Service string :=
  let* entry := transformImage_enter env imageBase64 transformType options in
  match entry with
  | CacheHit cachedResult => ret cachedResult
  | Join requestId requestKey p =>
      let* _ := settled (transformImage_awaitOwn env requestKey (pending env p)) in
      transformImage_waiter requestId (pending env p)
  | Start requestId requestKey _ =>
      let* settlement :=
        settled (performTransformation env imageBase64 transformType options requestId) in
      transformImage_owner env requestId requestKey settlement
  end.

(** *** [batchTransformImages] *)

Record BatchImage := {
  data : string;
  type : TransformType;
  batch_options : option TransformOptions   (* [options?] *)
}.

(** The loop of [batchTransformImages] from index [i] on; [rest] are the
    contents from [i] on, [total] is [images.length], [results] the array
    built so far and [calls] the calls of [onProgress] made so far. *)
Fixpoint batchTransformImages_loop
    (env : Env) (rest : list BatchImage) (i total : Z)
    (results : list string) (calls : list (Z * Z))
  : M Service (list string * list (Z * Z)) :=
  match rest with
  | [] => ret (results, calls)
  | image :: rest' =>
      let* r := settled (transformImage env (data image) (type image)
                           (default [] (batch_options image))) in
      let results' :=
        match r with
        | Return result => (results ++ [result])%list
        | Throw _ => (results ++ [EmptyString])%list
        end in
      batchTransformImages_loop env rest' (i + 1) total results'
        (calls ++ [(i + 1, total)])%list
  end.

Definition batchTransformImages (env : Env) (images : list BatchImage)
  : M Service (list string * list (Z * Z)) :=
  batchTransformImages_loop env images 0 (Z.of_nat (List.length images)) [] [].

Definition getCacheStats_size : M Service Z :=
  gets (fun s => OMap.size (requestCache s)).

(** *** [getCacheStats] *)

(** [Math.min(...xs)] for a list that is not empty. *)
Definition minimum (x : Z) (xs : list Z) : Z := fold_left Z.min xs x.

Record CacheStats := {
  size : Z;
  maxSize : Z;
  hitRate : Z;
  oldestEntry : option Z
}.

Definition getCacheStats (opts : APIServiceOptions) : M Service CacheStats :=
  gets (fun s =>
    let entries := map snd (requestCache s) in
    let oldestEntry :=
      match map timestamp entries with
      | [] => None
      | t :: ts => Some (minimum t ts)
      end in
    {| size := OMap.size (requestCache s);
       maxSize := maxCacheSize opts;
       hitRate := 0;
       oldestEntry := oldestEntry |}).

End APIService.

(** ** [ImageTransformManager] ([src/core/ImageTransformManager.ts]) *)

Module ImageTransformManager.

(** An [HTMLImageElement], as far as this code looks at it. *)
Record HTMLImageElement := { src : string }.

Inductive Phase := preparing | uploading | processing | downloading | completed | error.

(** A progress event. The text of [message] and the projected
    [estimatedTimeRemaining] are display data and are left out. *)
Record TransformProgress := {
  phase : Phase;
  progress_reported : Z
}.

Record TransformResult := {
  success : bool;
  transformedImage : option HTMLImageElement;
  originalImage : option HTMLImageElement;
  transformType : TransformType;
  processingTime : Z;
  result_error : option JsValue
}.

(** [transformHistory] is a reference to an array: a location of the
    store [arrays] of [Manager]. *)
Record TransformState := {
  isTransforming : bool;
  currentPhase : Phase;
  progress : Z;
  lastTransformTime : Z;
  transformHistory : nat;
  failedAttempts : Z
}.

(** The collaborators of a manager: its [APIService] and the world that
    service talks to, [options.maxTransformAttempts], what
    [imageManager.resizeImage] followed by [imageManager.imageToBase64] does
    with an image, and whether an [Image] with a given [src] loads. *)
Record Env := {
  api : APIService.Env;
  maxTransformAttempts : Z;
  imageToBase64 : HTMLImageElement -> Outcome string;
  loads : string -> bool
}.

(** A manager with its [APIService], the arrays it has created, and the
    progress events it has reported. [abortController] is [Some aborted]
    when there is a controller. *)
Record Manager := {
  apiService : APIService.Service;
  state : TransformState;
  abortController : option bool;
  arrays : gmap nat (list TransformResult);
  reported : list TransformProgress
}.

Definition with_apiService (f : APIService.Service -> APIService.Service) (m : Manager) :=
  {| apiService := f (apiService m); state := state m;
     abortController := abortController m; arrays := arrays m; reported := reported m |}.

Definition with_state (f : TransformState -> TransformState) (m : Manager) :=
  {| apiService := apiService m; state := f (state m);
     abortController := abortController m; arrays := arrays m; reported := reported m |}.

Definition with_abortController (f : option bool -> option bool) (m : Manager) :=
  {| apiService := apiService m; state := state m;
     abortController := f (abortController m); arrays := arrays m; reported := reported m |}.

Definition with_arrays
    (f : gmap nat (list TransformResult) -> gmap nat (list TransformResult)) (m : Manager) :=
  {| apiService := apiService m; state := state m;
     abortController := abortController m; arrays := f (arrays m); reported := reported m |}.

Definition with_reported (f : list TransformProgress -> list TransformProgress) (m : Manager) :=
  {| apiService := apiService m; state := state m;
     abortController := abortController m; arrays := arrays m; reported := f (reported m) |}.

(** The fields [setState] is called with. *)
Definition set_isTransforming (b : bool) (st : TransformState) : TransformState :=
  {| isTransforming := b; currentPhase := currentPhase st; progress := progress st;
     lastTransformTime := lastTransformTime st; transformHistory := transformHistory st;
     failedAttempts := failedAttempts st |}.

Definition set_currentPhase (p : Phase) (st : TransformState) : TransformState :=
  {| isTransforming := isTransforming st; currentPhase := p; progress := progress st;
     lastTransformTime := lastTransformTime st; transformHistory := transformHistory st;
     failedAttempts := failedAttempts st |}.

Definition set_progress (p : Z) (st : TransformState) : TransformState :=
  {| isTransforming := isTransforming st; currentPhase := currentPhase st; progress := p;
     lastTransformTime := lastTransformTime st; transformHistory := transformHistory st;
     failedAttempts := failedAttempts st |}.

Definition set_lastTransformTime (t : Z) (st : TransformState) : TransformState :=
  {| isTransforming := isTransforming st; currentPhase := currentPhase st;
     progress := progress st; lastTransformTime := t;
     transformHistory := transformHistory st; failedAttempts := failedAttempts st |}.

Definition set_transformHistory (l : nat) (st : TransformState) : TransformState :=
  {| isTransforming := isTransforming st; currentPhase := currentPhase st;
     progress := progress st; lastTransformTime := lastTransformTime st;
     transformHistory := l; failedAttempts := failedAttempts st |}.

Definition set_failedAttempts (n : Z) (st : TransformState) : TransformState :=
  {| isTransforming := isTransforming st; currentPhase := currentPhase st;
     progress := progress st; lastTransformTime := lastTransformTime st;
     transformHistory := transformHistory st; failedAttempts := n |}.

(** *** The store of arrays *)

(** The contents of the array at [l]. *)
Definition contents (h : gmap nat (list TransformResult)) (l : nat) : list TransformResult :=
  default [] (h !! l).

(** [array.push(r)] on the array at [l]. *)
Definition push (l : nat) (r : TransformResult) (h : gmap nat (list TransformResult))
  : gmap nat (list TransformResult) :=
  <[l := (contents h l ++ [r])%list]> h.

(** A location no array of [h] has. *)
Definition newLocation (h : gmap nat (list TransformResult)) : nat := fresh (dom h).

(** A manager as its constructor leaves it, around the service [s]. *)
Definition newManager (s : APIService.Service) : Manager :=
  {| apiService := s;
     state := {| isTransforming := false; currentPhase := completed; progress := 0;
                 lastTransformTime := 0; transformHistory := O; failedAttempts := 0 |};
     abortController := None;
     arrays := {[ O := [] ]};
     reported := [] |}.

(** *** Helpers *)

(** A computation of the service, run on the manager's service. *)
Definition onService {A} (c : M APIService.Service A) : M Manager A :=
  zoom apiService (fun s => with_apiService (fun _ => s)) c.

Definition Date_now : M Manager Z := onService APIService.Date_now.

Definition sleep (ms : Z) : M Manager unit := onService (APIService.sleep ms).

Definition createError (type msg : string) (details : JsValue) : M Manager JsValue :=
  let* t := Date_now in
  ret (GameError type msg details t true).

Definition updateProgress (phase : Phase) (progress : Z) : M Manager unit :=
  modify (with_state (fun st =>
            set_progress (Z.min 100 (Z.max 0 progress)) (set_currentPhase phase st))) ;;
  let* shown := gets (fun m => ImageTransformManager.progress (state m)) in
  modify (with_reported (fun l =>
            (l ++ [{| phase := phase; progress_reported := shown |}])%list)).

Definition checkAborted : M Manager unit :=
  let* controller := gets abortController in
  match controller with
  | Some true =>
      let* e := createError "VALIDATION_ERROR" "Transform was cancelled" Undefined in
      throw e
  | _ => ret tt
  end.

(** *** The phases of a transform *)

Definition prepareImageForTransform (env : Env) (image : HTMLImageElement) : M Manager string :=
  await (imageToBase64 env image).

(** [simulateUploadProgress], from step [i] on with [remaining] steps to go.
    [(i / steps) * 20] is [i * 20 / steps], exactly, since [steps] is 5. *)
Fixpoint simulateUploadProgress_loop (remaining : nat) (i : Z) : M Manager unit :=
  match remaining with
  | O => ret tt
  | S remaining' =>
      let steps := 5 in
      let stepDelay := 200 in
      checkAborted ;;
      updateProgress uploading (20 + i * 20 / steps) ;;
      sleep stepDelay ;;
      simulateUploadProgress_loop remaining' (i + 1)
  end.

Definition simulateUploadProgress : M Manager unit := simulateUploadProgress_loop 5 1.

(** The options [performTransform] passes to the service. *)
Definition performTransform_options (transformType : TransformType) : APIService.TransformOptions :=
  [ APIService.opt_strength
      (match transformType with heavy => decNumber "0.8" | light => decNumber "0.4" end);
    APIService.opt_steps
      (match transformType with heavy => intNumber 40 | light => intNumber 30 end) ].

(** [throw lastError || this.createError('API_ERROR', ...)] *)
Definition performTransform_giveUp (lastError : option JsValue) : M Manager string :=
  match lastError with
  | Some e => throw e
  | None =>
      let* e := createError "API_ERROR" "All transform attempts failed" Undefined in
      throw e
  end.

(** [for (let attempt = 1; attempt <= maxTransformAttempts; attempt++)],
    entered at [attempt] with [remaining] iterations to go. *)
Fixpoint performTransform_loop
    (env : Env) (imageBase64 : string) (transformType : TransformType)
    (remaining : nat) (attempt : Z) (lastError : option JsValue) : M Manager string :=
  match remaining with
  | O => performTransform_giveUp lastError
  | S remaining' =>
      let* r :=
        settled
          (updateProgress processing (50 + (attempt - 1) * 10) ;;
           onService (APIService.transformImage (api env) imageBase64 transformType
                        (performTransform_options transformType))) in
      match r with
      | Return image => ret image
      | Throw e =>
          (if attempt <? maxTransformAttempts env then
             let delay := Z.min (1000 * attempt) 5000 in
             updateProgress processing (50 + attempt * 10) ;;
             sleep delay ;;
             checkAborted
           else ret tt) ;;
          performTransform_loop env imageBase64 transformType
            remaining' (attempt + 1) (Some e)
      end
  end.

Definition performTransform
    (env : Env) (imageBase64 : string) (transformType : TransformType) : M Manager string :=
  performTransform_loop env imageBase64 transformType
    (Z.to_nat (maxTransformAttempts env)) 1 None.

(** [new Image()] with [src] set: [onload] resolves, [onerror] rejects. *)
Definition createImageFromBase64 (env : Env) (base64 : string) : M Manager HTMLImageElement :=
  if loads env base64 then ret {| src := base64 |}
  else
    let* e := createError "RENDER_ERROR" "Failed to load transformed image" Undefined in
    throw e.

(** [this.state.transformHistory.push(result)] *)
Definition pushHistory (r : TransformResult) : M Manager unit :=
  let* l := gets (fun m => transformHistory (state m)) in
  modify (with_arrays (push l r)).

(** The [try] block of [transformImage]. *)
Definition transformImage_try
    (env : Env) (sourceImage : HTMLImageElement) (transformType : TransformType)
    (startTime : Z) : M Manager TransformResult :=
  modify (with_state (fun st =>
            set_failedAttempts 0 (set_progress 0
              (set_currentPhase preparing (set_isTransforming true st))))) ;;
  updateProgress preparing 10 ;;
  let* imageBase64 := prepareImageForTransform env sourceImage in
  checkAborted ;;
  updateProgress uploading 20 ;;
  simulateUploadProgress ;;
  checkAborted ;;
  updateProgress processing 50 ;;
  let* transformedBase64 := performTransform env imageBase64 transformType in
  checkAborted ;;
  updateProgress downloading 80 ;;
  let* transformedImage := createImageFromBase64 env transformedBase64 in
  checkAborted ;;
  updateProgress completed 100 ;;
  let* t := Date_now in
  let result :=
    {| success := true;
       transformedImage := Some transformedImage;
       originalImage := Some sourceImage;
       transformType := transformType;
       processingTime := t - startTime;
       result_error := None |} in
  pushHistory result ;;
  let* t' := Date_now in
  modify (with_state (set_lastTransformTime t')) ;;
  ret result.

(** The [catch] block of [transformImage]. *)
Definition transformImage_catch
    (sourceImage : HTMLImageElement) (transformType : TransformType)
    (startTime : Z) (e : JsValue) : M Manager TransformResult :=
  let* transformError :=
    (if instanceofError e && hasType e then ret e
     else createError "API_ERROR" "Transform failed" e) in
  let* shown := gets (fun m => progress (state m)) in
  updateProgress error shown ;;
  let* t := Date_now in
  let result :=
    {| success := false;
       transformedImage := None;
       originalImage := Some sourceImage;
       transformType := transformType;
       processingTime := t - startTime;
       result_error := Some transformError |} in
  pushHistory result ;;
  modify (with_state (fun st => set_failedAttempts (failedAttempts st + 1) st)) ;;
  throw transformError.

(** The [finally] block of [transformImage]. *)
Definition transformImage_finally : M Manager unit :=
  modify (with_state (fun st => set_currentPhase completed (set_isTransforming false st))) ;;
  modify (with_abortController (fun _ => None)).

(** [await manager.transformImage(sourceImage, transformType)], run to
    completion with nothing else running in between. *)
Definition transformImage
    (env : Env) (sourceImage : HTMLImageElement) (transformType : TransformType)
  : M Manager TransformResult :=
  let* busy := gets (fun m => isTransforming (state m)) in
  if busy then
    let* e := createError "VALIDATION_ERROR" "Transform already in progress" Undefined in
    throw e
  else
    let* startTime := Date_now in
    modify (with_abortController (fun _ => Some false)) ;;
    tryFinally
      (tryCatch (transformImage_try env sourceImage transformType startTime)
                (transformImage_catch sourceImage transformType startTime))
      transformImage_finally.

(** *** Reading the state *)

(** [getTransformHistory]: a new array with the contents of the history. *)
Definition getTransformHistory : M Manager nat :=
  let* l := gets (fun m => transformHistory (state m)) in
  let* h := gets arrays in
  let copy := newLocation h in
  modify (with_arrays <[copy := contents h l]>) ;;
  ret copy.

(** [getState]: a new object with the fields of [this.state]. *)
Definition getState : M Manager TransformState :=
  gets (fun m =>
    {| isTransforming := isTransforming (state m);
       currentPhase := currentPhase (state m);
       progress := progress (state m);
       lastTransformTime := lastTransformTime (state m);
       transformHistory := transformHistory (state m);
       failedAttempts := failedAttempts (state m) |}).

Definition getLastTransformResult : M Manager (option TransformResult) :=
  gets (fun m => last (contents (arrays m) (transformHistory (state m)))).

(** [clearHistory]: [this.state.transformHistory = []] is a new array. *)
Definition clearHistory : M Manager unit :=
  let* h := gets arrays in
  let fresh_array := newLocation h in
  modify (with_arrays <[fresh_array := []]>) ;;
  modify (with_state (fun st => set_failedAttempts 0 (set_transformHistory fresh_array st))).

Definition cancelTransform : M Manager unit :=
  let* controller := gets abortController in
  (match controller with
   | Some _ => modify (with_abortController (fun _ => Some true))
   | None => ret tt
   end) ;;
  modify (with_state (fun st =>
            set_progress 0 (set_currentPhase completed (set_isTransforming false st)))) ;;
  updateProgress error 0.

(** The history as the manager itself reads it. *)
Definition history (m : Manager) : list TransformResult :=
  contents (arrays m) (transformHistory (state m)).

(** [transforms env calls]: the calls of [transformImage] of [calls], one
    after the other, each awaited and its rejection caught. *)
Fixpoint transforms (env : Env) (calls : list (HTMLImageElement * TransformType))
  : M Manager unit :=
  match calls with
  | [] => ret tt
  | (image, transformType) :: rest =>
      let* _ := settled (transformImage env image transformType) in
      transforms env rest
  end.

(** *** Deciding on a transform, retrying, tearing down *)






(** [retryLastTransform]: [None] is [null]. *)
Definition retryLastTransform (env : Env) : M Manager (option TransformResult) :=
  let* lastResult := getLastTransformResult in
  match lastResult with
  | None => ret None
  | Some r =>
      if success r then ret None
      else
        match originalImage r with
        | None => ret None
        | Some image =>
            let* again := transformImage env image (transformType r) in
            ret (Some again)
        end
  end.

(** [getTransformStats]. [averageProcessingTime], a floating-point
    quotient, is left out. *)
Record TransformStats := {
  totalTransforms : Z;
  successfulTransforms : Z;
  failedTransforms : Z;
  stats_lastTransformTime : Z;
  stats_isTransforming : bool;
  currentProgress : Z
}.

Definition getTransformStats : M Manager TransformStats :=
  gets (fun m =>
    let results := contents (arrays m) (transformHistory (state m)) in
    let successful := List.filter (fun r => success r) results in
    let failed := List.filter (fun r => negb (success r)) results in
    {| totalTransforms := Z.of_nat (List.length results);
       successfulTransforms := Z.of_nat (List.length successful);
       failedTransforms := Z.of_nat (List.length failed);
       stats_lastTransformTime := lastTransformTime (state m);
       stats_isTransforming := isTransforming (state m);
       currentProgress := progress (state m) |}).

(** [destroy]; the set of progress callbacks is not part of the state. *)
Definition destroy : M Manager unit :=
  cancelTransform ;;
  clearHistory ;;
  onService APIService.destroy.

End ImageTransformManager.

(** ** The statements under examination

    What the specification words, written next to the code so that the two
    can be compared. *)

Import APIService.

(** The backoff delay of the specification, [min(base * 2^(attempt-1), cap)],
    with the power written as repeated doubling. *)
Fixpoint doubled (base : Z) (times : nat) : Z :=
  match times with
  | O => base
  | S times' => 2 * doubled base times'
  end.

Definition specifiedDelay (base capMs attempt : Z) : Z :=
  Z.min (doubled base (Z.to_nat (attempt - 1))) capMs.

(** Two option objects are logically identical for a configuration when
    the wire request built from them, defaults applied, is the same. *)
Definition logicallyIdentical
    (cfg : APIConfig) (imageBase64 : string) (transformType : TransformType)
    (o1 o2 : TransformOptions) : Prop :=
  transformationRequest cfg imageBase64 transformType o1
  = transformationRequest cfg imageBase64 transformType o2.

(** The key of a request, as [transformImage] derives it. *)
Definition requestKeyOf
    (imageBase64 : string) (transformType : TransformType) (options : TransformOptions) : string :=
  generateRequestKey imageBase64 (transformTypeName transformType) options.

(** The operations on the result cache that the service performs, each on
    behalf of a request. *)
Inductive CacheOp :=
| op_put (imageBase64 : string) (transformType : TransformType)
         (options : TransformOptions) (result : string)
| op_get (imageBase64 : string) (transformType : TransformType) (options : TransformOptions)
| op_clear
| op_wait (ms : Z).

Definition runCacheOp (opts : APIServiceOptions) (op : CacheOp) : M Service unit :=
  match op with
  | op_put i t o r => cacheResult opts (requestKeyOf i t o) r
  | op_get i t o => let* _ := getCachedResult i (transformTypeName t) o in ret tt
  | op_clear => clearCache
  | op_wait ms => modify (with_now (fun t => t + Z.max 0 ms))
  end.

Fixpoint runCacheOps (opts : APIServiceOptions) (ops : list CacheOp) : M Service unit :=
  match ops with
  | [] => ret tt
  | op :: rest => runCacheOp opts op ;; runCacheOps opts rest
  end.

(** The state a computation ends in. *)
Definition stateAfter {S A} (c : M S A) (s : S) : S := snd (c s).

Definition validEntry (e : CacheEntry) : Prop := timestamp e < expiresAt e.

(** The time-to-live of a cache entry, in milliseconds. *)
Definition ttl : Z := 24 * 60 * 60 * 1000.

(** A network that answers every exchange with a failure the service
    classifies as [SERVER_ERROR]: an HTTP status of 500 or more, or a body
    that parses and does not announce a result image. *)
Definition announcesImage (r : JimengImageTransformResponse) : bool :=
  success r && match data_image r with Some i => Js.truthy i | None => false end.

Definition isServerError (o : FetchOutcome) : Prop :=
  match o with
  | FetchRejected _ => False
  | FetchResolved r =>
      if ok r then
        match resp_json r with
        | inr parsed => announcesImage parsed = false
        | inl _ => False
        end
      else 500 <= status r
  end.

Definition alwaysServerError (env : Env) : Prop :=
  forall k id request, isServerError (fetch env k id request).

(** An answer with HTTP status 429. *)
Definition isRateLimited (o : FetchOutcome) : Prop :=
  match o with
  | FetchResolved r => ok r = false /\ status r = 429
  | FetchRejected _ => False
  end.

(** The configuration the unit tests of the service use. *)
Definition testConfig : APIConfig :=
  {| endpoint := "https://api.jimengai.com/image2image";
     apiKey := "test-api-key";
     defaultModel := "test-model";
     transformPrompts :=
       fun t => match t with light => "slightly damaged" | heavy => "heavily damaged" end;
     defaultParams_strength :=
       fun t => match t with light => decNumber "0.3" | heavy => decNumber "0.7" end;
     defaultParams_steps := intNumber 30;
     defaultParams_guidance_scale := intNumber 10;
     defaultParams_width := intNumber 512;
     defaultParams_height := intNumber 512;
     timeout := 30000;
     retryCount := 3 |}.

(** The options the constructor fills in. *)
Definition defaultOptions : APIServiceOptions :=
  {| enableRetry := true; enableCache := true; maxCacheSize := 50 |}.

(** An answer with HTTP status [code], and a successful answer. *)
Definition httpFailure (code : Z) (text : string) : FetchOutcome :=
  FetchResolved {| ok := false; status := code; statusText := text; resp_text := text;
                   resp_json := inl (ErrorInstance false "SyntaxError" "Unexpected token") |}.

Definition httpSuccess (image : string) : FetchOutcome :=
  FetchResolved {| ok := true; status := 200; statusText := "OK"; resp_text := EmptyString;
                   resp_json := inr {| success := true; message := "Success";
                                       data_image := Some image; error := None |} |}.

(** The test service in front of a network that always answers [answer]. *)
Definition testEnv (answer : FetchOutcome) : Env :=
  {| config := testConfig; serviceOptions := defaultOptions;
     fetch := fun _ _ _ => answer; elapsed := fun _ => 0;
     pending := fun _ => Throw Undefined |}.

(** The claim that a rate-limited attempt below the maximum is followed by
    a backoff sleep and a further attempt. *)
Definition retriesRateLimit (env : Env) : Prop :=
  forall imageBase64 transformType options requestId s,
    isRateLimited (fetch env (fetches s) requestId
                     (transformationRequest (config env) imageBase64 transformType options)) ->
    1 < maxRetriesOf env ->
    let s' := stateAfter (performTransformation env imageBase64 transformType options requestId) s in
    (S (fetches s) < fetches s')%nat /\ slept s' <> slept s.

(** The state after one call of [fetch]. *)
Definition afterFetch (env : Env) (s : Service) : Service :=
  with_now (fun t => t + elapsed env (fetches s)) (with_fetches S s).

(** The entry [cacheResult] stores for [key] and [result] at time [t]. *)
Definition entryAt (key result : string) (t : Z) : CacheEntry :=
  {| key := key; result := result; timestamp := t; expiresAt := t + ttl |}.

(** The claim that an entry is no longer served from [T + ttl] on. *)
Definition missFromTtlOn : Prop :=
  forall opts imageBase64 transformType options result s t,
    now s + ttl <= t ->
    let s1 := stateAfter (cacheResult opts (requestKeyOf imageBase64 transformType options) result) s in
    fst (getCachedResult imageBase64 (transformTypeName transformType) options
           (with_now (fun _ => t) s1))
    = Return None.

(** The claim that the cache never exceeds its capacity, whatever the
    capacity is. *)
Definition neverExceedsCapacity : Prop :=
  forall opts ops t0,
    OMap.size (requestCache (stateAfter (runCacheOps opts ops) (newService t0)))
    <= maxCacheSize opts.

(** The cache after the eviction step of [cacheResult]. *)
Definition afterEviction (opts : APIServiceOptions) (cache : list (string * CacheEntry))
  : list (string * CacheEntry) :=
  if maxCacheSize opts <=? OMap.size cache then
    match OMap.firstKey cache with
    | Some oldestKey => if Js.truthy oldestKey then OMap.delete oldestKey cache else cache
    | None => cache
    end
  else cache.

(** What holds of the cache of a service in use: it is a map (no key
    twice), its keys are request keys (not empty), it is within the capacity
    and its entries expire after they were created. *)
Definition wellFormedCache (opts : APIServiceOptions) (cache : list (string * CacheEntry)) : Prop :=
  NoDup (map fst cache)
  /\ Forall (fun kv => Js.truthy (fst kv) = true) cache
  /\ OMap.size cache <= maxCacheSize opts
  /\ Forall (fun kv => validEntry (snd kv)) cache.

(** How the transform of each element of a batch ends, in order: each is
    run in the state the elements before it have left. *)
Fixpoint elementOutcomes (env : Env) (images : list BatchImage) (s : Service)
  : list (Outcome string) :=
  match images with
  | [] => []
  | image :: rest =>
      let '(o, s') :=
        transformImage env (data image) (type image) (default [] (batch_options image)) s in
      o :: elementOutcomes env rest s'
  end.

(** What a slot of the result of a batch holds for an outcome. *)
Definition slotFor (o : Outcome string) : string :=
  match o with
  | Return transformed => transformed
  | Throw _ => EmptyString
  end.

(** A request is fresh for a service when no execution for its key is in
    flight and the cache has nothing for its key. *)
Definition freshRequest (env : Env) (key : string) (s : Service) : Prop :=
  activeRequests s !! key = None
  /\ (enableCache (serviceOptions env) = false \/ OMap.get key (requestCache s) = None).

(** *** Reasoning about computations *)

(** [post c Q E s]: run from [s], [c] returns a value and a state that
    satisfy [Q], or throws a value in a state that satisfy [E]. *)
Definition post {S A} (c : M S A) (Q : A -> S -> Prop) (E : JsValue -> S -> Prop) (s : S) : Prop :=
  match c s with
  | (Return a, s') => Q a s'
  | (Throw e, s') => E e s'
  end.

(** [steps R c]: however [c] ends, the state it ends in is related by [R]
    to the state it started from. *)
Definition steps {S A} (R : S -> S -> Prop) (c : M S A) : Prop :=
  forall s, R s (snd (c s)).

Section ManagerStatements.
Import ImageTransformManager.

(** What everything in [transformImage] but the bookkeeping at its ends
    leaves alone: the arrays, the array the history is, the busy flag and
    the controller. *)
Definition sameStore (m m' : Manager) : Prop :=
  arrays m' = arrays m
  /\ transformHistory (state m') = transformHistory (state m)
  /\ isTransforming (state m') = isTransforming (state m)
  /\ abortController m' = abortController m.

(** The history is the same array with the same elements. *)
Definition sameHistory (m m' : Manager) : Prop :=
  arrays m' = arrays m /\ transformHistory (state m') = transformHistory (state m).

(** What the steps that do not call the service leave alone besides: the
    service, except for its clock and its sleeps. *)
Definition quietly (m m' : Manager) : Prop :=
  sameStore m m'
  /\ fetches (apiService m') = fetches (apiService m)
  /\ requestCache (apiService m') = requestCache (apiService m)
  /\ activeRequests (apiService m') = activeRequests (apiService m)
  /\ started (apiService m') = started (apiService m).

(** [c] returns, and quietly, whenever the controller is not aborted. *)
Definition returnsQuietly {A} (c : M Manager A) : Prop :=
  forall m, abortController m = Some false ->
            post c (fun _ m' => quietly m m') (fun _ _ => False) m.

(** The service has made as many exchanges and started as many
    executions. *)
Definition sameCounts (m m' : Manager) : Prop :=
  fetches (apiService m') = fetches (apiService m)
  /\ started (apiService m') = started (apiService m).

(** The claim that a transform against a network that always fails with a
    server error makes [maxAttempts] exchanges and ends with a failure
    result of kind [SERVER_ERROR]. *)
Definition retryBoundAsClaimed
    (env : Env) (maxAttempts : Z) (sourceImage : HTMLImageElement)
    (transformType : TransformType) (m : Manager) : Prop :=
  let m' := stateAfter (transformImage env sourceImage transformType) m in
  fetches (apiService m') = (fetches (apiService m) + Z.to_nat maxAttempts)%nat
  /\ exists r e,
       last (history m') = Some r
       /\ success r = false
       /\ result_error r = Some e
       /\ errorType e = Some "SERVER_ERROR".

(** A consumer mutating an array it was handed: [array.push(r)]. *)
Definition consumerPush (l : nat) (r : TransformResult) (m : Manager) : Manager :=
  with_arrays (push l r) m.


(** A manager in front of the test service: three attempts, an image
    manager that always delivers, images that always load. *)
Definition testManagerEnv (answer : FetchOutcome) : Env :=
  {| api := testEnv answer;
     maxTransformAttempts := 3;
     imageToBase64 := fun _ => Return "data:image/jpeg;base64,original";
     loads := fun _ => true |}.

Definition photo : HTMLImageElement := {| src := "photo" |}.

End ManagerStatements.

(** *** Calls of [transformImage] that overlap

    A call runs until its first [await] and is resumed when the promise it
    awaits settles; between the two, other calls run. [Concurrent] is a
    service together with the calls that are suspended: [owners] maps each
    promise that has not settled to the call that started its execution
    (the number of the call, its request id and its request key), [waiters]
    lists the calls that joined a promise, in order of arrival, and
    [delivered] is what the calls that have finished received. A call is
    named by its number. The execution behind a promise runs outside: an
    event settles the promise with whatever the execution ends in.
    [configuration] is [this.config.jimengAI] as it stands: [updateConfig]
    may change it between two calls. *)

Record Concurrent := {
  service : Service;
  configuration : APIConfig;
  calls : nat;
  owners : gmap nat (nat * string * string);
  waiters : list (nat * nat * string);
  delivered : list (nat * Outcome string)
}.

Inductive Event :=
| ev_call (imageBase64 : string) (transformType : TransformType) (options : TransformOptions)
| ev_settle (promise : nat) (settlement : Outcome string)
| ev_clearCache
| ev_cancelAllRequests
| ev_updateConfig (jimengAI : option APIConfig)
| ev_elapse (ms : Z).

(** [updateConfig(newConfig)]: [{ ...this.config, ...newConfig }] is a
    shallow merge, so a [newConfig] that has [jimengAI] replaces it whole and
    one that has none leaves it. [validateConfig], called after the
    assignment, may throw to the caller of [updateConfig]; the new
    configuration stays in place. *)
Definition updateConfig (jimengAI : option APIConfig) (cfg : APIConfig) : APIConfig :=
  default cfg jimengAI.


(** The service of [env] with the configuration it has in [c]. *)
Definition current (env : Env) (c : Concurrent) : Env :=
  {| config := configuration c; serviceOptions := serviceOptions env;
     fetch := fetch env; elapsed := elapsed env; pending := pending env |}.

Definition initial (env : Env) (t : Z) : Concurrent :=
  {| service := newService t; configuration := config env; calls := O; owners := ∅;
     waiters := []; delivered := [] |}.

(** The calls that joined promise [p] are resumed, in order. *)
Fixpoint resumeWaiters
    (p : nat) (settlement : Outcome string) (ws : list (nat * nat * string)) (s : Service)
  : list (nat * Outcome string) * Service :=
  match ws with
  | [] => ([], s)
  | (p', caller, requestId) :: rest =>
      if (p' =? p)%nat then
        let '(o, s1) := transformImage_waiter requestId settlement s in
        let '(ds, s2) := resumeWaiters p settlement rest s1 in
        ((caller, o) :: ds, s2)
      else resumeWaiters p settlement rest s
  end.

Definition step (env : Env) (ev : Event) (c : Concurrent) : Concurrent :=
  match ev with
  | ev_call i t o =>
      match transformImage_enter (current env c) i t o (service c) with
      | (Throw e, s) =>
          {| service := s; configuration := configuration c; calls := S (calls c);
             owners := owners c; waiters := waiters c;
             delivered := delivered c ++ [(calls c, Throw e)] |}
      | (Return (CacheHit r), s) =>
          {| service := s; configuration := configuration c; calls := S (calls c);
             owners := owners c; waiters := waiters c;
             delivered := delivered c ++ [(calls c, Return r)] |}
      | (Return (Join requestId _ p), s) =>
          {| service := s; configuration := configuration c; calls := S (calls c);
             owners := owners c;
             waiters := waiters c ++ [(p, calls c, requestId)];
             delivered := delivered c |}
      | (Return (Start requestId requestKey p), s) =>
          {| service := s; configuration := configuration c; calls := S (calls c);
             owners := <[p := (calls c, requestId, requestKey)]> (owners c);
             waiters := waiters c; delivered := delivered c |}
      end
  | ev_settle p settlement =>
      match owners c !! p with
      | None => c
      | Some (caller, requestId, requestKey) =>
          let '(o, s1) :=
            transformImage_owner (current env c) requestId requestKey settlement (service c) in
          let '(ds, s2) := resumeWaiters p settlement (waiters c) s1 in
          {| service := s2; configuration := configuration c; calls := calls c;
             owners := delete p (owners c);
             waiters := List.filter (fun w => negb (fst (fst w) =? p)%nat) (waiters c);
             delivered := delivered c ++ (caller, o) :: ds |}
      end
  | ev_clearCache =>
      {| service := stateAfter clearCache (service c); configuration := configuration c;
         calls := calls c; owners := owners c;
         waiters := waiters c; delivered := delivered c |}
  | ev_cancelAllRequests =>
      {| service := stateAfter cancelAllRequests (service c);
         configuration := configuration c; calls := calls c;
         owners := owners c; waiters := waiters c; delivered := delivered c |}
  | ev_updateConfig jimengAI =>
      {| service := service c; configuration := updateConfig jimengAI (configuration c);
         calls := calls c; owners := owners c; waiters := waiters c;
         delivered := delivered c |}
  | ev_elapse ms =>
      {| service := with_now (fun t => t + Z.max 0 ms) (service c);
         configuration := configuration c; calls := calls c;
         owners := owners c; waiters := waiters c; delivered := delivered c |}
  end.

Fixpoint run (env : Env) (trace : list Event) (c : Concurrent) : Concurrent :=
  match trace with
  | [] => c
  | ev :: rest => run env rest (step env ev c)
  end.




(** The execution behind promise [p] is for the request key [requestKey]. *)
Definition executes (c : Concurrent) (p : nat) (requestKey : string) : Prop :=
  exists caller requestId, owners c !! p = Some (caller, requestId, requestKey).




(** What holds of the suspended calls of a service on which
    [cancelAllRequests] is not called: every execution that has not settled
    is registered under its key, the cache has no result to serve for that
    key, the promise was handed out by this service, every call that joined
    waits for an execution that has not settled, and every registration is
    that of an execution that has not settled. *)
Definition noHit (env : Env) (requestKey : string) (s : Service) : Prop :=
  enableCache (serviceOptions env) = false
  \/ forall entry, OMap.get requestKey (requestCache s) = Some entry ->
                   Js.truthy (result entry) = false.


(** [e'] is what the [catch] of [transformImage] throws for [e]: [e]
    itself, or a wrapper of kind [UNKNOWN_ERROR] around it. *)
Definition rethrown (e e' : JsValue) : Prop :=
  if instanceofError e && hasType e then e' = e
  else exists requestId t,
         e' = APIError UNKNOWN_ERROR "Image transformation failed" (det_error e requestId) t.

(** [o] is what a call receives when the promise it awaits settles with
    [settlement]. *)
Definition settlesAs (settlement o : Outcome string) : Prop :=
  match settlement with
  | Return r => o = Return r
  | Throw e => exists e', o = Throw e' /\ rethrown e e'
  end.

(** ** Further statements about the service and the orchestrator *)

(** The attempt numbers [first], [first + 1], ... ([count] of them). *)
Definition attemptsFrom (first : Z) (count : nat) : list Z :=
  map (fun j => first + Z.of_nat j) (seq 0 count).

(** A rejection of [fetch] by an abort of the request (the timeout), and
    one by a network failure as [fetch] reports it. *)
Definition isAbort (o : FetchOutcome) : Prop :=
  exists isTypeError msg, o = FetchRejected (ErrorInstance isTypeError "AbortError" msg).

Definition isNetworkFailure (o : FetchOutcome) : Prop :=
  exists name msg,
    o = FetchRejected (ErrorInstance true name msg)
    /\ name <> "AbortError" /\ Js.includes msg "fetch" = true.

(** An exchange that fails in a way the service retries. *)
Definition failsRetryably (o : FetchOutcome) : Prop :=
  isServerError o \/ isAbort o \/ isNetworkFailure o.

(** An exchange that delivers [image]. *)
Definition delivers (o : FetchOutcome) (image : string) : Prop :=
  exists r parsed,
    o = FetchResolved r /\ ok r = true /\ resp_json r = inr parsed
    /\ success parsed = true /\ data_image parsed = Some image /\ Js.truthy image = true.

(** The polynomial the hash of a string is the 32-bit wrap of. *)
Definition polynomial (codes : list Z) : Z := fold_left (fun h c => 31 * h + c) codes 0.

(** The service's bookkeeping, besides the clock, the sleeps and the count
    of exchanges, is unchanged. *)
Definition sameBookkeeping (s s' : Service) : Prop :=
  requestCache s' = requestCache s
  /\ activeRequests s' = activeRequests s
  /\ started s' = started s
  /\ requestIdCounter s' = requestIdCounter s.

(** The test service in front of a network that answers the exchanges with
    [answers], in turn, and with [last] from then on. *)
Definition scriptedEnv (answers : list FetchOutcome) (last : FetchOutcome) : Env :=
  {| config := testConfig; serviceOptions := defaultOptions;
     fetch := fun k _ _ => nth k answers last; elapsed := fun _ => 0;
     pending := fun _ => Throw Undefined |}.

Definition aborted : FetchOutcome :=
  FetchRejected (ErrorInstance false "AbortError" "The operation was aborted").

Definition failedToFetch : FetchOutcome :=
  FetchRejected (ErrorInstance true "TypeError" "Failed to fetch").

(** The test service with no API key configured. *)
Definition keylessEnv : Env :=
  {| config :=
       {| endpoint := endpoint testConfig;
          apiKey := EmptyString;
          defaultModel := defaultModel testConfig;
          transformPrompts := transformPrompts testConfig;
          defaultParams_strength := defaultParams_strength testConfig;
          defaultParams_steps := defaultParams_steps testConfig;
          defaultParams_guidance_scale := defaultParams_guidance_scale testConfig;
          defaultParams_width := defaultParams_width testConfig;
          defaultParams_height := defaultParams_height testConfig;
          timeout := timeout testConfig;
          retryCount := retryCount testConfig |};
     serviceOptions := defaultOptions;
     fetch := fun _ _ _ => httpSuccess "abc"; elapsed := fun _ => 0;
     pending := fun _ => Throw Undefined |}.

(** The cache [cache'] holds nothing that [cache] does not hold. *)
Definition nothingAdded (cache cache' : list (string * CacheEntry)) : Prop :=
  forall k entry, OMap.get k cache' = Some entry -> OMap.get k cache = Some entry.

(** The test service with a retry count of 0. *)
Definition noRetryEnv : Env :=
  {| config :=
       {| endpoint := endpoint testConfig;
          apiKey := apiKey testConfig;
          defaultModel := defaultModel testConfig;
          transformPrompts := transformPrompts testConfig;
          defaultParams_strength := defaultParams_strength testConfig;
          defaultParams_steps := defaultParams_steps testConfig;
          defaultParams_guidance_scale := defaultParams_guidance_scale testConfig;
          defaultParams_width := defaultParams_width testConfig;
          defaultParams_height := defaultParams_height testConfig;
          timeout := timeout testConfig;
          retryCount := 0 |};
     serviceOptions := defaultOptions;
     fetch := fun _ _ _ => httpSuccess "abc"; elapsed := fun _ => 0;
     pending := fun _ => Throw Undefined |}.

(** An option whose value is falsy, the seed apart. *)
Definition falsyOption (e : OptionEntry) : bool :=
  match e with
  | opt_strength n | opt_steps n | opt_guidance_scale n | opt_width n | opt_height n =>
      negb (num_truthy n)
  | opt_seed _ => false
  | opt_customPrompt s => negb (Js.truthy s)
  end.

(** The service has made as many exchanges, and at most [n] more. *)
Definition sameFetches (s s' : Service) : Prop := fetches s' = fetches s.

Definition withinExchanges (n : nat) (s s' : Service) : Prop :=
  (fetches s' <= fetches s + n)%nat.

Section FurtherManagerStatements.
Import ImageTransformManager.

(** A manager in the middle of a transform. *)
Definition busyManager : Manager :=
  with_state (set_isTransforming true) (newManager (newService 0)).

(** The service of [m'] has made at most [n] exchanges more than that of
    [m]. *)
Definition atMost (n : nat) (m m' : Manager) : Prop :=
  (fetches (apiService m') <= fetches (apiService m) + n)%nat.

(** The counter of failed attempts is left as it is. *)
Definition sameFailedAttempts (m m' : Manager) : Prop :=
  failedAttempts (state m') = failedAttempts (state m).

(** The progress events reported from [m] to [m'] all carry a progress
    between 0 and 100. *)
Definition reportsClamped (m m' : Manager) : Prop :=
  exists events,
    reported m' = (reported m ++ events)%list
    /\ Forall (fun p => 0 <= progress_reported p <= 100) events.

(** The statistics [getTransformStats] reports for [m]. *)
Definition statsOf (m : Manager) : Outcome TransformStats := fst (getTransformStats m).


End FurtherManagerStatements.

(** * Properties *)

Local Open Scope list_scope.

(** ** Running computations *)

Lemma bind_Return {S A B} (c : M S A) (k : A -> M S B) s a s' :
  c s = (Return a, s') -> bind c k s = k a s'.
Proof. intros H. unfold bind. now rewrite H. Qed.

Lemma bind_Throw {S A B} (c : M S A) (k : A -> M S B) s e s' :
  c s = (Throw e, s') -> bind c k s = (Throw e, s').
Proof. intros H. unfold bind. now rewrite H. Qed.

Lemma settled_run {S A} (c : M S A) s o s' :
  c s = (o, s') -> settled c s = (Return o, s').
Proof. intros H. unfold settled. now rewrite H. Qed.

Ltac run :=
  repeat (cbn [bind ret throw gets modify tryCatch tryFinally settled await zoom
               fst snd stateAfter] in *;
          unfold bind, ret, throw, gets, modify, tryCatch, tryFinally, settled,
                 await, zoom, stateAfter in *).

(** ** The retry delay *)

Lemma doubled_pow base k : doubled base k = base * 2 ^ Z.of_nat k.
Proof.
  induction k as [|k IH].
  - cbn. lia.
  - rewrite Nat2Z.inj_succ, Z.pow_succ_r by lia. cbn [doubled]. rewrite IH. lia.
Qed.

(** C8. For every attempt number [n >= 1] the delay of the retry policy is
    [min(1000 * 2^(n-1), 10000)] as the specification words it: 1000, 2000,
    4000 and 8000 for the first four attempts and 10000 from the fifth on.
    It is a function of [n] alone. *)
Theorem retry_delay_is_capped_doubling (n : Z) :
  1 <= n ->
  calculateRetryDelay n = specifiedDelay 1000 10000 n
  /\ (n <= 4 -> calculateRetryDelay n = 1000 * 2 ^ (n - 1))
  /\ (5 <= n -> calculateRetryDelay n = 10000).
Proof.
  intros Hn. unfold calculateRetryDelay, specifiedDelay.
  rewrite doubled_pow, Z2Nat.id by lia.
  split; [reflexivity|]. split; intros H.
  - assert (2 ^ (n - 1) <= 2 ^ 3) by (apply Z.pow_le_mono_r; lia).
    change (2 ^ 3) with 8 in *. lia.
  - assert (2 ^ 4 <= 2 ^ (n - 1)) by (apply Z.pow_le_mono_r; lia).
    change (2 ^ 4) with 16 in *. lia.
Qed.

Lemma retry_delay_is_capped_doubling_witness :
  calculateRetryDelay 3 = specifiedDelay 1000 10000 3
  /\ (3 <= 4 -> calculateRetryDelay 3 = 1000 * 2 ^ (3 - 1))
  /\ (5 <= 3 -> calculateRetryDelay 3 = 10000).
Proof. apply (retry_delay_is_capped_doubling 3). lia. Defined.

Example retry_delays :
  map calculateRetryDelay [1; 2; 3; 4; 5; 6; 40] = [1000; 2000; 4000; 8000; 10000; 10000; 10000].
Proof. reflexivity. Qed.

(** ** One exchange *)

Lemma makeAPIRequest_not_ok env request requestId s r :
  fetch env (fetches s) requestId request = FetchResolved r ->
  ok r = false ->
  makeAPIRequest env request requestId s
  = (Throw (APIError (getErrorTypeFromStatus (status r))
              ("HTTP " ++ Js.toString 10 (status r) ++ ": " ++ statusText r)%string
              (det_status (status r) (resp_text r) requestId)
              (now (afterFetch env s))),
     afterFetch env s).
Proof.
  intros Hf Hok. unfold makeAPIRequest, createAPIError, Date_now. run.
  rewrite Hf, Hok. reflexivity.
Qed.

Lemma makeAPIRequest_parsed env request requestId s r parsed :
  fetch env (fetches s) requestId request = FetchResolved r ->
  ok r = true ->
  resp_json r = inr parsed ->
  makeAPIRequest env request requestId s = (Return parsed, afterFetch env s).
Proof.
  intros Hf Hok Hj. unfold makeAPIRequest. run.
  rewrite Hf, Hok, Hj. reflexivity.
Qed.

Lemma attempt_not_ok env request requestId attempt s r :
  fetch env (fetches s) requestId request = FetchResolved r ->
  ok r = false ->
  performTransformation_attempt env request requestId attempt s
  = (Throw (APIError (getErrorTypeFromStatus (status r))
              ("HTTP " ++ Js.toString 10 (status r) ++ ": " ++ statusText r)%string
              (det_status (status r) (resp_text r) requestId)
              (now (afterFetch env s))),
     afterFetch env s).
Proof.
  intros Hf Hok. unfold performTransformation_attempt.
  apply bind_Throw. now apply makeAPIRequest_not_ok.
Qed.

(** ** Rate limiting *)

Lemma rate_limit_not_retryable msg details t :
  isRetryableError (APIError RATE_LIMIT_ERROR msg details t) = false.
Proof. reflexivity. Qed.

(** C4, as amended. In the retry loop of the service a failure classified
    [RATE_LIMIT_ERROR] (HTTP status 429) is not retryable: whatever the
    attempt number, the loop stops at once with that error, after this one
    exchange and without sleeping. Only [NETWORK_ERROR], [TIMEOUT_ERROR] and
    [SERVER_ERROR] are retryable. *)
Theorem rate_limit_stops_the_retry_loop
    env request requestId maxRetries remaining attempt lastError s :
  isRateLimited (fetch env (fetches s) requestId request) ->
  exists msg details t,
    performTransformation_loop env request requestId maxRetries
      (S remaining) attempt lastError s
    = (Throw (APIError RATE_LIMIT_ERROR msg details t), afterFetch env s)
    /\ fetches (afterFetch env s) = S (fetches s)
    /\ slept (afterFetch env s) = slept s
    /\ (forall type, isRetryableError (APIError type msg details t) = true
                     <-> type = NETWORK_ERROR \/ type = TIMEOUT_ERROR \/ type = SERVER_ERROR).
Proof.
  intros H. destruct (fetch env (fetches s) requestId request) as [|r] eqn:Hf; [easy|].
  destruct H as [Hok Hst]. do 3 eexists. split; [|split; [|split]].
  - cbn [performTransformation_loop].
    erewrite bind_Return
      by (apply settled_run; apply attempt_not_ok; [exact Hf | exact Hok]).
    rewrite Hst. cbn [getErrorTypeFromStatus]. rewrite orb_true_r.
    reflexivity.
  - reflexivity.
  - reflexivity.
  - intros type. destruct type; cbn; intuition congruence.
Qed.

Lemma rate_limit_stops_the_retry_loop_witness :
  isRateLimited (httpFailure 429 "Too Many Requests")
  /\ exists msg details t,
       performTransformation_loop (testEnv (httpFailure 429 "Too Many Requests"))
         (transformationRequest testConfig "data:image/jpeg;base64,test" light [])
         "transform_1" 3 3 1 None (newService 0)
       = (Throw (APIError RATE_LIMIT_ERROR msg details t),
          afterFetch (testEnv (httpFailure 429 "Too Many Requests")) (newService 0)).
Proof.
  split; [now split|].
  destruct (rate_limit_stops_the_retry_loop
              (testEnv (httpFailure 429 "Too Many Requests"))
              (transformationRequest testConfig "data:image/jpeg;base64,test" light [])
              "transform_1" 3 2 1 None (newService 0))
    as (msg & details & t & H & _); [now split|].
  exists msg, details, t. exact H.
Defined.

(** C4, counterexample. With the test configuration (three attempts) and a
    network that answers 429, the service makes one exchange and never
    sleeps: the failure is not retried. *)
Lemma rate_limit_is_not_retried :
  ~ retriesRateLimit (testEnv (httpFailure 429 "Too Many Requests")).
Proof.
  intros H.
  specialize (H "data:image/jpeg;base64,test" light [] "transform_1" (newService 0)).
  destruct H as [H _]; [now split | reflexivity |].
  vm_compute in H. lia.
Qed.

(** ** Request keys *)

Lemma get_steps_app o e :
  get_steps o = None -> get_steps (o ++ [opt_steps e]) = Some e.
Proof.
  induction o as [|x o IH]; [reflexivity|].
  destruct x; cbn; try exact IH. discriminate.
Qed.

Lemma getters_app_steps o e :
  get_strength (o ++ [opt_steps e]) = get_strength o
  /\ get_guidance_scale (o ++ [opt_steps e]) = get_guidance_scale o
  /\ get_width (o ++ [opt_steps e]) = get_width o
  /\ get_height (o ++ [opt_steps e]) = get_height o
  /\ get_seed (o ++ [opt_steps e]) = get_seed o
  /\ get_customPrompt (o ++ [opt_steps e]) = get_customPrompt o.
Proof.
  induction o as [|x o IH]; [now repeat split|].
  destruct IH as (H1 & H2 & H3 & H4 & H5 & H6).
  destruct x; cbn; now repeat split.
Qed.

Lemma String_length_app (a b : string) :
  String.length (a ++ b)%string = (String.length a + String.length b)%nat.
Proof. induction a as [|c a IH]; simpl; [reflexivity | f_equal; exact IH]. Qed.

Lemma optionsJsonTail_length o e :
  (String.length (optionsJsonTail o) < String.length (optionsJsonTail (o ++ [e])))%nat.
Proof.
  induction o as [|x o IH].
  - cbn [app optionsJsonTail]. rewrite !String_length_app. cbn [String.length]. lia.
  - cbn [app optionsJsonTail]. rewrite !String_length_app. lia.
Qed.

(** C5, as amended. The request key is derived from the options as the
    caller passed them, before any default is applied. Requests with the same
    image and type whose options serialise to the same text have the same
    key. Passing the default number of steps explicitly where it was omitted
    gives the same wire request, but another serialisation of the options,
    and so a key that is derived from another text. *)
Theorem request_key_is_derived_from_the_options_as_passed
    (cfg : APIConfig) (imageBase64 : string) (transformType : TransformType)
    (o1 o2 : TransformOptions) :
  optionsStr (transformTypeName transformType) o1
  = optionsStr (transformTypeName transformType) o2 ->
  requestKeyOf imageBase64 transformType o1 = requestKeyOf imageBase64 transformType o2
  /\ (get_steps o1 = None ->
      logicallyIdentical cfg imageBase64 transformType
        o1 (o1 ++ [opt_steps (defaultParams_steps cfg)])
      /\ optionsStr (transformTypeName transformType) (o1 ++ [opt_steps (defaultParams_steps cfg)])
         <> optionsStr (transformTypeName transformType) o1).
Proof.
  intros Heq. split.
  - unfold requestKeyOf, generateRequestKey. now rewrite Heq.
  - intros Hnone. split.
    + unfold logicallyIdentical, transformationRequest.
      destruct (getters_app_steps o1 (defaultParams_steps cfg)) as (H1 & H2 & H3 & H4 & H5 & H6).
      rewrite H1, H2, H3, H4, H5, H6, (get_steps_app _ _ Hnone), Hnone.
      cbn [orNumber]. now destruct (num_truthy (defaultParams_steps cfg)).
    + intros Habs. apply (f_equal String.length) in Habs.
      unfold optionsStr in Habs. rewrite !String_length_app in Habs.
      pose proof (optionsJsonTail_length o1 (opt_steps (defaultParams_steps cfg))). lia.
Qed.

Lemma request_key_is_derived_from_the_options_as_passed_witness :
  optionsStr "light" [] = optionsStr "light" []
  /\ requestKeyOf "data:image/jpeg;base64,test" light []
     = requestKeyOf "data:image/jpeg;base64,test" light []
  /\ (get_steps [] = None ->
      logicallyIdentical testConfig "data:image/jpeg;base64,test" light
        [] ([] ++ [opt_steps (defaultParams_steps testConfig)])
      /\ optionsStr "light" ([] ++ [opt_steps (defaultParams_steps testConfig)])
         <> optionsStr "light" []).
Proof.
  split; [reflexivity|].
  apply (request_key_is_derived_from_the_options_as_passed
           testConfig "data:image/jpeg;base64,test" light [] []).
  reflexivity.
Defined.

(** C5, counterexample. With the test configuration, whose default number
    of steps is 30, the request that omits [steps] and the request that passes
    [steps: 30] build the same wire request and have different keys. *)
Lemma explicit_default_changes_the_key :
  ~ (forall cfg imageBase64 transformType o1 o2,
        logicallyIdentical cfg imageBase64 transformType o1 o2 ->
        requestKeyOf imageBase64 transformType o1 = requestKeyOf imageBase64 transformType o2).
Proof.
  intros H.
  specialize (H testConfig "data:image/jpeg;base64,test" light [] [opt_steps (intNumber 30)]).
  assert (Hkeys : requestKeyOf "data:image/jpeg;base64,test" light []
                  = requestKeyOf "data:image/jpeg;base64,test" light [opt_steps (intNumber 30)])
    by (apply H; reflexivity).
  vm_compute in Hkeys. discriminate.
Qed.

Example request_keys_of_the_unit_test :
  generateRequestKey "image1" "light" [opt_strength (decNumber "0.5")]
  = generateRequestKey "image1" "light" [opt_strength (decNumber "0.5")]
  /\ generateRequestKey "image1" "light" [opt_strength (decNumber "0.5")]
     <> generateRequestKey "image1" "heavy" [opt_strength (decNumber "0.5")]
  /\ generateRequestKey "image1" "light" [opt_strength (decNumber "0.5")] = "jlo1ca_9mb2es".
Proof. split; [reflexivity|]. split; [vm_compute; discriminate | reflexivity]. Qed.

Example base64_helpers_of_the_unit_test :
  cleanBase64 "data:image/jpeg;base64,test123" = "test123"
  /\ cleanBase64 "test123" = "test123"
  /\ addBase64Prefix "test123" = "data:image/jpeg;base64,test123"
  /\ addBase64Prefix "data:image/png;base64,test123" = "data:image/png;base64,test123".
Proof. repeat split. Qed.

Example keys_of_the_two_requests :
  requestKeyOf "data:image/jpeg;base64,test" light [] = "5c6eow_242e86"
  /\ requestKeyOf "data:image/jpeg;base64,test" light [opt_steps (intNumber 30)] = "5c6eow_26qbce".
Proof. split; reflexivity. Qed.

(** ** Maps in insertion order *)

Section OMapFacts.
Context {V : Type}.
Implicit Types (m : list (string * V)) (k : string) (v : V).

Lemma get_set_eq k v m : OMap.get k (OMap.set k v m) = Some v.
Proof.
  induction m as [|[k' v'] m IH]; cbn.
  - now rewrite String.eqb_refl.
  - destruct (String.eqb k' k) eqn:E; cbn.
    + now rewrite String.eqb_refl.
    + now rewrite E.
Qed.


Lemma get_delete_eq k m : OMap.get k (OMap.delete k m) = None.
Proof.
  induction m as [|[k' v'] m IH]; cbn; [reflexivity|].
  destruct (String.eqb k' k) eqn:E; cbn; [exact IH | now rewrite E].
Qed.

Lemma get_delete_ne k k' m : k <> k' -> OMap.get k' (OMap.delete k m) = OMap.get k' m.
Proof.
  intros Hne. induction m as [|[k0 v0] m IH]; cbn; [reflexivity|].
  destruct (String.eqb k0 k) eqn:E; cbn.
  - apply String.eqb_eq in E. subst k0. apply String.eqb_neq in Hne. now rewrite Hne.
  - now rewrite IH.
Qed.

Lemma get_None_keys k m : OMap.get k m = None <-> ~ In k (map fst m).
Proof.
  induction m as [|[k' v'] m IH]; cbn; [tauto|].
  destruct (String.eqb k' k) eqn:E.
  - apply String.eqb_eq in E. split; [discriminate | tauto].
  - apply String.eqb_neq in E. tauto.
Qed.

Lemma delete_absent k m : ~ In k (map fst m) -> OMap.delete k m = m.
Proof.
  induction m as [|[k' v'] m IH]; cbn; [reflexivity|]. intros H.
  destruct (String.eqb k' k) eqn:E.
  - apply String.eqb_eq in E. tauto.
  - f_equal. apply IH. tauto.
Qed.

Lemma keys_set k v m :
  map fst (OMap.set k v m)
  = match OMap.get k m with Some _ => map fst m | None => map fst m ++ [k] end.
Proof.
  induction m as [|[k' v'] m IH]; cbn; [reflexivity|].
  destruct (String.eqb k' k) eqn:E; cbn.
  - apply String.eqb_eq in E. now subst.
  - rewrite IH. now destruct (OMap.get k m).
Qed.

Lemma length_set k v m :
  List.length (OMap.set k v m)
  = match OMap.get k m with Some _ => List.length m | None => S (List.length m) end.
Proof.
  induction m as [|[k' v'] m IH]; cbn; [reflexivity|].
  destruct (String.eqb k' k) eqn:E; cbn; [reflexivity|].
  rewrite IH. now destruct (OMap.get k m).
Qed.

Lemma Forall_set (P : string * V -> Prop) k v m :
  P (k, v) -> Forall P m -> Forall P (OMap.set k v m).
Proof.
  intros Hp. induction 1 as [|[k' v'] m Hx Hm IH]; cbn.
  - now constructor.
  - destruct (String.eqb k' k); constructor; auto.
Qed.

Lemma Forall_delete (P : string * V -> Prop) k m :
  Forall P m -> Forall P (OMap.delete k m).
Proof.
  induction 1 as [|[k' v'] m Hx Hm IH]; cbn; [constructor|].
  destruct (String.eqb k' k); [assumption | now constructor].
Qed.

Lemma NoDup_keys_set k v m : NoDup (map fst m) -> NoDup (map fst (OMap.set k v m)).
Proof.
  intros H. rewrite keys_set. destruct (OMap.get k m) eqn:E; [assumption|].
  apply get_None_keys in E.
  apply NoDup_app. split; [assumption|]. split.
  - intros x Hx Hin. apply list_elem_of_In in Hx, Hin. cbn in Hin.
    destruct Hin as [<-|[]]. tauto.
  - apply NoDup_cons. split; [apply not_elem_of_nil | apply NoDup_nil_2].
Qed.
End OMapFacts.

(** ** The result cache *)

Lemma cacheResult_run opts key result s :
  cacheResult opts key result s
  = (Return tt,
     with_requestCache
       (fun _ => OMap.set key (entryAt key result (now s))
                   (afterEviction opts (requestCache s))) s).
Proof.
  unfold cacheResult, afterEviction, Date_now. run.
  destruct (maxCacheSize opts <=? OMap.size (requestCache s)); [|reflexivity].
  destruct (OMap.firstKey (requestCache s)) as [k|]; [|reflexivity].
  destruct (Js.truthy k); reflexivity.
Qed.

Lemma getCachedResult_absent imageBase64 transformType options s :
  OMap.get (generateRequestKey imageBase64 transformType options) (requestCache s) = None ->
  getCachedResult imageBase64 transformType options s = (Return None, s).
Proof. intros H. unfold getCachedResult. run. now rewrite H. Qed.

Lemma getCachedResult_present imageBase64 transformType options s entry :
  OMap.get (generateRequestKey imageBase64 transformType options) (requestCache s) = Some entry ->
  getCachedResult imageBase64 transformType options s
  = if expiresAt entry <? now s
    then (Return None,
          with_requestCache
            (OMap.delete (generateRequestKey imageBase64 transformType options)) s)
    else (Return (Some (result entry)), s).
Proof.
  intros H. unfold getCachedResult, Date_now. run. rewrite H.
  now destruct (expiresAt entry <? now s).
Qed.

(** C7, as amended. An entry inserted at time [T] is served by every lookup
    at a time up to and including [T + ttl], which leaves the cache as it
    is; a lookup at a time after [T + ttl] is a miss and removes the entry. *)
Theorem cached_entry_is_served_until_it_expires
    opts imageBase64 transformType options result s t :
  let key := requestKeyOf imageBase64 transformType options in
  let s1 := stateAfter (cacheResult opts key result) s in
  let s2 := with_now (fun _ => t) s1 in
  let lookup := getCachedResult imageBase64 (transformTypeName transformType) options s2 in
  (t <= now s + ttl -> lookup = (Return (Some result), s2))
  /\ (now s + ttl < t ->
      fst lookup = Return None
      /\ OMap.get key (requestCache (snd lookup)) = None
      /\ snd lookup = with_requestCache (OMap.delete key) s2).
Proof.
  intros key s1 s2 lookup. subst lookup s2 s1. unfold stateAfter.
  rewrite cacheResult_run. cbn [snd].
  erewrite getCachedResult_present by (cbn; apply get_set_eq).
  cbn [expiresAt entryAt now with_now with_requestCache APIService.result].
  split; intros H.
  - now replace (now s + ttl <? t) with false by lia.
  - replace (now s + ttl <? t) with true by lia. cbn [fst snd].
    split; [reflexivity|]. split; [|reflexivity].
    cbn. apply get_delete_eq.
Qed.

(** C7, counterexample. A lookup at exactly [T + ttl] is a hit. *)
Lemma lookup_at_the_expiry_time_is_a_hit : ~ missFromTtlOn.
Proof.
  intros H.
  specialize (H defaultOptions "data:image/jpeg;base64,test" light []
                "data:image/jpeg;base64,result" (newService 0) ttl).
  cbv zeta in H. specialize (H ltac:(cbn; lia)).
  vm_compute in H. discriminate.
Qed.

Lemma truthy_app a c b : Js.truthy (a ++ String c b)%string = true.
Proof. now destruct a. Qed.

Lemma requestKey_truthy imageBase64 transformType options :
  Js.truthy (generateRequestKey imageBase64 transformType options) = true.
Proof. unfold generateRequestKey. apply truthy_app. Qed.

Lemma In_keys_delete {V} k x (m : list (string * V)) :
  In x (map fst (OMap.delete k m)) -> In x (map fst m).
Proof.
  induction m as [|[k' v'] m IH]; cbn; [tauto|].
  destruct (String.eqb k' k); cbn; tauto.
Qed.

Lemma NoDup_keys_delete {V} k (m : list (string * V)) :
  NoDup (map fst m) -> NoDup (map fst (OMap.delete k m)).
Proof.
  induction m as [|[k' v'] m IH]; cbn; [trivial|].
  intros H. apply NoDup_cons in H as [Hk Hm].
  destruct (String.eqb k' k); cbn; [auto|].
  apply NoDup_cons. split; [|auto].
  rewrite list_elem_of_In in *. intros Hin. apply Hk. eapply In_keys_delete, Hin.
Qed.

Lemma length_delete {V} k (m : list (string * V)) :
  (List.length (OMap.delete k m) <= List.length m)%nat.
Proof.
  induction m as [|[k' v'] m IH]; cbn; [lia|].
  destruct (String.eqb k' k); cbn; lia.
Qed.

Lemma afterEviction_at_capacity opts cache :
  wellFormedCache opts cache ->
  1 <= maxCacheSize opts ->
  maxCacheSize opts <= OMap.size cache ->
  exists oldest rest, cache = oldest :: rest /\ afterEviction opts cache = rest.
Proof.
  intros (Hnd & Hk & Hsz & _) Hmax Hfull. unfold afterEviction.
  replace (maxCacheSize opts <=? OMap.size cache) with true by lia.
  destruct cache as [|[k0 v0] rest]; [unfold OMap.size in *; cbn in *; lia|].
  exists (k0, v0), rest. split; [reflexivity|].
  cbn [OMap.firstKey]. inversion Hk as [|? ? Hk0 _]; subst. cbn in Hk0. rewrite Hk0.
  cbn [OMap.delete]. rewrite String.eqb_refl.
  cbn in Hnd. apply NoDup_cons in Hnd as [Hnotin _].
  apply delete_absent. now rewrite <- list_elem_of_In.
Qed.

Lemma afterEviction_below_capacity opts cache :
  OMap.size cache < maxCacheSize opts -> afterEviction opts cache = cache.
Proof.
  intros H. unfold afterEviction.
  now replace (maxCacheSize opts <=? OMap.size cache) with false by lia.
Qed.

Lemma wellFormedCache_tail opts x rest :
  wellFormedCache opts (x :: rest) ->
  NoDup (map fst rest)
  /\ Forall (fun kv => Js.truthy (fst kv) = true) rest
  /\ OMap.size rest < OMap.size (x :: rest)
  /\ Forall (fun kv => validEntry (snd kv)) rest.
Proof.
  intros (Hnd & Hk & Hsz & Hv). cbn in Hnd. apply NoDup_cons in Hnd as [_ Hnd].
  inversion Hk; inversion Hv; subst. unfold OMap.size. cbn [List.length].
  repeat split; trivial. lia.
Qed.

Lemma wellFormedCache_put opts cache imageBase64 transformType options result t :
  1 <= maxCacheSize opts ->
  wellFormedCache opts cache ->
  wellFormedCache opts
    (OMap.set (requestKeyOf imageBase64 transformType options)
       (entryAt (requestKeyOf imageBase64 transformType options) result t)
       (afterEviction opts cache)).
Proof.
  intros Hmax Hwf.
  assert (Hev : NoDup (map fst (afterEviction opts cache))
                /\ Forall (fun kv => Js.truthy (fst kv) = true) (afterEviction opts cache)
                /\ OMap.size (afterEviction opts cache) < maxCacheSize opts
                /\ Forall (fun kv => validEntry (snd kv)) (afterEviction opts cache)).
  { destruct (Z_lt_le_dec (OMap.size cache) (maxCacheSize opts)) as [Hlt|Hge].
    - rewrite afterEviction_below_capacity by assumption.
      destruct Hwf as (? & ? & ? & ?). now repeat split.
    - destruct (afterEviction_at_capacity opts cache Hwf Hmax Hge) as (x & rest & -> & ->).
      destruct (wellFormedCache_tail _ _ _ Hwf) as (? & ? & ? & ?).
      destruct Hwf as (_ & _ & Hsz & _). repeat split; trivial. lia. }
  destruct Hev as (Hnd & Hk & Hsz & Hv). repeat split.
  - now apply NoDup_keys_set.
  - apply Forall_set; [apply requestKey_truthy | assumption].
  - unfold OMap.size in *. rewrite length_set.
    destruct (OMap.get _ _); lia.
  - apply Forall_set; [|assumption]. unfold validEntry, entryAt, ttl. cbn. lia.
Qed.

Lemma wellFormedCache_delete opts cache k :
  wellFormedCache opts cache -> wellFormedCache opts (OMap.delete k cache).
Proof.
  intros (Hnd & Hk & Hsz & Hv). repeat split.
  - now apply NoDup_keys_delete.
  - now apply Forall_delete.
  - pose proof (length_delete k cache). unfold OMap.size in *. lia.
  - now apply Forall_delete.
Qed.

Lemma runCacheOp_wellFormed opts op s :
  1 <= maxCacheSize opts ->
  wellFormedCache opts (requestCache s) ->
  wellFormedCache opts (requestCache (stateAfter (runCacheOp opts op) s)).
Proof.
  intros Hmax Hwf. destruct op as [i t o r|i t o| |ms]; unfold stateAfter; cbn [runCacheOp].
  - rewrite cacheResult_run. cbn. now apply wellFormedCache_put.
  - unfold bind.
    destruct (OMap.get (generateRequestKey i (transformTypeName t) o) (requestCache s))
      as [entry|] eqn:E.
    + rewrite (getCachedResult_present _ _ _ _ _ E).
      destruct (expiresAt entry <? now s); cbn; [now apply wellFormedCache_delete | assumption].
    + now rewrite (getCachedResult_absent _ _ _ _ E).
  - cbn. repeat split; try constructor. unfold OMap.size. cbn. lia.
  - exact Hwf.
Qed.

Lemma runCacheOps_wellFormed opts ops s :
  1 <= maxCacheSize opts ->
  wellFormedCache opts (requestCache s) ->
  wellFormedCache opts (requestCache (stateAfter (runCacheOps opts ops) s)).
Proof.
  intros Hmax. revert s. induction ops as [|op ops IH]; intros s Hwf; [exact Hwf|].
  unfold stateAfter. cbn [runCacheOps]. unfold bind.
  pose proof (runCacheOp_wellFormed opts op s Hmax Hwf) as Hstep.
  unfold stateAfter in Hstep.
  destruct (runCacheOp opts op s) as [[[]|e] s1] eqn:E; cbn [snd] in *.
  - now apply IH.
  - exact Hstep.
Qed.

(** C6, as amended. With a configured capacity of at least one, after
    every sequence of cache operations the cache holds at most
    [maxCacheSize] entries and every entry expires after it was created. A
    [put] into a cache that is at capacity removes the entry inserted first
    and then stores the new one; a lookup that hits moves nothing. *)
Theorem cache_stays_within_its_capacity opts ops t0 :
  1 <= maxCacheSize opts ->
  let s := stateAfter (runCacheOps opts ops) (newService t0) in
  OMap.size (requestCache s) <= maxCacheSize opts
  /\ Forall (fun kv => validEntry (snd kv)) (requestCache s)
  /\ (forall imageBase64 transformType options result,
        maxCacheSize opts <= OMap.size (requestCache s) ->
        let key := requestKeyOf imageBase64 transformType options in
        exists oldest rest,
          requestCache s = oldest :: rest
          /\ requestCache (stateAfter (cacheResult opts key result) s)
             = OMap.set key (entryAt key result (now s)) rest)
  /\ (forall imageBase64 transformType options hit s',
        getCachedResult imageBase64 transformType options s = (Return (Some hit), s') ->
        requestCache s' = requestCache s).
Proof.
  intros Hmax s.
  assert (Hwf : wellFormedCache opts (requestCache s)).
  { apply runCacheOps_wellFormed; [assumption|].
    cbn. repeat split; try constructor. unfold OMap.size. cbn. lia. }
  split; [apply Hwf|]. split; [apply Hwf|]. split.
  - intros i t o r Hfull key.
    destruct (afterEviction_at_capacity opts _ Hwf Hmax Hfull) as (x & rest & Hc & Hev).
    exists x, rest. split; [assumption|].
    unfold stateAfter. rewrite cacheResult_run. cbn. now rewrite Hev.
  - intros i t o hit s' Hget.
    destruct (OMap.get (generateRequestKey i t o) (requestCache s)) as [entry|] eqn:E.
    + rewrite (getCachedResult_present _ _ _ _ _ E) in Hget.
      destruct (expiresAt entry <? now s); congruence.
    + rewrite (getCachedResult_absent _ _ _ _ E) in Hget. congruence.
Qed.

Lemma cache_stays_within_its_capacity_witness :
  let opts := {| enableRetry := true; enableCache := true; maxCacheSize := 2 |} in
  let ops := [op_put "data:image/jpeg;base64,image1" light [] "data:image/jpeg;base64,r1";
              op_wait 10;
              op_put "data:image/jpeg;base64,image2" heavy [] "data:image/jpeg;base64,r2";
              op_get "data:image/jpeg;base64,image1" light [];
              op_wait 10;
              op_put "data:image/jpeg;base64,image3" light [] "data:image/jpeg;base64,r3"] in
  let s := stateAfter (runCacheOps opts ops) (newService 1000) in
  1 <= maxCacheSize opts
  /\ OMap.size (requestCache s) = maxCacheSize opts
  /\ map fst (requestCache s)
     = [requestKeyOf "data:image/jpeg;base64,image2" heavy [];
        requestKeyOf "data:image/jpeg;base64,image3" light []]
  /\ OMap.size (requestCache s) <= maxCacheSize opts
  /\ Forall (fun kv => validEntry (snd kv)) (requestCache s)
  /\ (let key := requestKeyOf "data:image/jpeg;base64,image4" light [] in
      exists oldest rest,
        requestCache s = oldest :: rest
        /\ requestCache (stateAfter (cacheResult opts key "data:image/jpeg;base64,r4") s)
           = OMap.set key (entryAt key "data:image/jpeg;base64,r4" (now s)) rest)
  /\ map fst (requestCache
                (stateAfter
                   (cacheResult opts (requestKeyOf "data:image/jpeg;base64,image4" light [])
                      "data:image/jpeg;base64,r4") s))
     = [requestKeyOf "data:image/jpeg;base64,image3" light [];
        requestKeyOf "data:image/jpeg;base64,image4" light []].
Proof.
  cbv zeta.
  set (opts := {| enableRetry := true; enableCache := true; maxCacheSize := 2 |}).
  set (ops := [op_put "data:image/jpeg;base64,image1" light [] "data:image/jpeg;base64,r1";
               op_wait 10;
               op_put "data:image/jpeg;base64,image2" heavy [] "data:image/jpeg;base64,r2";
               op_get "data:image/jpeg;base64,image1" light [];
               op_wait 10;
               op_put "data:image/jpeg;base64,image3" light [] "data:image/jpeg;base64,r3"]).
  assert (Hmax : 1 <= maxCacheSize opts) by (cbn; lia).
  assert (Hfull : OMap.size (requestCache (stateAfter (runCacheOps opts ops) (newService 1000)))
                  = maxCacheSize opts) by (vm_compute; reflexivity).
  assert (Hkeys : map fst (requestCache (stateAfter (runCacheOps opts ops) (newService 1000)))
                  = [requestKeyOf "data:image/jpeg;base64,image2" heavy [];
                     requestKeyOf "data:image/jpeg;base64,image3" light []])
    by (vm_compute; reflexivity).
  destruct (cache_stays_within_its_capacity opts ops 1000 Hmax) as (Hsize & Hvalid & Hput & _).
  split; [exact Hmax|]. split; [exact Hfull|]. split; [exact Hkeys|].
  split; [exact Hsize|]. split; [exact Hvalid|]. split.
  - cbv zeta.
    apply (Hput "data:image/jpeg;base64,image4" light [] "data:image/jpeg;base64,r4").
    rewrite Hfull. lia.
  - vm_compute. reflexivity.
Defined.

(** C6, counterexample. With a configured capacity of 0 the eviction step
    finds nothing to remove and the entry is stored all the same: the cache
    then holds one entry. *)
Lemma capacity_zero_is_exceeded : ~ neverExceedsCapacity.
Proof.
  intros H.
  specialize (H {| enableRetry := true; enableCache := true; maxCacheSize := 0 |}
                [op_put "data:image/jpeg;base64,test" light [] "data:image/jpeg;base64,result"]
                0).
  vm_compute in H. apply H. reflexivity.
Qed.

(** ** Batches *)

Lemma batchTransformImages_loop_run env rest i total results calls s :
  exists s',
    batchTransformImages_loop env rest i total results calls s
    = (Return (results ++ map slotFor (elementOutcomes env rest s),
               calls ++ map (fun j => (i + Z.of_nat j, total)) (seq 1 (List.length rest))),
       s').
Proof.
  revert i results calls s.
  induction rest as [|image rest IH]; intros i results calls s.
  - exists s. cbn. now rewrite !app_nil_r.
  - cbn [batchTransformImages_loop elementOutcomes].
    unfold bind at 1, settled at 1.
    destruct (transformImage env (data image) (type image)
                (default [] (batch_options image)) s) as [o s1].
    destruct (IH (i + 1)
                (match o with
                 | Return r => results ++ [r]
                 | Throw _ => results ++ [EmptyString]
                 end)
                (calls ++ [(i + 1, total)]) s1) as [s' Hrun].
    exists s'. rewrite Hrun. do 3 f_equal.
    + cbn [map]. destruct o; cbn [slotFor]; now rewrite <- app_assoc.
    + cbn [List.length seq map]. rewrite <- app_assoc. cbn [app]. f_equal. f_equal.
      rewrite <- (List.seq_shift (List.length rest) 1), List.map_map.
      apply List.map_ext. intros j. f_equal. lia.
Qed.

(** C10. For every list of images [batchTransformImages] returns, and never
    throws; the list it returns has the length of its input and holds, at
    each position, the transformed image when the transform of that element
    succeeded and the empty string when it threw; every element is
    processed, and the progress callback is called once after each. *)
Theorem batch_keeps_length_and_order env images s :
  exists results calls s',
    batchTransformImages env images s = (Return (results, calls), s')
    /\ List.length results = List.length images
    /\ List.length (elementOutcomes env images s) = List.length images
    /\ (forall i o, elementOutcomes env images s !! i = Some o ->
                    results !! i = Some (slotFor o))
    /\ calls = map (fun j => (Z.of_nat j, Z.of_nat (List.length images)))
                   (seq 1 (List.length images)).
Proof.
  destruct (batchTransformImages_loop_run env images 0
              (Z.of_nat (List.length images)) [] [] s) as [s' Hrun].
  assert (Hlen : forall l st, List.length (elementOutcomes env l st) = List.length l).
  { induction l as [|x l IH]; intros st; [reflexivity|].
    cbn [elementOutcomes]. destruct (transformImage _ _ _ _ _). cbn. now rewrite IH. }
  eexists _, _, s'. split; [exact Hrun|]. cbn [app].
  split; [now rewrite length_map|]. split; [apply Hlen|]. split.
  - intros i o Hi. rewrite list_lookup_fmap, Hi. reflexivity.
  - apply map_ext. intros j. f_equal.
Qed.

Example batch_of_the_unit_test :
  fst (batchTransformImages
         {| config := testConfig; serviceOptions := defaultOptions;
            fetch := fun k _ _ =>
                       if (k =? 0)%nat then httpSuccess "success"
                       else FetchRejected (ErrorInstance false "Error" "Failed");
            elapsed := fun _ => 0; pending := fun _ => Throw Undefined |}
         [ {| data := "data:image/jpeg;base64,test1"; type := light; batch_options := None |};
           {| data := "data:image/jpeg;base64,test2"; type := heavy; batch_options := None |} ]
         (newService 0))
  = Return (["data:image/jpeg;base64,success"; EmptyString], [(1, 2); (2, 2)]).
Proof. vm_compute. reflexivity. Qed.

(** ** Rules for [post] and [steps] *)

Section Rules.
Context {S : Type}.
Implicit Types (s : S).

Lemma post_ret {A} (a : A) (Q : A -> S -> Prop) E s : Q a s -> post (ret a) Q E s.
Proof. trivial. Qed.

Lemma post_throw {A} e (Q : A -> S -> Prop) (E : JsValue -> S -> Prop) s :
  E e s -> post (throw e) Q E s.
Proof. trivial. Qed.

Lemma post_gets {A} (f : S -> A) (Q : A -> S -> Prop) E s : Q (f s) s -> post (gets f) Q E s.
Proof. trivial. Qed.

Lemma post_modify (f : S -> S) (Q : unit -> S -> Prop) E s :
  Q tt (f s) -> post (modify f) Q E s.
Proof. trivial. Qed.

Lemma post_await {A} (o : Outcome A) (Q : A -> S -> Prop) (E : JsValue -> S -> Prop) s :
  match o with Return a => Q a s | Throw e => E e s end -> post (await o) Q E s.
Proof. unfold post, await. now destruct o. Qed.

Lemma post_bind {A B} (c : M S A) (k : A -> M S B) (Q : B -> S -> Prop) E s :
  post c (fun a s' => post (k a) Q E s') E s -> post (bind c k) Q E s.
Proof. unfold post, bind. now destruct (c s) as [[a|e] s']. Qed.

Lemma post_tryCatch {A} (c : M S A) h (Q : A -> S -> Prop) E s :
  post c Q (fun e s' => post (h e) Q E s') s -> post (tryCatch c h) Q E s.
Proof. unfold post, tryCatch. now destruct (c s) as [[a|e] s']. Qed.

Lemma post_settled {A} (c : M S A) (Q : Outcome A -> S -> Prop) E s :
  post c (fun a s' => Q (Return a) s') (fun e s' => Q (Throw e) s') s ->
  post (settled c) Q E s.
Proof. unfold post, settled. now destruct (c s) as [[a|e] s']. Qed.

Lemma post_tryFinally {A} (c : M S A) (f : M S unit) (Q : A -> S -> Prop) E s :
  post c (fun a s' => post f (fun _ s'' => Q a s'') E s')
         (fun e s' => post f (fun _ s'' => E e s'') E s') s ->
  post (tryFinally c f) Q E s.
Proof.
  unfold post, tryFinally. destruct (c s) as [[a|e] s']; destruct (f s') as [[[]|e'] s'']; trivial.
Qed.

Lemma post_weaken {A} (c : M S A) (Q Q' : A -> S -> Prop) (E E' : JsValue -> S -> Prop) s :
  post c Q E s ->
  (forall a s', Q a s' -> Q' a s') -> (forall e s', E e s' -> E' e s') ->
  post c Q' E' s.
Proof. unfold post. destruct (c s) as [[a|e] s']; auto. Qed.

Lemma post_steps {A} (R : S -> S -> Prop) (c : M S A) (Q : A -> S -> Prop) E s :
  steps R c ->
  (forall a s', R s s' -> Q a s') -> (forall e s', R s s' -> E e s') ->
  post c Q E s.
Proof.
  intros Hc HQ HE. unfold post. specialize (Hc s).
  destruct (c s) as [[a|e] s']; cbn in Hc; auto.
Qed.

Lemma post_outcome {A} (c : M S A) (Q : A -> S -> Prop) E s o s' :
  c s = (o, s') -> post c Q E s ->
  match o with Return a => Q a s' | Throw e => E e s' end.
Proof. unfold post. now intros ->. Qed.

Context (R : S -> S -> Prop) (R_refl : forall s, R s s)
        (R_trans : forall s1 s2 s3, R s1 s2 -> R s2 s3 -> R s1 s3).

Lemma steps_ret {A} (a : A) : steps R (ret a).
Proof. intros s. apply R_refl. Qed.

Lemma steps_throw {A} e : steps R (@throw S A e).
Proof. intros s. apply R_refl. Qed.

Lemma steps_gets {A} (f : S -> A) : steps R (gets f).
Proof. intros s. apply R_refl. Qed.

Lemma steps_await {A} (o : Outcome A) : steps R (await o).
Proof. intros s. apply R_refl. Qed.

Lemma steps_modify (f : S -> S) : (forall s, R s (f s)) -> steps R (modify f).
Proof. intros H s. apply H. Qed.

Lemma steps_bind {A B} (c : M S A) (k : A -> M S B) :
  steps R c -> (forall a, steps R (k a)) -> steps R (bind c k).
Proof.
  intros Hc Hk s. unfold bind. specialize (Hc s).
  destruct (c s) as [[a|e] s']; cbn in *; [|assumption].
  eapply R_trans; [eassumption | apply Hk].
Qed.

Lemma steps_tryCatch {A} (c : M S A) h :
  steps R c -> (forall e, steps R (h e)) -> steps R (tryCatch c h).
Proof.
  intros Hc Hh s. unfold tryCatch. specialize (Hc s).
  destruct (c s) as [[a|e] s']; cbn in *; [assumption|].
  eapply R_trans; [eassumption | apply Hh].
Qed.

Lemma steps_tryFinally {A} (c : M S A) (f : M S unit) :
  steps R c -> steps R f -> steps R (tryFinally c f).
Proof.
  intros Hc Hf s. unfold tryFinally. specialize (Hc s).
  destruct (c s) as [o s']. specialize (Hf s').
  destruct (f s') as [[[]|e] s'']; cbn in *; eapply R_trans; eassumption.
Qed.

Lemma steps_settled {A} (c : M S A) : steps R c -> steps R (settled c).
Proof. intros Hc s. unfold settled. specialize (Hc s). now destruct (c s). Qed.
End Rules.

(** ** What the steps of a transform leave alone *)

Section ManagerFrames.
Import ImageTransformManager.

Lemma sameStore_refl m : sameStore m m.
Proof. now repeat split. Qed.

Lemma sameStore_trans m1 m2 m3 : sameStore m1 m2 -> sameStore m2 m3 -> sameStore m1 m3.
Proof. unfold sameStore. intros (-> & -> & -> & ->) (-> & -> & -> & ->). now repeat split. Qed.

Lemma quietly_refl m : quietly m m.
Proof. split; [apply sameStore_refl | now repeat split]. Qed.

Lemma quietly_trans m1 m2 m3 : quietly m1 m2 -> quietly m2 m3 -> quietly m1 m3.
Proof.
  intros (H1 & Hf1 & Hc1 & Ha1 & Hs1) (H2 & Hf2 & Hc2 & Ha2 & Hs2).
  split; [eapply sameStore_trans; eassumption|].
  rewrite Hf2, Hc2, Ha2, Hs2. now repeat split.
Qed.

Lemma quietly_sameStore m m' : quietly m m' -> sameStore m m'.
Proof. now intros [H _]. Qed.

Lemma steps_weaken {S A} (R R' : S -> S -> Prop) (c : M S A) :
  (forall s s', R s s' -> R' s s') -> steps R c -> steps R' c.
Proof. intros H Hc s. apply H, Hc. Qed.

Lemma Date_now_quietly : steps quietly Date_now.
Proof. intros m. now repeat split. Qed.

Lemma sleep_quietly ms : steps quietly (sleep ms).
Proof. intros m. now repeat split. Qed.

Lemma createError_quietly type msg details : steps quietly (createError type msg details).
Proof.
  unfold createError. apply (steps_bind _ quietly_trans); [apply Date_now_quietly|].
  intros t. apply (steps_ret _ quietly_refl).
Qed.

Lemma updateProgress_quietly phase progress : steps quietly (updateProgress phase progress).
Proof. intros m. now repeat split. Qed.

Lemma checkAborted_quietly : steps quietly checkAborted.
Proof.
  unfold checkAborted. apply (steps_bind _ quietly_trans); [apply (steps_gets _ quietly_refl)|].
  intros [[|]|]; try apply (steps_ret _ quietly_refl).
  apply (steps_bind _ quietly_trans); [apply createError_quietly|].
  intros e. apply (steps_throw _ quietly_refl).
Qed.

Lemma simulateUploadProgress_quietly : steps quietly simulateUploadProgress.
Proof.
  unfold simulateUploadProgress. generalize 1. generalize 5%nat.
  induction n as [|n IH]; intros i; cbn [simulateUploadProgress_loop].
  - apply (steps_ret _ quietly_refl).
  - cbv zeta.
    apply (steps_bind _ quietly_trans); [apply checkAborted_quietly | intros _].
    apply (steps_bind _ quietly_trans); [apply updateProgress_quietly | intros _].
    apply (steps_bind _ quietly_trans); [apply sleep_quietly | intros _].
    apply IH.
Qed.

Lemma createImageFromBase64_quietly env base64 : steps quietly (createImageFromBase64 env base64).
Proof.
  unfold createImageFromBase64. destruct (loads env base64).
  - apply (steps_ret _ quietly_refl).
  - apply (steps_bind _ quietly_trans); [apply createError_quietly|].
    intros e. apply (steps_throw _ quietly_refl).
Qed.

Lemma onService_sameStore {A} (c : M APIService.Service A) : steps sameStore (onService c).
Proof.
  intros m. unfold onService, zoom. destruct (c (apiService m)) as [o s']. now repeat split.
Qed.

Lemma performTransform_giveUp_quietly lastError : steps quietly (performTransform_giveUp lastError).
Proof.
  destruct lastError as [e|]; cbn.
  - apply (steps_throw _ quietly_refl).
  - apply (steps_bind _ quietly_trans); [apply createError_quietly|].
    intros e. apply (steps_throw _ quietly_refl).
Qed.

Lemma performTransform_sameStore env imageBase64 transformType :
  steps sameStore (performTransform env imageBase64 transformType).
Proof.
  unfold performTransform. generalize (@None JsValue). generalize 1.
  induction (Z.to_nat (maxTransformAttempts env)) as [|n IH]; intros attempt lastError;
    cbn [performTransform_loop].
  - eapply steps_weaken; [apply quietly_sameStore | apply performTransform_giveUp_quietly].
  - apply (steps_bind _ sameStore_trans).
    + apply steps_settled, (steps_bind _ sameStore_trans).
      * eapply steps_weaken; [apply quietly_sameStore | apply updateProgress_quietly].
      * intros _. apply onService_sameStore.
    + intros [image|e]; [apply (steps_ret _ sameStore_refl)|].
      apply (steps_bind _ sameStore_trans); [|intros _; apply IH].
      eapply steps_weaken; [apply quietly_sameStore|].
      destruct (attempt <? maxTransformAttempts env); [|apply (steps_ret _ quietly_refl)].
      cbv zeta.
      apply (steps_bind _ quietly_trans); [apply updateProgress_quietly | intros _].
      apply (steps_bind _ quietly_trans); [apply sleep_quietly | intros _].
      apply checkAborted_quietly.
Qed.

End ManagerFrames.

(** ** The history *)

Section History.
Import ImageTransformManager.

Lemma sameHistory_refl m : sameHistory m m.
Proof. now split. Qed.

Lemma sameHistory_trans m1 m2 m3 : sameHistory m1 m2 -> sameHistory m2 m3 -> sameHistory m1 m3.
Proof. unfold sameHistory. intros [-> ->] [-> ->]. now split. Qed.

Lemma sameStore_sameHistory m m' : sameStore m m' -> sameHistory m m'.
Proof. intros (? & ? & _). now split. Qed.

Lemma quietly_sameHistory m m' : quietly m m' -> sameHistory m m'.
Proof. intros [H _]. now apply sameStore_sameHistory. Qed.

Lemma sameHistory_history m m' : sameHistory m m' -> history m' = history m.
Proof. unfold history. now intros [-> ->]. Qed.

(** A step that leaves the history alone, in the middle of a run that has
    left it alone since [m0]. *)
Lemma post_frame {A} (c : M Manager A) (Q : A -> Manager -> Prop) E m0 m :
  steps sameHistory c ->
  sameHistory m0 m ->
  (forall a m', sameHistory m0 m' -> Q a m') ->
  (forall e m', sameHistory m0 m' -> E e m') ->
  post c Q E m.
Proof.
  intros Hc H0 HQ HE. apply (post_steps sameHistory); [assumption| |];
    intros x m' Hm'; [apply HQ | apply HE]; eapply sameHistory_trans; eassumption.
Qed.

Lemma quiet_frame {A} (c : M Manager A) : steps quietly c -> steps sameHistory c.
Proof. apply steps_weaken, quietly_sameHistory. Qed.

Lemma store_frame {A} (c : M Manager A) : steps sameStore c -> steps sameHistory c.
Proof. apply steps_weaken, sameStore_sameHistory. Qed.

Lemma post_Date_now (Q : Z -> Manager -> Prop) E m :
  Q (now (apiService m)) (with_apiService (fun _ => apiService m) m) ->
  post Date_now Q E m.
Proof. trivial. Qed.

Lemma pushHistory_run r m :
  exists m', pushHistory r m = (Return tt, m')
             /\ history m' = history m ++ [r]
             /\ transformHistory (state m') = transformHistory (state m)
             /\ isTransforming (state m') = isTransforming (state m).
Proof.
  eexists. split; [reflexivity|]. cbn. split; [|now split].
  unfold history, push, contents. cbn. now rewrite lookup_insert_eq.
Qed.

(** What one run of the [try] block does to the history. *)
Lemma transformImage_try_history env sourceImage transformType startTime m0 m :
  sameHistory m0 m ->
  post (transformImage_try env sourceImage transformType startTime)
    (fun r m' =>
       history m' = history m0 ++ [r]
       /\ transformHistory (state m') = transformHistory (state m0)
       /\ success r = true
       /\ ImageTransformManager.transformType r = transformType
       /\ originalImage r = Some sourceImage)
    (fun _ m' => sameHistory m0 m')
    m.
Proof.
  intros H0. unfold transformImage_try.
  apply post_bind, post_modify.
  assert (H1 : sameHistory m0
                 (with_state (fun st => set_failedAttempts 0 (set_progress 0
                    (set_currentPhase preparing (set_isTransforming true st)))) m))
    by (destruct H0; now split).
  revert H1. generalize (with_state (fun st => set_failedAttempts 0 (set_progress 0
                    (set_currentPhase preparing (set_isTransforming true st)))) m).
  clear m H0. intros m H0.
  apply post_bind, (post_frame _ _ _ m0); trivial;
    [apply quiet_frame, updateProgress_quietly|]. clear m H0. intros _ m H0.
  apply post_bind, (post_frame _ _ _ m0); trivial;
    [apply (steps_await _ sameHistory_refl)|]. clear m H0. intros imageBase64 m H0.
  apply post_bind, (post_frame _ _ _ m0); trivial;
    [apply quiet_frame, checkAborted_quietly|]. clear m H0. intros _ m H0.
  apply post_bind, (post_frame _ _ _ m0); trivial;
    [apply quiet_frame, updateProgress_quietly|]. clear m H0. intros _ m H0.
  apply post_bind, (post_frame _ _ _ m0); trivial;
    [apply quiet_frame, simulateUploadProgress_quietly|]. clear m H0. intros _ m H0.
  apply post_bind, (post_frame _ _ _ m0); trivial;
    [apply quiet_frame, checkAborted_quietly|]. clear m H0. intros _ m H0.
  apply post_bind, (post_frame _ _ _ m0); trivial;
    [apply quiet_frame, updateProgress_quietly|]. clear m H0. intros _ m H0.
  apply post_bind, (post_frame _ _ _ m0); trivial;
    [apply store_frame, performTransform_sameStore|]. clear m H0. intros transformed m H0.
  apply post_bind, (post_frame _ _ _ m0); trivial;
    [apply quiet_frame, checkAborted_quietly|]. clear m H0. intros _ m H0.
  apply post_bind, (post_frame _ _ _ m0); trivial;
    [apply quiet_frame, updateProgress_quietly|]. clear m H0. intros _ m H0.
  apply post_bind, (post_frame _ _ _ m0); trivial;
    [apply quiet_frame, createImageFromBase64_quietly|]. clear m H0. intros image m H0.
  apply post_bind, (post_frame _ _ _ m0); trivial;
    [apply quiet_frame, checkAborted_quietly|]. clear m H0. intros _ m H0.
  apply post_bind, (post_frame _ _ _ m0); trivial;
    [apply quiet_frame, updateProgress_quietly|]. clear m H0. intros _ m H0.
  apply post_bind, (post_frame _ _ _ m0); trivial;
    [apply quiet_frame, Date_now_quietly|]. clear m H0. intros t m H0.
  apply post_bind.
  destruct (pushHistory_run
              {| success := true; transformedImage := Some image;
                 originalImage := Some sourceImage;
                 ImageTransformManager.transformType := transformType;
                 processingTime := t - startTime; result_error := None |} m)
    as (m' & Hrun & Hh & Hl & _).
  unfold post at 1. rewrite Hrun.
  rewrite (sameHistory_history _ _ H0) in Hh. destruct H0 as [_ H0]. rewrite H0 in Hl.
  clear Hrun. revert Hh Hl. generalize m'. clear m m' H0. intros m Hh Hl.
  unfold post, bind, Date_now, onService, zoom, APIService.Date_now, gets, modify, ret. cbn.
  now repeat split.
Qed.

(** What one run of the [catch] block does to the history. *)
Lemma transformImage_catch_history sourceImage transformType startTime e m0 m :
  sameHistory m0 m ->
  post (transformImage_catch sourceImage transformType startTime e)
    (fun _ _ => False)
    (fun e' m' =>
       exists r,
         history m' = history m0 ++ [r]
         /\ transformHistory (state m') = transformHistory (state m0)
         /\ success r = false
         /\ result_error r = Some e'
         /\ ImageTransformManager.transformType r = transformType
         /\ originalImage r = Some sourceImage)
    m.
Proof.
  intros [Ha Hl]. unfold transformImage_catch, post.
  destruct (instanceofError e && hasType e);
    unfold createError, updateProgress, pushHistory, Date_now, onService, zoom,
           APIService.Date_now, bind, gets, modify, ret, throw; cbn;
    (eexists; split;
     [ unfold history, push, contents; cbn; rewrite lookup_insert_eq, Ha, Hl; reflexivity
     | split; [exact Hl | now repeat split] ]).
Qed.

(** C3, one transform. A call of [transformImage] on a manager that is
    not busy appends exactly one result to the history, the result it
    returns or the failure it throws, and leaves the manager not busy. *)
Lemma transformImage_appends_one_result env sourceImage transformType m :
  isTransforming (state m) = false ->
  post (transformImage env sourceImage transformType)
    (fun r m' =>
       history m' = history m ++ [r]
       /\ transformHistory (state m') = transformHistory (state m)
       /\ isTransforming (state m') = false
       /\ success r = true
       /\ ImageTransformManager.transformType r = transformType
       /\ originalImage r = Some sourceImage)
    (fun e m' =>
       exists r,
         history m' = history m ++ [r]
         /\ transformHistory (state m') = transformHistory (state m)
         /\ isTransforming (state m') = false
         /\ success r = false
         /\ result_error r = Some e
         /\ ImageTransformManager.transformType r = transformType
         /\ originalImage r = Some sourceImage)
    m.
Proof.
  intros Hidle. unfold transformImage.
  apply post_bind, post_gets. rewrite Hidle.
  apply post_bind, post_Date_now.
  apply post_bind, post_modify.
  assert (H1 : sameHistory m
                 (with_abortController (fun _ => Some false)
                    (with_apiService (fun _ => apiService m) m))) by now split.
  revert H1.
  generalize (with_abortController (fun _ => Some false)
                (with_apiService (fun _ => apiService m) m)).
  intros m1 H1.
  apply post_tryFinally, post_tryCatch.
  eapply post_weaken; [apply (transformImage_try_history _ _ _ _ m m1 H1)| |].
  - intros r m' (Hh & Hl & Hs & Ht & Ho). unfold transformImage_finally, post, bind, modify.
    cbn. repeat split; trivial.
  - intros e m' Hm'.
    eapply post_weaken; [apply (transformImage_catch_history _ _ _ e m m' Hm')| |].
    + intros _ _ [].
    + intros e' m'' (r & Hh & Hl & Hs & He & Ht & Ho).
      unfold transformImage_finally, post, bind, modify. cbn.
      exists r. repeat split; trivial.
Qed.


Lemma getTransformHistory_run m :
  exists l m',
    getTransformHistory m = (Return l, m')
    /\ contents (arrays m') l = history m
    /\ l = newLocation (arrays m)
    /\ arrays m' = <[l := history m]> (arrays m)
    /\ state m' = state m.
Proof.
  unfold getTransformHistory. run. eexists _, _. split; [reflexivity|]. cbn.
  split; [|now repeat split]. unfold contents at 1. now rewrite lookup_insert_eq.
Qed.




Example history_after_three_transforms :
  List.length (history (stateAfter
                  (transforms (testManagerEnv (httpSuccess "transformed"))
                     [(photo, light); (photo, heavy); (photo, light)])
                  (newManager (newService 0))))
  = 3%nat.
Proof. vm_compute. reflexivity. Qed.

(** ** Snapshots *)

(** C9, the failing input evaluated. The object [getState] returns is new,
    but its [transformHistory] is the manager's own array: a [push] on it
    by the consumer is a [push] on the history of the manager. *)
Theorem getState_shares_the_history_array m r :
  exists snapshot m1,
    getState m = (Return snapshot, m1)
    /\ transformHistory snapshot = transformHistory (state m)
    /\ history m1 = history m
    /\ history (consumerPush (transformHistory snapshot) r m1) = history m ++ [r].
Proof.
  eexists _, m. split; [reflexivity|]. cbn. split; [reflexivity|]. split; [reflexivity|].
  unfold history, consumerPush, push, contents. cbn. now rewrite lookup_insert_eq.
Qed.

(** The sibling: the array [getTransformHistory] returns is a copy, and a
    [push] on it leaves the history of the manager as it was. *)
Lemma getTransformHistory_returns_a_copy m r :
  is_Some (arrays m !! transformHistory (state m)) ->
  exists l m1,
    getTransformHistory m = (Return l, m1)
    /\ l <> transformHistory (state m)
    /\ contents (arrays m1) l = history m
    /\ history m1 = history m
    /\ history (consumerPush l r m1) = history m.
Proof.
  intros Hsome.
  destruct (getTransformHistory_run m) as (l & m1 & Hrun & Hc & Hl & Ha & Hs).
  exists l, m1. split; [assumption|].
  assert (Hne : l <> transformHistory (state m)).
  { intros Heq. rewrite Hl in Heq. apply elem_of_dom in Hsome.
    rewrite <- Heq in Hsome. exact (is_fresh (dom (arrays m)) Hsome). }
  split; [assumption|]. split; [assumption|].
  unfold history, consumerPush, push, contents. cbn. rewrite Hs, Ha.
  split; now rewrite ?lookup_insert_ne by assumption.
Qed.

Example consumer_changes_the_history :
  let m := newManager (newService 0) in
  let r := {| success := true; transformedImage := None; originalImage := None;
              ImageTransformManager.transformType := heavy; processingTime := 0;
              result_error := None |} in
  match getState m with
  | (Return snapshot, m1) =>
      history m1 = [] /\ history (consumerPush (transformHistory snapshot) r m1) = [r]
  | _ => False
  end.
Proof. vm_compute. split; reflexivity. Qed.

End History.

(** ** A network that always fails with a server error *)

Lemma status_500_is_server_error status :
  500 <= status -> getErrorTypeFromStatus status = SERVER_ERROR.
Proof.
  intros H. unfold getErrorTypeFromStatus.
  replace (status =? 401) with false by lia. replace (status =? 403) with false by lia.
  replace (status =? 429) with false by lia. replace (status <? 500) with false by lia.
  replace (500 <=? status) with true by lia. now rewrite andb_false_r.
Qed.

Lemma attempt_server_error env request requestId attempt s :
  isServerError (fetch env (fetches s) requestId request) ->
  exists msg details t,
    performTransformation_attempt env request requestId attempt s
    = (Throw (APIError SERVER_ERROR msg details t), afterFetch env s).
Proof.
  intros H. destruct (fetch env (fetches s) requestId request) as [|r] eqn:Hf; [easy|].
  cbn in H. destruct (ok r) eqn:Hok.
  - destruct (resp_json r) as [|parsed] eqn:Hj; [easy|].
    unfold performTransformation_attempt.
    erewrite bind_Return by (eapply makeAPIRequest_parsed; eassumption).
    unfold announcesImage in H.
    destruct (success parsed); [|do 3 eexists; reflexivity].
    destruct (data_image parsed) as [image|]; [|do 3 eexists; reflexivity].
    cbn in H. rewrite H. do 3 eexists; reflexivity.
  - rewrite (attempt_not_ok _ _ _ _ _ _ Hf Hok), (status_500_is_server_error _ H).
    do 3 eexists; reflexivity.
Qed.

(** The retry loop against such a network: every remaining iteration makes
    its exchange, and the loop ends by throwing. *)
Lemma loop_exhausts_its_attempts env request requestId maxRetries :
  alwaysServerError env ->
  forall remaining attempt lastError s,
    attempt + Z.of_nat remaining = maxRetries + 1 ->
    exists e s',
      performTransformation_loop env request requestId maxRetries
        remaining attempt lastError s = (Throw e, s')
      /\ fetches s' = (fetches s + remaining)%nat
      /\ requestCache s' = requestCache s
      /\ activeRequests s' = activeRequests s
      /\ started s' = started s
      /\ requestIdCounter s' = requestIdCounter s.
Proof.
  intros Hnet. induction remaining as [|remaining IH]; intros attempt lastError s Hrel.
  - cbn [performTransformation_loop]. destruct lastError as [e|]; cbn.
    + exists e, s. now rewrite Nat.add_0_r.
    + eexists _, s. unfold createAPIError, Date_now. run. now rewrite Nat.add_0_r.
  - cbn [performTransformation_loop].
    destruct (attempt_server_error env request requestId attempt s (Hnet _ _ _))
      as (msg & details & t & Hrun).
    erewrite bind_Return by (apply settled_run; exact Hrun).
    change (isRetryableError (APIError SERVER_ERROR msg details t)) with true.
    cbn [negb]. rewrite orb_false_r.
    destruct (attempt =? maxRetries) eqn:Hlast.
    + assert (remaining = O) by lia. subst remaining.
      cbn. eexists _, _. split; [reflexivity|]. cbn. repeat split. lia.
    + unfold bind at 1, sleep at 1, modify at 1.
      destruct (IH (attempt + 1) (Some (APIError SERVER_ERROR msg details t))
                  (with_slept (fun l => l ++ [calculateRetryDelay attempt])
                     (with_now (fun t0 => t0 + Z.max 0 (calculateRetryDelay attempt))
                        (afterFetch env s))))
        as (e & s' & Hloop & Hf & Hc & Ha & Hs & Hi); [lia|].
      exists e, s'. split; [exact Hloop|]. rewrite Hf, Hc, Ha, Hs, Hi. cbn.
      repeat split. lia.
Qed.

Lemma performTransformation_exhausts env imageBase64 transformType options requestId s :
  alwaysServerError env ->
  exists e s',
    performTransformation env imageBase64 transformType options requestId s = (Throw e, s')
    /\ fetches s' = (fetches s + Z.to_nat (maxRetriesOf env))%nat
    /\ requestCache s' = requestCache s
    /\ activeRequests s' = activeRequests s
    /\ started s' = started s
    /\ requestIdCounter s' = requestIdCounter s.
Proof.
  intros Hnet. unfold performTransformation. cbv zeta.
  destruct (Z_le_gt_dec 0 (maxRetriesOf env)) as [Hpos|Hneg].
  - apply loop_exhausts_its_attempts; [assumption | lia].
  - replace (Z.to_nat (maxRetriesOf env)) with O by lia.
    cbn. unfold createAPIError, Date_now. run. eexists _, s. now rewrite Nat.add_0_r.
Qed.

Lemma transformImage_enter_fresh env imageBase64 transformType options s :
  Js.truthy (apiKey (config env)) = true ->
  freshRequest env (requestKeyOf imageBase64 transformType options) s ->
  transformImage_enter env imageBase64 transformType options s
  = (Return (Start ("transform_" ++ Js.toString 10 (Z.succ (requestIdCounter s)))%string
               (requestKeyOf imageBase64 transformType options) (started s)),
     with_activeRequests <[requestKeyOf imageBase64 transformType options := started s]>
       (with_started S (with_requestIdCounter Z.succ s))).
Proof.
  intros Hkey [Hactive Hcache]. unfold transformImage_enter. rewrite Hkey. cbn [negb].
  unfold requestKeyOf in *.
  unfold bind at 1, modify at 1. unfold bind at 1, gets at 1.
  assert (Hmiss :
    (if enableCache (serviceOptions env)
     then getCachedResult imageBase64 (transformTypeName transformType) options
     else ret None) (with_requestIdCounter Z.succ s)
    = (Return None, with_requestIdCounter Z.succ s)).
  { destruct Hcache as [-> | Hnone]; [reflexivity|].
    destruct (enableCache (serviceOptions env)); [|reflexivity].
    now apply getCachedResult_absent. }
  rewrite (bind_Return _ _ _ _ _ Hmiss). cbn [truthyString].
  unfold bind, gets, modify, ret. cbn. now rewrite Hactive.
Qed.

(** A call of the service for a fresh request, against a network that
    always fails with a server error: it makes [maxRetries] exchanges and
    throws, and the request is fresh again. *)
Lemma service_call_exhausts env imageBase64 transformType options s :
  alwaysServerError env ->
  Js.truthy (apiKey (config env)) = true ->
  freshRequest env (requestKeyOf imageBase64 transformType options) s ->
  exists e s',
    transformImage env imageBase64 transformType options s = (Throw e, s')
    /\ fetches s' = (fetches s + Z.to_nat (maxRetriesOf env))%nat
    /\ started s' = S (started s)
    /\ freshRequest env (requestKeyOf imageBase64 transformType options) s'.
Proof.
  intros Hnet Hkey Hfresh. unfold transformImage.
  rewrite (bind_Return _ _ _ _ _ (transformImage_enter_fresh _ _ _ _ _ Hkey Hfresh)).
  set (rid := ("transform_" ++ Js.toString 10 (Z.succ (requestIdCounter s)))%string).
  set (k := requestKeyOf imageBase64 transformType options) in *.
  set (s1 := with_activeRequests <[k := started s]>
               (with_started S (with_requestIdCounter Z.succ s))).
  destruct (performTransformation_exhausts env imageBase64 transformType options rid s1 Hnet)
    as (e & s2 & Hrun & Hf & Hc & Ha & Hs & _).
  rewrite (bind_Return _ _ _ _ _ (settled_run _ _ _ _ Hrun)).
  unfold transformImage_owner, transformImage_awaitOwn, transformImage_rethrow,
    tryCatch, tryFinally, await, bind, modify, createAPIError, Date_now, gets, ret, throw.
  destruct Hfresh as [Hactive Hcache].
  assert (Hdel : delete k (activeRequests s2) = activeRequests s).
  { rewrite Ha. cbn. rewrite delete_insert_eq. now apply delete_id. }
  destruct (instanceofError e && hasType e); cbn;
    (eexists _, _; split; [reflexivity|]; cbn; rewrite Hf, Hs; cbn;
     split; [reflexivity|]; split; [reflexivity|];
     split; cbn; [now rewrite Hdel | now rewrite Hc]).
Qed.

(** ** The orchestrator against a network that always fails *)

Section RetryBound.
Import ImageTransformManager.

Lemma returnsQuietly_bind {A B} (c : M Manager A) (k : A -> M Manager B) :
  returnsQuietly c -> (forall a, returnsQuietly (k a)) -> returnsQuietly (bind c k).
Proof.
  intros Hc Hk m Hm. apply post_bind. eapply post_weaken; [apply Hc, Hm| |trivial].
  intros a m1 Hq. cbv beta.
  assert (Hm1 : abortController m1 = Some false).
  { destruct Hq as [(_ & _ & _ & ->) _]. exact Hm. }
  eapply post_weaken; [apply Hk, Hm1| |trivial].
  intros b m2 Hq2. cbv beta in *. exact (quietly_trans _ _ _ Hq Hq2).
Qed.

Lemma updateProgress_returns phase progress : returnsQuietly (updateProgress phase progress).
Proof. intros m Hm. unfold post, updateProgress, bind, modify, gets. cbn. now repeat split. Qed.

Lemma updateProgress_run phase progress m :
  exists m', updateProgress phase progress m = (Return tt, m') /\ quietly m m'.
Proof. eexists. split; [reflexivity|]. now repeat split. Qed.

Lemma sleep_returns ms : returnsQuietly (sleep ms).
Proof.
  intros m Hm. unfold post, sleep, onService, zoom, APIService.sleep, modify. cbn.
  now repeat split.
Qed.

Lemma checkAborted_returns : returnsQuietly checkAborted.
Proof.
  intros m Hm. unfold post, checkAborted, bind, gets. cbn. rewrite Hm. cbn.
  apply quietly_refl.
Qed.

Lemma simulateUploadProgress_returns : returnsQuietly simulateUploadProgress.
Proof.
  unfold simulateUploadProgress. generalize 1. generalize 5%nat.
  induction n as [|n IH]; intros i; cbn [simulateUploadProgress_loop].
  - intros m Hm. apply quietly_refl.
  - cbv zeta.
    apply returnsQuietly_bind; [apply checkAborted_returns | intros _].
    apply returnsQuietly_bind; [apply updateProgress_returns | intros _].
    apply returnsQuietly_bind; [apply sleep_returns | intros _].
    apply IH.
Qed.

(** A step that returns quietly, in the middle of a run that has been
    quiet since [m0]. *)
Lemma post_quiet {A} (c : M Manager A) (Q : A -> Manager -> Prop) E m0 m :
  returnsQuietly c ->
  abortController m0 = Some false ->
  quietly m0 m ->
  (forall a m', quietly m0 m' -> Q a m') ->
  post c Q E m.
Proof.
  intros Hc H0 Hq HQ.
  assert (Hm : abortController m = Some false).
  { destruct Hq as [(_ & _ & _ & ->) _]. exact H0. }
  eapply post_weaken; [apply Hc, Hm| |intros e m' []].
  intros a m' Hq'. apply HQ. eapply quietly_trans; eassumption.
Qed.

Lemma fresh_quietly env key m m' :
  quietly m m' ->
  freshRequest env key (apiService m) -> freshRequest env key (apiService m').
Proof. intros (_ & _ & Hc & Ha & _) [H1 H2]. split; [now rewrite Ha | now rewrite Hc]. Qed.

(** The loop of [performTransform] against such a network: each remaining
    iteration is one call of the service, whatever the error, and the loop
    ends by throwing. *)
Lemma performTransform_loop_exhausts env imageBase64 transformType :
  alwaysServerError (api env) ->
  Js.truthy (apiKey (config (api env))) = true ->
  forall remaining attempt lastError m,
    abortController m = Some false ->
    freshRequest (api env)
      (requestKeyOf imageBase64 transformType (performTransform_options transformType))
      (apiService m) ->
    exists e m',
      performTransform_loop env imageBase64 transformType remaining attempt lastError m
      = (Throw e, m')
      /\ fetches (apiService m')
         = (fetches (apiService m) + remaining * Z.to_nat (maxRetriesOf (api env)))%nat
      /\ started (apiService m') = (started (apiService m) + remaining)%nat
      /\ sameStore m m'.
Proof.
  intros Hnet Hkey. induction remaining as [|remaining IH]; intros attempt lastError m Hm Hfresh.
  - cbn [performTransform_loop].
    pose proof (performTransform_giveUp_quietly lastError m) as Hq.
    destruct lastError as [e|]; cbn in *.
    + exists e, m. repeat split; lia.
    + eexists _, _. split; [reflexivity|]. cbn. repeat split; lia.
  - cbn [performTransform_loop].
    set (k := requestKeyOf imageBase64 transformType (performTransform_options transformType)) in *.
    (* the call of the service *)
    destruct (updateProgress_run processing (50 + (attempt - 1) * 10) m) as (m1 & Hup & Hq1).
    destruct (service_call_exhausts (api env) imageBase64 transformType
                (performTransform_options transformType) (apiService m1) Hnet Hkey
                (fresh_quietly _ _ _ _ Hq1 Hfresh))
      as (e & s2 & Hcall & Hf & Hs & Hfresh2).
    assert (Htry :
      settled (updateProgress processing (50 + (attempt - 1) * 10) ;;
               onService (APIService.transformImage (api env) imageBase64 transformType
                            (performTransform_options transformType))) m
      = (Return (Throw e), with_apiService (fun _ => s2) m1)).
    { apply settled_run. rewrite (bind_Return _ _ _ _ _ Hup).
      unfold onService, zoom. now rewrite Hcall. }
    rewrite (bind_Return _ _ _ _ _ Htry).
    set (m2 := with_apiService (fun _ => s2) m1) in *.
    assert (Hst2 : sameStore m m2).
    { destruct Hq1 as [(Ha & Hl & Hi & Hc) _]. now repeat split. }
    assert (Hm2 : abortController m2 = Some false).
    { destruct Hst2 as (_ & _ & _ & ->). exact Hm. }
    (* the pause before the next attempt *)
    assert (Hpause : returnsQuietly
              (if attempt <? maxTransformAttempts env
               then (let delay := Z.min (1000 * attempt) 5000 in
                     updateProgress processing (50 + attempt * 10) ;;
                     sleep delay ;; checkAborted)
               else ret tt)).
    { destruct (attempt <? maxTransformAttempts env).
      - cbv zeta.
        apply returnsQuietly_bind; [apply updateProgress_returns | intros _].
        apply returnsQuietly_bind; [apply sleep_returns | intros _].
        apply checkAborted_returns.
      - intros m0 Hm0. apply quietly_refl. }
    specialize (Hpause m2 Hm2). unfold post in Hpause.
    destruct ((if attempt <? maxTransformAttempts env
               then (let delay := Z.min (1000 * attempt) 5000 in
                     updateProgress processing (50 + attempt * 10) ;;
                     sleep delay ;; checkAborted)
               else ret tt) m2) as [[[]|e3] m3] eqn:Hp; [|easy].
    rewrite (bind_Return _ _ _ _ _ Hp).
    assert (Hm3 : abortController m3 = Some false).
    { destruct Hpause as [(_ & _ & _ & ->) _]. exact Hm2. }
    assert (Hfresh3 : freshRequest (api env) k (apiService m3)).
    { eapply fresh_quietly; [exact Hpause|]. subst m2. exact Hfresh2. }
    destruct (IH (attempt + 1) (Some e) m3 Hm3 Hfresh3) as (e' & m' & Hloop & Hf' & Hs' & Hst').
    exists e', m'. split; [exact Hloop|].
    destruct Hpause as (Hst3 & Hf3 & _ & _ & Hs3).
    rewrite Hf', Hs', Hf3, Hs3. subst m2. cbn [apiService with_apiService].
    rewrite Hf, Hs.
    destruct Hq1 as (_ & -> & _ & _ & ->).
    split; [lia|]. split; [lia|].
    eapply sameStore_trans; [|exact Hst'].
    eapply sameStore_trans; [exact Hst2 | exact Hst3].
Qed.

Lemma transformImage_try_exhausts env sourceImage transformType startTime imageBase64 m :
  alwaysServerError (api env) ->
  Js.truthy (apiKey (config (api env))) = true ->
  imageToBase64 env sourceImage = Return imageBase64 ->
  abortController m = Some false ->
  freshRequest (api env)
    (requestKeyOf imageBase64 transformType (performTransform_options transformType))
    (apiService m) ->
  post (transformImage_try env sourceImage transformType startTime)
    (fun _ _ => False)
    (fun _ m' =>
       fetches (apiService m')
       = (fetches (apiService m)
          + Z.to_nat (maxTransformAttempts env) * Z.to_nat (maxRetriesOf (api env)))%nat
       /\ started (apiService m')
          = (started (apiService m) + Z.to_nat (maxTransformAttempts env))%nat)
    m.
Proof.
  intros Hnet Hkey Hprep Hm Hfresh. unfold transformImage_try.
  apply post_bind, post_modify.
  set (m0 := with_state (fun st => set_failedAttempts 0 (set_progress 0
               (set_currentPhase preparing (set_isTransforming true st)))) m).
  assert (H0 : abortController m0 = Some false) by exact Hm.
  assert (Hq : quietly m0 m0) by apply quietly_refl.
  change (fetches (apiService m)) with (fetches (apiService m0)).
  change (started (apiService m)) with (started (apiService m0)).
  change (apiService m) with (apiService m0) in Hfresh.
  apply post_bind, (post_quiet _ _ _ m0 m0 (updateProgress_returns _ _) H0 Hq).
  clear Hq. intros _ m1 Hq.
  apply post_bind. unfold prepareImageForTransform. rewrite Hprep. apply post_await.
  apply post_bind, (post_quiet _ _ _ m0 m1 checkAborted_returns H0 Hq).
  clear m1 Hq. intros _ m1 Hq.
  apply post_bind, (post_quiet _ _ _ m0 m1 (updateProgress_returns _ _) H0 Hq).
  clear m1 Hq. intros _ m1 Hq.
  apply post_bind, (post_quiet _ _ _ m0 m1 simulateUploadProgress_returns H0 Hq).
  clear m1 Hq. intros _ m1 Hq.
  apply post_bind, (post_quiet _ _ _ m0 m1 checkAborted_returns H0 Hq).
  clear m1 Hq. intros _ m1 Hq.
  apply post_bind, (post_quiet _ _ _ m0 m1 (updateProgress_returns _ _) H0 Hq).
  clear m1 Hq. intros _ m1 Hq.
  apply post_bind.
  assert (Hm1 : abortController m1 = Some false).
  { destruct Hq as [(_ & _ & _ & ->) _]. exact H0. }
  destruct (performTransform_loop_exhausts env imageBase64 transformType Hnet Hkey
              (Z.to_nat (maxTransformAttempts env)) 1 None m1 Hm1
              (fresh_quietly _ _ _ _ Hq Hfresh))
    as (e & m' & Hrun & Hf & Hs & _).
  unfold post, performTransform. rewrite Hrun, Hf, Hs.
  destruct Hq as (_ & -> & _ & _ & ->). now split.
Qed.

Lemma transformImage_catch_run sourceImage transformType startTime e m :
  exists e' m',
    transformImage_catch sourceImage transformType startTime e m = (Throw e', m')
    /\ sameCounts m m'.
Proof.
  unfold transformImage_catch.
  destruct (instanceofError e && hasType e);
    unfold createError, updateProgress, pushHistory, Date_now, onService, zoom,
           APIService.Date_now, bind, gets, modify, ret, throw; cbn;
    (eexists _, _; split; [reflexivity | now split]).
Qed.

(** C1, as amended. Against a network that answers every exchange with a
    failure classified [SERVER_ERROR], one call of the orchestrator's
    [transformImage] for a request that is neither cached nor in flight
    calls the service [maxTransformAttempts] times, and each call makes
    [maxRetries] exchanges: [maxTransformAttempts * maxRetries] exchanges in
    all. The call then throws, having recorded exactly one failure result,
    which carries the error it throws, and the manager is no longer busy. *)
Theorem server_errors_exhaust_both_retry_loops
    env sourceImage transformType imageBase64 m :
  alwaysServerError (api env) ->
  Js.truthy (apiKey (config (api env))) = true ->
  imageToBase64 env sourceImage = Return imageBase64 ->
  isTransforming (state m) = false ->
  freshRequest (api env)
    (requestKeyOf imageBase64 transformType (performTransform_options transformType))
    (apiService m) ->
  exists e m' r,
    transformImage env sourceImage transformType m = (Throw e, m')
    /\ fetches (apiService m')
       = (fetches (apiService m)
          + Z.to_nat (maxTransformAttempts env) * Z.to_nat (maxRetriesOf (api env)))%nat
    /\ started (apiService m')
       = (started (apiService m) + Z.to_nat (maxTransformAttempts env))%nat
    /\ history m' = history m ++ [r]
    /\ success r = false
    /\ result_error r = Some e
    /\ isTransforming (state m') = false.
Proof.
  intros Hnet Hkey Hprep Hidle Hfresh.
  pose proof (transformImage_appends_one_result env sourceImage transformType m Hidle) as Hone.
  assert (Hrun : exists e m',
    transformImage env sourceImage transformType m = (Throw e, m')
    /\ fetches (apiService m')
       = (fetches (apiService m)
          + Z.to_nat (maxTransformAttempts env) * Z.to_nat (maxRetriesOf (api env)))%nat
    /\ started (apiService m')
       = (started (apiService m) + Z.to_nat (maxTransformAttempts env))%nat).
  { unfold transformImage.
    unfold bind at 1, gets at 1. rewrite Hidle.
    unfold bind at 1.
    change (Date_now m)
      with (Return (now (apiService m)), with_apiService (fun _ => apiService m) m).
    cbv iota beta. unfold bind at 1, modify at 1.
    set (m1 := with_abortController (fun _ => Some false)
                 (with_apiService (fun _ => apiService m) m)).
    pose proof (transformImage_try_exhausts env sourceImage transformType
                  (now (apiService m)) imageBase64 m1 Hnet Hkey Hprep eq_refl Hfresh) as Htry.
    unfold post in Htry. unfold tryFinally, tryCatch.
    destruct (transformImage_try env sourceImage transformType (now (apiService m)) m1)
      as [[r|e] m2]; [easy|].
    destruct (transformImage_catch_run sourceImage transformType (now (apiService m)) e m2)
      as (e' & m3 & Hcatch & Hf3 & Hs3).
    rewrite Hcatch. cbn. eexists _, _. split; [reflexivity|]. cbn.
    rewrite Hf3, Hs3. exact Htry. }
  destruct Hrun as (e & m' & Hrun & Hf & Hs).
  unfold post in Hone. rewrite Hrun in Hone.
  destruct Hone as (r & Hh & _ & Hidle' & Hfail & Herr & _).
  exists e, m', r. now repeat split.
Qed.

Lemma server_errors_exhaust_both_retry_loops_witness :
  alwaysServerError (api (testManagerEnv (httpFailure 500 "Internal Server Error")))
  /\ isTransforming (state (newManager (newService 0))) = false
  /\ exists e m' r,
       transformImage (testManagerEnv (httpFailure 500 "Internal Server Error"))
         photo light (newManager (newService 0)) = (Throw e, m')
       /\ fetches (apiService m') = (0 + 3 * 3)%nat
       /\ history m' = [r]
       /\ success r = false.
Proof.
  assert (Hnet : alwaysServerError
                   (api (testManagerEnv (httpFailure 500 "Internal Server Error"))))
    by (intros k id request; cbn; lia).
  split; [exact Hnet|]. split; [reflexivity|].
  destruct (server_errors_exhaust_both_retry_loops
              (testManagerEnv (httpFailure 500 "Internal Server Error"))
              photo light "data:image/jpeg;base64,original" (newManager (newService 0))
              Hnet eq_refl eq_refl eq_refl (conj eq_refl (or_intror eq_refl)))
    as (e & m' & r & Hrun & Hf & _ & Hh & Hs & _).
  exists e, m', r. repeat split; assumption.
Defined.

(** C1, counterexample. With three attempts configured in the orchestrator
    and three in the service, a network that always answers 500 is asked
    nine times, not three, and the failure result that is recorded is of
    kind [API_ERROR]. *)
Lemma nine_exchanges_not_three :
  ~ retryBoundAsClaimed (testManagerEnv (httpFailure 500 "Internal Server Error")) 3
      photo light (newManager (newService 0)).
Proof. intros [H _]. vm_compute in H. discriminate. Qed.

Example failing_transform_of_the_test_setup :
  let m' := stateAfter (transformImage (testManagerEnv (httpFailure 500 "Internal Server Error"))
                          photo light) (newManager (newService 0)) in
  fetches (apiService m') = 9%nat
  /\ started (apiService m') = 3%nat
  /\ slept (apiService m')
     = [200; 200; 200; 200; 200; 1000; 2000; 1000; 1000; 2000; 2000; 1000; 2000]
  /\ map (fun r => (success r, option_map errorType (result_error r))) (history m')
     = [(false, Some (Some "API_ERROR"))].
Proof. vm_compute. repeat split. Qed.

End RetryBound.

(** ** Calls that overlap *)


Lemma noHit_same_cache env k s s' :
  requestCache s' = requestCache s -> noHit env k s -> noHit env k s'.
Proof. unfold noHit. now intros ->. Qed.


(** What [transformImage_enter] does to the service, case by case. *)
Lemma transformImage_enter_cases env imageBase64 transformType options s :
  let k := requestKeyOf imageBase64 transformType options in
  match transformImage_enter env imageBase64 transformType options s with
  | (Throw _, s') => s' = s /\ Js.truthy (apiKey (config env)) = false
  | (Return entry, s') =>
      Js.truthy (apiKey (config env)) = true
      /\ (requestCache s' = requestCache s \/ requestCache s' = OMap.delete k (requestCache s))
      /\ match entry with
         | CacheHit _ =>
             activeRequests s' = activeRequests s /\ started s' = started s
         | Join _ k' p =>
             k' = k /\ activeRequests s !! k = Some p
             /\ activeRequests s' = activeRequests s /\ started s' = started s
         | Start _ k' p =>
             k' = k /\ activeRequests s !! k = None /\ p = started s
             /\ activeRequests s' = <[k := p]> (activeRequests s)
             /\ started s' = S (started s)
             /\ noHit env k s'
         end
  end.
Proof.
  intros k. subst k. unfold requestKeyOf.
  set (k := generateRequestKey imageBase64 (transformTypeName transformType) options).
  unfold transformImage_enter.
  destruct (Js.truthy (apiKey (config env))) eqn:Hkey; cbn [negb].
  2:{ unfold createAPIError, Date_now. run. now split. }
  unfold bind at 1, modify at 1. unfold bind at 1, gets at 1.
  set (s0 := with_requestIdCounter Z.succ s).
  assert (Hlookup : exists cached s1,
    (if enableCache (serviceOptions env)
     then getCachedResult imageBase64 (transformTypeName transformType) options
     else ret None) s0 = (Return cached, s1)
    /\ activeRequests s1 = activeRequests s /\ started s1 = started s
    /\ (requestCache s1 = requestCache s \/ requestCache s1 = OMap.delete k (requestCache s))
    /\ (truthyString cached = None -> noHit env k s1)).
  { destruct (enableCache (serviceOptions env)) eqn:Hen.
    - destruct (OMap.get k (requestCache s0)) as [entry|] eqn:Hget.
      + rewrite (getCachedResult_present _ _ _ _ _ Hget).
        destruct (expiresAt entry <? now s0).
        * eexists _, _. split; [reflexivity|]. cbn. repeat split; [now right|].
          intros _. right. intros entry'. cbn. fold k. now rewrite get_delete_eq.
        * eexists _, _. split; [reflexivity|]. cbn. repeat split; [now left|].
          intros Hfalsy. right. intros entry'. cbn.
          change (requestCache s) with (requestCache s0). rewrite Hget.
          intros [= <-]. cbn in Hfalsy. now destruct (Js.truthy (result entry)).
      + rewrite (getCachedResult_absent _ _ _ _ Hget).
        eexists _, _. split; [reflexivity|]. cbn. repeat split; [now left|].
        intros _. right. intros entry'. cbn.
        change (requestCache s) with (requestCache s0). now rewrite Hget.
    - eexists _, _. split; [reflexivity|]. cbn. repeat split; [now left|].
      intros _. now left. }
  destruct Hlookup as (cached & s1 & Hrun & Ha & Hs & Hc & Hmiss).
  rewrite (bind_Return _ _ _ _ _ Hrun).
  destruct (truthyString cached) as [r|] eqn:Htr.
  - cbn. split; [reflexivity|]. split; [assumption|]. now split.
  - unfold bind, gets, modify, ret. cbn. fold k. rewrite Ha.
    destruct (activeRequests s !! k) as [p|] eqn:Hact; cbn.
    + split; [reflexivity|]. split; [assumption|]. now repeat split.
    + split; [reflexivity|]. split; [assumption|]. rewrite Hs, Ha.
      do 5 (split; [reflexivity|]). specialize (Hmiss eq_refl).
      eapply noHit_same_cache; [|exact Hmiss]. reflexivity.
Qed.

Lemma rethrow_run requestId e s :
  exists e', transformImage_rethrow requestId e s = (Throw e', s) /\ rethrown e e'.
Proof.
  unfold transformImage_rethrow, rethrown.
  destruct (instanceofError e && hasType e).
  - now exists e.
  - eexists. split; [reflexivity|]. now eexists _, _.
Qed.


Lemma waiter_run requestId settlement s :
  exists o, transformImage_waiter requestId settlement s = (o, s) /\ settlesAs settlement o.
Proof.
  unfold transformImage_waiter, tryCatch, await. destruct settlement as [r|e]; cbn.
  - now exists (Return r).
  - destruct (rethrow_run requestId e s) as (e' & -> & H). eexists. split; [reflexivity|].
    now exists e'.
Qed.

Lemma owner_run env requestId requestKey settlement s :
  exists o s',
    transformImage_owner env requestId requestKey settlement s = (o, s')
    /\ settlesAs settlement o
    /\ activeRequests s' = delete requestKey (activeRequests s)
    /\ started s' = started s
    /\ (requestCache s' = requestCache s
        \/ exists entry,
             requestCache s'
             = OMap.set requestKey entry (afterEviction (serviceOptions env) (requestCache s))).
Proof.
  unfold transformImage_owner, transformImage_awaitOwn, tryCatch, tryFinally, await.
  destruct settlement as [r|e].
  - unfold bind at 1.
    destruct (enableCache (serviceOptions env)).
    + unfold bind at 1. rewrite cacheResult_run. cbn.
      eexists _, _. split; [reflexivity|]. cbn. repeat split. right. now eexists.
    + cbn. eexists _, _. split; [reflexivity|]. cbn. repeat split. now left.
  - cbn.
    destruct (rethrow_run requestId e
                (with_activeRequests (delete requestKey) s)) as (e' & -> & H).
    eexists _, _. split; [reflexivity|]. cbn. split; [now exists e'|]. repeat split. now left.
Qed.











Example two_calls_one_execution :
  let env := testEnv (httpSuccess "result") in
  let c := run env
             [ev_call "data:image/jpeg;base64,test" light [];
              ev_call "data:image/jpeg;base64,test" light [];
              ev_settle 0 (Return "data:image/jpeg;base64,result")] (initial env 0) in
  started (service c) = 1%nat
  /\ delivered c = [(0%nat, Return "data:image/jpeg;base64,result");
                    (1%nat, Return "data:image/jpeg;base64,result")].
Proof. vm_compute. split; reflexivity. Qed.

(** [cancelAllRequests] empties the registry and cancels nothing, though it
    is documented, and logs, that it cancels the requests in flight: the
    execution of a suspended call goes on, and a call with the same request
    made afterwards starts a second one. *)
Example cancelAllRequests_cancels_nothing :
  let env := testEnv (httpSuccess "result") in
  let c := run env
             [ev_call "data:image/jpeg;base64,test" light [];
              ev_cancelAllRequests;
              ev_call "data:image/jpeg;base64,test" light []] (initial env 0) in
  started (service c) = 2%nat
  /\ executes c 0 (requestKeyOf "data:image/jpeg;base64,test" light [])
  /\ executes c 1 (requestKeyOf "data:image/jpeg;base64,test" light []).
Proof.
  cbv zeta. split; [vm_compute; reflexivity|].
  split; [exists 0%nat, "transform_1" | exists 1%nat, "transform_2"]; vm_compute; reflexivity.
Qed.

(** * Further properties of the service *)

(** ** Exchanges *)

Lemma makeAPIRequest_state env request requestId s :
  snd (makeAPIRequest env request requestId s) = afterFetch env s.
Proof.
  unfold makeAPIRequest, createAPIError, Date_now. run.
  destruct (fetch env (fetches s) requestId request) as [e|r].
  - destruct (instanceofError e && bool_decide (errorName e = Some "AbortError"));
      [reflexivity|].
    destruct (instanceofTypeError e && Js.includes (errorMessage e) "fetch"); reflexivity.
  - destruct (ok r); cbn; [|reflexivity]. destruct (resp_json r) as [e|parsed]; [|reflexivity].
    cbn. destruct (instanceofError e && bool_decide (errorName e = Some "AbortError"));
      [reflexivity|].
    destruct (instanceofTypeError e && Js.includes (errorMessage e) "fetch"); reflexivity.
Qed.

Lemma attempt_state env request requestId attempt s :
  snd (performTransformation_attempt env request requestId attempt s) = afterFetch env s.
Proof.
  unfold performTransformation_attempt, bind.
  pose proof (makeAPIRequest_state env request requestId s) as H.
  destruct (makeAPIRequest env request requestId s) as [[response|e] s1]; cbn in H; subst s1;
    [|reflexivity].
  unfold createAPIError, Date_now. run.
  destruct (success response); [|reflexivity].
  destruct (data_image response) as [image|]; [|reflexivity].
  destruct (Js.truthy image); reflexivity.
Qed.

Lemma addBase64Prefix_starts base64 : Js.startsWith (addBase64Prefix base64) "data:" = true.
Proof.
  unfold addBase64Prefix. destruct (Js.startsWith base64 "data:") eqn:E; [exact E | reflexivity].
Qed.

Lemma attempt_returns_data_uri env request requestId attempt s image s' :
  performTransformation_attempt env request requestId attempt s = (Return image, s') ->
  Js.startsWith image "data:" = true.
Proof.
  unfold performTransformation_attempt, bind.
  destruct (makeAPIRequest env request requestId s) as [[response|e] s1]; [|discriminate].
  unfold createAPIError, Date_now. run.
  destruct (success response); [|discriminate].
  destruct (data_image response) as [img|]; [|discriminate].
  destruct (Js.truthy img); [|discriminate].
  intros [= <- _]. apply addBase64Prefix_starts.
Qed.

Lemma attemptsFrom_S first count :
  attemptsFrom first (S count) = first :: attemptsFrom (first + 1) count.
Proof.
  unfold attemptsFrom. cbn [seq map]. f_equal; [lia|].
  rewrite <- seq_shift, map_map. apply map_ext. intros j. lia.
Qed.

Lemma giveUp_run requestId lastError s :
  exists e, performTransformation_giveUp requestId lastError s = (Throw e, s).
Proof.
  destruct lastError as [e|]; cbn; [now exists e|].
  unfold createAPIError, Date_now. run. now eexists.
Qed.

Lemma sameBookkeeping_refl s : sameBookkeeping s s.
Proof. now repeat split. Qed.

Lemma sameBookkeeping_trans s1 s2 s3 :
  sameBookkeeping s1 s2 -> sameBookkeeping s2 s3 -> sameBookkeeping s1 s3.
Proof. unfold sameBookkeeping. intuition congruence. Qed.

(** ** The retry loop against any network *)

Lemma loop_bound env request requestId maxRetries :
  forall remaining attempt lastError s,
    attempt + Z.of_nat remaining = maxRetries + 1 ->
    remaining <> O ->
    exists k,
      (1 <= k <= remaining)%nat
      /\ let s' := snd (performTransformation_loop env request requestId maxRetries
                          remaining attempt lastError s) in
         fetches s' = (fetches s + k)%nat
         /\ slept s' = slept s ++ map calculateRetryDelay (attemptsFrom attempt (k - 1))
         /\ sameBookkeeping s s'.
Proof.
  induction remaining as [|remaining IH]; intros attempt lastError s Hrel Hpos; [easy|].
  cbn [performTransformation_loop].
  pose proof (attempt_state env request requestId attempt s) as Hst.
  destruct (performTransformation_attempt env request requestId attempt s)
    as [[image|e] s1] eqn:Hrun; cbn [snd] in Hst; subst s1;
    rewrite (bind_Return _ _ _ _ _ (settled_run _ _ _ _ Hrun)).
  - exists 1%nat. cbn. split; [lia|]. rewrite app_nil_r. repeat split; lia.
  - destruct ((attempt =? maxRetries) || negb (isRetryableError e)) eqn:Hstop.
    + exists 1%nat. cbn. split; [lia|]. rewrite app_nil_r. repeat split; lia.
    + apply orb_false_elim in Hstop. destruct Hstop as [Hlast _].
      pose (s2 := with_slept (fun l => l ++ [calculateRetryDelay attempt])
                    (with_now (fun t => t + Z.max 0 (calculateRetryDelay attempt))
                       (afterFetch env s))).
      destruct (IH (attempt + 1) (Some e) s2) as (k & Hk & Hf & Hs & Hb); [lia | lia |].
      exists (S k). split; [lia|]. cbv zeta iota in *.
      change ((sleep (calculateRetryDelay attempt) ;;
               performTransformation_loop env request requestId maxRetries remaining
                 (attempt + 1) (Some e)) (afterFetch env s))
        with (performTransformation_loop env request requestId maxRetries remaining
                (attempt + 1) (Some e) s2).
      rewrite Hf, Hs.
      replace (S k - 1)%nat with (S (k - 1)) by lia. rewrite attemptsFrom_S.
      subst s2. cbn. rewrite <- app_assoc. cbn. split; [lia|]. split; [reflexivity|].
      exact Hb.
Qed.

(** X1. However the network behaves, one call of [performTransformation] with a
    retry count of at least 1 makes at least one exchange and at most
    [maxRetries]; between two exchanges it sleeps once, for the backoff
    delay of the attempt that failed; and it touches neither the cache nor
    the registry of requests in flight. *)
Theorem performTransformation_retry_bound
    env imageBase64 transformType options requestId s :
  1 <= maxRetriesOf env ->
  let s' := stateAfter (performTransformation env imageBase64 transformType options requestId) s in
  exists k,
    (1 <= k <= Z.to_nat (maxRetriesOf env))%nat
    /\ fetches s' = (fetches s + k)%nat
    /\ slept s' = slept s ++ map calculateRetryDelay (attemptsFrom 1 (k - 1))
    /\ sameBookkeeping s s'.
Proof.
  intros Hpos. unfold stateAfter, performTransformation. cbv zeta.
  apply loop_bound; lia.
Qed.

Lemma performTransformation_retry_bound_witness :
  1 <= maxRetriesOf (testEnv (httpFailure 503 "Service Unavailable"))
  /\ exists k,
       (1 <= k <= 3)%nat
       /\ fetches (stateAfter
                     (performTransformation (testEnv (httpFailure 503 "Service Unavailable"))
                        "data:image/jpeg;base64,test" light [] "transform_1")
                     (newService 0))
          = k.
Proof.
  split; [vm_compute; discriminate|].
  destruct (performTransformation_retry_bound
              (testEnv (httpFailure 503 "Service Unavailable"))
              "data:image/jpeg;base64,test" light [] "transform_1" (newService 0))
    as (k & Hk & Hf & _); [vm_compute; discriminate|].
  exists k. split; [exact Hk | exact Hf].
Defined.

(** X2. With a retry count of 0 or less the loop body never runs:
    [performTransformation] throws [UNKNOWN_ERROR] ("All retry attempts
    failed") without any exchange and leaves the service as it was. *)
Theorem no_attempt_without_retries env imageBase64 transformType options requestId s :
  maxRetriesOf env <= 0 ->
  performTransformation env imageBase64 transformType options requestId s
  = (Throw (APIError UNKNOWN_ERROR "All retry attempts failed" (det_requestId requestId) (now s)),
     s).
Proof.
  intros H. unfold performTransformation. cbv zeta.
  replace (Z.to_nat (maxRetriesOf env)) with O by lia. reflexivity.
Qed.

Lemma no_attempt_without_retries_witness :
  performTransformation noRetryEnv "data:image/jpeg;base64,test" light [] "transform_1"
    (newService 0)
  = (Throw (APIError UNKNOWN_ERROR "All retry attempts failed" (det_requestId "transform_1") 0),
     newService 0).
Proof.
  apply (no_attempt_without_retries noRetryEnv "data:image/jpeg;base64,test" light []
           "transform_1" (newService 0)).
  vm_compute. discriminate.
Defined.

(** ** What the HTTP status of a failed exchange decides *)

Lemma status_below_500_not_retryable status msg details t :
  status < 500 ->
  isRetryableError (APIError (getErrorTypeFromStatus status) msg details t) = false.
Proof.
  intros H. unfold getErrorTypeFromStatus.
  destruct ((status =? 401) || (status =? 403)); [reflexivity|].
  destruct (status =? 429); [reflexivity|].
  destruct ((400 <=? status) && (status <? 500)); [reflexivity|].
  replace (500 <=? status) with false by lia. reflexivity.
Qed.

(** X3. An exchange answered with a status that is not [ok], in a loop that
    would allow a further attempt: the service sleeps (1000 ms after the
    first attempt) and makes a second exchange when the status is 500 or
    more; for every status below 500 (400, 401, 403, 404, 429, ...) it
    throws the error of this one exchange at once, without sleeping. *)
Theorem http_status_decides_retry
    env imageBase64 transformType options requestId s r :
  fetch env (fetches s) requestId
    (transformationRequest (config env) imageBase64 transformType options)
  = FetchResolved r ->
  ok r = false ->
  1 < maxRetriesOf env ->
  let run := performTransformation env imageBase64 transformType options requestId s in
  (500 <= status r ->
   (S (fetches s) < fetches (snd run))%nat
   /\ exists rest, slept (snd run) = slept s ++ 1000 :: rest)
  /\ (status r < 500 ->
      run = (Throw (APIError (getErrorTypeFromStatus (status r))
                      ("HTTP " ++ Js.toString 10 (status r) ++ ": " ++ statusText r)%string
                      (det_status (status r) (resp_text r) requestId)
                      (now (afterFetch env s))),
             afterFetch env s)).
Proof.
  intros Hf Hok Hmax. cbv zeta. unfold performTransformation. cbv zeta.
  set (request := transformationRequest (config env) imageBase64 transformType options) in *.
  destruct (Z.to_nat (maxRetriesOf env)) as [|remaining] eqn:Hn; [lia|].
  cbn [performTransformation_loop].
  rewrite (bind_Return _ _ _ _ _
             (settled_run _ _ _ _ (attempt_not_ok env request requestId 1 s r Hf Hok))).
  replace (1 =? maxRetriesOf env) with false by lia. cbn [orb].
  split; intros Hst.
  - rewrite (status_500_is_server_error _ Hst).
    change (isRetryableError (APIError SERVER_ERROR _ _ _)) with true. cbv iota. cbn [negb].
    cbv iota.
    set (e := APIError SERVER_ERROR _ _ _).
    pose (s2 := with_slept (fun l => l ++ [calculateRetryDelay 1])
                  (with_now (fun t => t + Z.max 0 (calculateRetryDelay 1)) (afterFetch env s))).
    change ((sleep (calculateRetryDelay 1) ;;
             performTransformation_loop env request requestId (maxRetriesOf env) remaining
               (1 + 1) (Some e)) (afterFetch env s))
      with (performTransformation_loop env request requestId (maxRetriesOf env) remaining
              (1 + 1) (Some e) s2).
    destruct (loop_bound env request requestId (maxRetriesOf env) remaining (1 + 1) (Some e) s2)
      as (k & Hk & Hfe & Hs & _); [lia | lia |].
    cbv zeta in Hfe, Hs. rewrite Hfe, Hs. split; [cbn; lia|].
    eexists. cbn. rewrite <- app_assoc. reflexivity.
  - rewrite (status_below_500_not_retryable _ _ _ _ Hst). reflexivity.
Qed.

Lemma http_status_decides_retry_witness :
  fst (performTransformation (testEnv (httpFailure 404 "Not Found"))
         "data:image/jpeg;base64,test" light [] "transform_1" (newService 0))
  = Throw (APIError INVALID_REQUEST "HTTP 404: Not Found"
             (det_status 404 "Not Found" "transform_1") 0).
Proof.
  destruct (http_status_decides_retry (testEnv (httpFailure 404 "Not Found"))
              "data:image/jpeg;base64,test" light [] "transform_1" (newService 0) _
              eq_refl eq_refl eq_refl) as [_ H].
  rewrite H; [reflexivity | cbn; lia].
Defined.

(** ** How a rejection of [fetch] is classified *)

Lemma attempt_rejected env request requestId attempt s e :
  fetch env (fetches s) requestId request = FetchRejected e ->
  performTransformation_attempt env request requestId attempt s
  = (if instanceofError e && bool_decide (errorName e = Some "AbortError") then
       Throw (APIError TIMEOUT_ERROR "Request timeout"
                (det_timeout (timeout (config env)) requestId) (now (afterFetch env s)))
     else if instanceofTypeError e && Js.includes (errorMessage e) "fetch" then
       Throw (APIError NETWORK_ERROR "Network connection failed"
                (det_originalError e requestId) (now (afterFetch env s)))
     else Throw e,
     afterFetch env s).
Proof.
  intros Hf. unfold performTransformation_attempt, makeAPIRequest, createAPIError, Date_now.
  run. rewrite Hf.
  destruct (instanceofError e && bool_decide (errorName e = Some "AbortError")); [reflexivity|].
  destruct (instanceofTypeError e && Js.includes (errorMessage e) "fetch"); reflexivity.
Qed.

(** X4. A rejection of [fetch] by an [Error] that is neither an abort nor a
    [TypeError] whose message mentions [fetch] is not classified: the retry
    loop throws that very error after this one exchange, without sleeping,
    however many attempts are left. *)
Theorem unclassified_rejection_is_not_retried
    env request requestId maxRetries remaining attempt lastError s isTypeError name msg :
  fetch env (fetches s) requestId request = FetchRejected (ErrorInstance isTypeError name msg) ->
  name <> "AbortError" ->
  isTypeError = false \/ Js.includes msg "fetch" = false ->
  performTransformation_loop env request requestId maxRetries (S remaining) attempt lastError s
  = (Throw (ErrorInstance isTypeError name msg), afterFetch env s).
Proof.
  intros Hf Hname Hnet. cbn [performTransformation_loop].
  rewrite (bind_Return _ _ _ _ _
             (settled_run _ _ _ _ (attempt_rejected env request requestId attempt s _ Hf))).
  cbn [instanceofError instanceofTypeError errorName errorMessage andb].
  rewrite bool_decide_eq_false_2 by congruence.
  replace (isTypeError && Js.includes msg "fetch") with false
    by (destruct Hnet as [-> | ->]; [reflexivity | now rewrite andb_false_r]).
  cbn. now rewrite orb_true_r.
Qed.

Lemma unclassified_rejection_is_not_retried_witness :
  performTransformation_loop
    (testEnv (FetchRejected (ErrorInstance false "Error" "connection reset")))
    (transformationRequest testConfig "data:image/jpeg;base64,test" light [])
    "transform_1" 3 3 1 None (newService 0)
  = (Throw (ErrorInstance false "Error" "connection reset"),
     afterFetch (testEnv (FetchRejected (ErrorInstance false "Error" "connection reset")))
       (newService 0)).
Proof.
  apply (unclassified_rejection_is_not_retried
           (testEnv (FetchRejected (ErrorInstance false "Error" "connection reset")))
           (transformationRequest testConfig "data:image/jpeg;base64,test" light [])
           "transform_1" 3 2 1 None (newService 0) false "Error" "connection reset");
    [reflexivity | discriminate | now left].
Defined.

(** ** Failures that are retried *)

Lemma attempt_retryable env request requestId attempt s :
  failsRetryably (fetch env (fetches s) requestId request) ->
  exists e,
    performTransformation_attempt env request requestId attempt s = (Throw e, afterFetch env s)
    /\ isRetryableError e = true.
Proof.
  intros [H | [H | H]].
  - destruct (attempt_server_error env request requestId attempt s H) as (msg & d & t & Hrun).
    eexists. split; [exact Hrun | reflexivity].
  - destruct H as (b & msg & Hf). rewrite (attempt_rejected _ _ _ _ _ _ Hf).
    cbn [instanceofError errorName andb]. rewrite bool_decide_eq_true_2 by reflexivity.
    eexists. split; reflexivity.
  - destruct H as (name & msg & Hf & Hname & Hmsg). rewrite (attempt_rejected _ _ _ _ _ _ Hf).
    cbn [instanceofError instanceofTypeError errorName errorMessage andb].
    rewrite bool_decide_eq_false_2 by congruence. rewrite Hmsg.
    eexists. split; reflexivity.
Qed.

Lemma attempt_delivers env request requestId attempt s image :
  delivers (fetch env (fetches s) requestId request) image ->
  performTransformation_attempt env request requestId attempt s
  = (Return (addBase64Prefix image), afterFetch env s).
Proof.
  intros (r & parsed & Hf & Hok & Hj & Hs & Hi & Ht).
  unfold performTransformation_attempt.
  rewrite (bind_Return _ _ _ _ _ (makeAPIRequest_parsed _ _ _ _ _ _ Hf Hok Hj)).
  now rewrite Hs, Hi, Ht.
Qed.

Lemma loop_retries_until_success env request requestId maxRetries image :
  forall n remaining attempt lastError s,
    attempt + Z.of_nat remaining = maxRetries + 1 ->
    (n < remaining)%nat ->
    (forall j, (j < n)%nat ->
       failsRetryably (fetch env (fetches s + j)%nat requestId request)) ->
    delivers (fetch env (fetches s + n)%nat requestId request) image ->
    exists s',
      performTransformation_loop env request requestId maxRetries remaining attempt lastError s
      = (Return (addBase64Prefix image), s')
      /\ fetches s' = (fetches s + S n)%nat
      /\ slept s' = slept s ++ map calculateRetryDelay (attemptsFrom attempt n)
      /\ sameBookkeeping s s'.
Proof.
  induction n as [|n IH]; intros remaining attempt lastError s Hrel Hlt Hfail Hok;
    (destruct remaining as [|remaining]; [lia|]); cbn [performTransformation_loop].
  - rewrite Nat.add_0_r in Hok.
    rewrite (bind_Return _ _ _ _ _
               (settled_run _ _ _ _ (attempt_delivers _ _ _ attempt _ _ Hok))).
    eexists. split; [reflexivity|]. cbn. rewrite app_nil_r. repeat split; lia.
  - destruct (attempt_retryable env request requestId attempt s) as (e & Hrun & Hretry).
    { specialize (Hfail O ltac:(lia)). now rewrite Nat.add_0_r in Hfail. }
    rewrite (bind_Return _ _ _ _ _ (settled_run _ _ _ _ Hrun)), Hretry.
    replace (attempt =? maxRetries) with false by lia. cbn [negb orb]. cbv iota.
    pose (s2 := with_slept (fun l => l ++ [calculateRetryDelay attempt])
                  (with_now (fun t => t + Z.max 0 (calculateRetryDelay attempt))
                     (afterFetch env s))).
    change ((sleep (calculateRetryDelay attempt) ;;
             performTransformation_loop env request requestId maxRetries remaining
               (attempt + 1) (Some e)) (afterFetch env s))
      with (performTransformation_loop env request requestId maxRetries remaining
              (attempt + 1) (Some e) s2).
    destruct (IH remaining (attempt + 1) (Some e) s2) as (s' & Hloop & Hf & Hs & Hb);
      [lia | lia | | |].
    + intros j Hj. replace (fetches s2 + j)%nat with (fetches s + S j)%nat by (cbn; lia).
      apply Hfail. lia.
    + replace (fetches s2 + n)%nat with (fetches s + S n)%nat by (cbn; lia). exact Hok.
    + exists s'. split; [exact Hloop|]. rewrite Hf, Hs, attemptsFrom_S. cbn.
      rewrite <- app_assoc. split; [lia|]. split; [reflexivity|]. exact Hb.
Qed.

(** X5. When the first [n] exchanges of a call fail in a way the service
    retries (a status of 500 or more, a body that announces no image, a
    timeout, a network failure) and the next one delivers an image, with
    [n] below the retry count: [performTransformation] returns that image as
    a data URI after [n + 1] exchanges, having slept the backoff delays of
    the attempts 1 to [n] in between, and without touching the cache or the
    registry. *)
Theorem retry_until_success
    env imageBase64 transformType options requestId s n image :
  let request := transformationRequest (config env) imageBase64 transformType options in
  Z.of_nat n < maxRetriesOf env ->
  (forall j, (j < n)%nat -> failsRetryably (fetch env (fetches s + j)%nat requestId request)) ->
  delivers (fetch env (fetches s + n)%nat requestId request) image ->
  exists s',
    performTransformation env imageBase64 transformType options requestId s
    = (Return (addBase64Prefix image), s')
    /\ fetches s' = (fetches s + S n)%nat
    /\ slept s' = slept s ++ map calculateRetryDelay (attemptsFrom 1 n)
    /\ sameBookkeeping s s'.
Proof.
  intros request Hn Hfail Hok. unfold performTransformation. cbv zeta.
  apply loop_retries_until_success; [lia | lia | exact Hfail | exact Hok].
Qed.

Lemma retry_until_success_witness :
  exists s',
    performTransformation
      (scriptedEnv [aborted; httpFailure 503 "Service Unavailable"] (httpSuccess "abc"))
      "data:image/jpeg;base64,test" light [] "transform_1" (newService 0)
    = (Return "data:image/jpeg;base64,abc", s')
    /\ fetches s' = 3%nat
    /\ slept s' = [1000; 2000].
Proof.
  destruct (retry_until_success
              (scriptedEnv [aborted; httpFailure 503 "Service Unavailable"] (httpSuccess "abc"))
              "data:image/jpeg;base64,test" light [] "transform_1" (newService 0) 2 "abc")
    as (s' & Hrun & Hf & Hs & _).
  - reflexivity.
  - intros [|[|j]] Hj; [right; left; now exists false, "The operation was aborted"
                       | left; cbn; lia | lia].
  - eexists _, _. repeat split; reflexivity.
  - exists s'. split; [exact Hrun|]. split; [exact Hf | exact Hs].
Defined.

Lemma loop_exhausts_retryable env request requestId maxRetries :
  forall remaining attempt lastError s,
    attempt + Z.of_nat remaining = maxRetries + 1 ->
    remaining <> O ->
    (forall j, (j < remaining)%nat ->
       failsRetryably (fetch env (fetches s + j)%nat requestId request)) ->
    exists e s',
      performTransformation_loop env request requestId maxRetries remaining attempt lastError s
      = (Throw e, s')
      /\ isRetryableError e = true
      /\ fetches s' = (fetches s + remaining)%nat
      /\ slept s' = slept s ++ map calculateRetryDelay (attemptsFrom attempt (remaining - 1))
      /\ sameBookkeeping s s'.
Proof.
  induction remaining as [|remaining IH]; intros attempt lastError s Hrel Hpos Hfail; [easy|].
  cbn [performTransformation_loop].
  destruct (attempt_retryable env request requestId attempt s) as (e & Hrun & Hretry).
  { specialize (Hfail O ltac:(lia)). now rewrite Nat.add_0_r in Hfail. }
  rewrite (bind_Return _ _ _ _ _ (settled_run _ _ _ _ Hrun)), Hretry. cbn [negb].
  rewrite orb_false_r. destruct (attempt =? maxRetries) eqn:Hlast.
  - assert (remaining = O) by lia. subst remaining. exists e, (afterFetch env s).
    split; [reflexivity|]. split; [exact Hretry|]. cbn. rewrite app_nil_r.
    repeat split; lia.
  - pose (s2 := with_slept (fun l => l ++ [calculateRetryDelay attempt])
                  (with_now (fun t => t + Z.max 0 (calculateRetryDelay attempt))
                     (afterFetch env s))).
    change ((sleep (calculateRetryDelay attempt) ;;
             performTransformation_loop env request requestId maxRetries remaining
               (attempt + 1) (Some e)) (afterFetch env s))
      with (performTransformation_loop env request requestId maxRetries remaining
              (attempt + 1) (Some e) s2).
    destruct (IH (attempt + 1) (Some e) s2) as (e' & s' & Hloop & Hr & Hf & Hs & Hb);
      [lia | lia | |].
    + intros j Hj. replace (fetches s2 + j)%nat with (fetches s + S j)%nat by (cbn; lia).
      apply Hfail. lia.
    + exists e', s'. split; [exact Hloop|]. split; [exact Hr|]. rewrite Hf, Hs.
      replace (S remaining - 1)%nat with (S (remaining - 1)) by lia.
      rewrite attemptsFrom_S. cbn. rewrite <- app_assoc.
      split; [lia|]. split; [reflexivity|]. exact Hb.
Qed.

(** X6. When every exchange of a call fails in a way the service retries
    (server errors, timeouts and network failures, in any mix),
    [performTransformation] makes exactly [maxRetries] exchanges, sleeps the
    backoff delays of the attempts 1 to [maxRetries - 1], and throws an error
    of a retryable kind: the one of the last exchange is not followed by a
    sleep. *)
Theorem retryable_failures_exhaust_the_attempts
    env imageBase64 transformType options requestId s :
  let request := transformationRequest (config env) imageBase64 transformType options in
  1 <= maxRetriesOf env ->
  (forall j, (j < Z.to_nat (maxRetriesOf env))%nat ->
     failsRetryably (fetch env (fetches s + j)%nat requestId request)) ->
  exists e s',
    performTransformation env imageBase64 transformType options requestId s = (Throw e, s')
    /\ isRetryableError e = true
    /\ fetches s' = (fetches s + Z.to_nat (maxRetriesOf env))%nat
    /\ slept s'
       = slept s ++ map calculateRetryDelay (attemptsFrom 1 (Z.to_nat (maxRetriesOf env) - 1))
    /\ sameBookkeeping s s'.
Proof.
  intros request Hn Hfail. unfold performTransformation. cbv zeta.
  apply loop_exhausts_retryable; [lia | lia | exact Hfail].
Qed.

Lemma retryable_failures_exhaust_the_attempts_witness :
  exists e s',
    performTransformation
      (scriptedEnv [aborted; failedToFetch] (httpFailure 500 "Internal Server Error"))
      "data:image/jpeg;base64,test" light [] "transform_1" (newService 0)
    = (Throw e, s')
    /\ fetches s' = 3%nat
    /\ slept s' = [1000; 2000].
Proof.
  destruct (retryable_failures_exhaust_the_attempts
              (scriptedEnv [aborted; failedToFetch] (httpFailure 500 "Internal Server Error"))
              "data:image/jpeg;base64,test" light [] "transform_1" (newService 0))
    as (e & s' & Hrun & _ & Hf & Hs & _).
  - vm_compute; discriminate.
  - intros [|[|j]] Hj.
    + right; left. now exists false, "The operation was aborted".
    + right; right. exists "TypeError", "Failed to fetch".
      split; [reflexivity|]. split; [discriminate | reflexivity].
    + left. cbn. destruct j; cbn; lia.
  - exists e, s'. split; [exact Hrun|]. split; [exact Hf | exact Hs].
Defined.

(** ** Calls of [transformImage] *)

Lemma loop_general env request requestId maxRetries :
  forall remaining attempt lastError s,
    sameBookkeeping s
      (snd (performTransformation_loop env request requestId maxRetries
              remaining attempt lastError s))
    /\ forall image,
         fst (performTransformation_loop env request requestId maxRetries
                remaining attempt lastError s) = Return image ->
         Js.startsWith image "data:" = true.
Proof.
  induction remaining as [|remaining IH]; intros attempt lastError s;
    cbn [performTransformation_loop].
  - destruct (giveUp_run requestId lastError s) as (e & ->). cbn.
    split; [apply sameBookkeeping_refl | discriminate].
  - pose proof (attempt_state env request requestId attempt s) as Hst.
    destruct (performTransformation_attempt env request requestId attempt s)
      as [[image|e] s1] eqn:Hrun; cbn [snd] in Hst; subst s1;
      rewrite (bind_Return _ _ _ _ _ (settled_run _ _ _ _ Hrun)).
    + cbn. split; [now repeat split|]. intros image' [= <-].
      exact (attempt_returns_data_uri _ _ _ _ _ _ _ Hrun).
    + destruct ((attempt =? maxRetries) || negb (isRetryableError e)).
      * cbn. split; [now repeat split | discriminate].
      * pose (s2 := with_slept (fun l => l ++ [calculateRetryDelay attempt])
                      (with_now (fun t => t + Z.max 0 (calculateRetryDelay attempt))
                         (afterFetch env s))).
        change ((sleep (calculateRetryDelay attempt) ;;
                 performTransformation_loop env request requestId maxRetries remaining
                   (attempt + 1) (Some e)) (afterFetch env s))
          with (performTransformation_loop env request requestId maxRetries remaining
                  (attempt + 1) (Some e) s2).
        destruct (IH (attempt + 1) (Some e) s2) as [Hb Himg]. split; [|exact Himg].
        eapply sameBookkeeping_trans; [|exact Hb]. now repeat split.
Qed.

Lemma performTransformation_general env imageBase64 transformType options requestId s :
  sameBookkeeping s
    (snd (performTransformation env imageBase64 transformType options requestId s))
  /\ forall image,
       fst (performTransformation env imageBase64 transformType options requestId s)
       = Return image ->
       Js.startsWith image "data:" = true.
Proof. unfold performTransformation. cbv zeta. apply loop_general. Qed.

Lemma startsWith_truthy s : Js.startsWith s "data:" = true -> Js.truthy s = true.
Proof. now destruct s. Qed.

(** X7. Without an API key [transformImage] throws [AUTH_ERROR] ("API key not
    configured") before anything else happens: the error is the one created
    on the spot, not wrapped in another one; no request id is taken, no
    exchange is made, and the cache and the registry are not looked at. *)
Theorem missing_api_key_is_refused env imageBase64 transformType options s :
  Js.truthy (apiKey (config env)) = false ->
  transformImage env imageBase64 transformType options s
  = (Throw (APIError AUTH_ERROR "API key not configured" (det_transformType transformType)
              (now s)),
     s).
Proof.
  intros Hkey. unfold transformImage, transformImage_enter. now rewrite Hkey.
Qed.

Lemma missing_api_key_is_refused_witness :
  transformImage keylessEnv "data:image/jpeg;base64,test" light [] (newService 0)
  = (Throw (APIError AUTH_ERROR "API key not configured" (det_transformType light) 0),
     newService 0).
Proof.
  apply (missing_api_key_is_refused keylessEnv "data:image/jpeg;base64,test" light []
           (newService 0)).
  reflexivity.
Defined.

Lemma batch_loop_without_api_key env rest i total results calls s :
  Js.truthy (apiKey (config env)) = false ->
  batchTransformImages_loop env rest i total results calls s
  = (Return (results ++ repeat EmptyString (List.length rest),
             calls ++ map (fun j => (i + Z.of_nat j, total)) (seq 1 (List.length rest))),
     s).
Proof.
  intros Hkey. revert i results calls.
  induction rest as [|image rest IH]; intros i results calls.
  - cbn. now rewrite !app_nil_r.
  - cbn [batchTransformImages_loop].
    assert (Hrun : transformImage env (data image) (type image)
                     (default [] (batch_options image)) s
                   = (Throw (APIError AUTH_ERROR "API key not configured"
                               (det_transformType (type image)) (now s)), s))
      by (unfold transformImage, transformImage_enter; now rewrite Hkey).
    rewrite (bind_Return _ _ _ _ _ (settled_run _ _ _ _ Hrun)).
    rewrite IH. cbn [List.length repeat seq map]. rewrite <- !app_assoc. cbn [app].
    rewrite <- (List.seq_shift (List.length rest) 1), List.map_map.
    rewrite (List.map_ext (fun j => (i + 1 + Z.of_nat j, total))
               (fun j => (i + Z.of_nat (S j), total)))
      by (intros j; f_equal; lia).
    reflexivity.
Qed.

(** X8. Without an API key a batch makes no exchange and leaves the service as
    it was: every slot of the result is the empty string, and the progress
    callback is still called once for each element. *)
Theorem batch_without_api_key env images s :
  Js.truthy (apiKey (config env)) = false ->
  batchTransformImages env images s
  = (Return (repeat EmptyString (List.length images),
             map (fun j => (Z.of_nat j, Z.of_nat (List.length images)))
                 (seq 1 (List.length images))),
     s).
Proof.
  intros Hkey. unfold batchTransformImages.
  rewrite (batch_loop_without_api_key _ _ _ _ _ _ _ Hkey). reflexivity.
Qed.

Lemma batch_without_api_key_witness :
  batchTransformImages keylessEnv
    [ {| data := "data:image/jpeg;base64,test1"; type := light; batch_options := None |};
      {| data := "data:image/jpeg;base64,test2"; type := heavy; batch_options := None |} ]
    (newService 0)
  = (Return ([EmptyString; EmptyString], [(1, 2); (2, 2)]), newService 0).
Proof.
  apply (batch_without_api_key keylessEnv
           [ {| data := "data:image/jpeg;base64,test1"; type := light; batch_options := None |};
             {| data := "data:image/jpeg;base64,test2"; type := heavy; batch_options := None |} ]
           (newService 0)).
  reflexivity.
Defined.

(** ** The registry and the cache around a call *)

Lemma sameBookkeeping_performTransformation env imageBase64 transformType options requestId s o s' :
  performTransformation env imageBase64 transformType options requestId s = (o, s') ->
  sameBookkeeping s s'
  /\ forall image, o = Return image -> Js.startsWith image "data:" = true.
Proof.
  intros Hrun.
  pose proof (performTransformation_general env imageBase64 transformType options requestId s)
    as H.
  rewrite Hrun in H. exact H.
Qed.

(** X9. A call that does not join an execution in flight leaves the registry of
    requests in flight as it found it, however the call ends: its own entry
    is removed in the [finally]. *)
Theorem registry_is_left_as_found env imageBase64 transformType options s :
  activeRequests s !! requestKeyOf imageBase64 transformType options = None ->
  activeRequests (stateAfter (transformImage env imageBase64 transformType options) s)
  = activeRequests s.
Proof.
  intros Hfree. unfold stateAfter, transformImage.
  pose proof (transformImage_enter_cases env imageBase64 transformType options s) as Hcases.
  cbv zeta in Hcases.
  set (k := requestKeyOf imageBase64 transformType options) in *.
  destruct (transformImage_enter env imageBase64 transformType options s)
    as [[entry|e] s1] eqn:Henter.
  2:{ destruct Hcases as [-> _]. rewrite (bind_Throw _ _ _ _ _ Henter). reflexivity. }
  rewrite (bind_Return _ _ _ _ _ Henter).
  destruct Hcases as (_ & _ & Hentry). destruct entry as [r | rid k' p | rid k' p].
  - cbn. apply Hentry.
  - destruct Hentry as (_ & Hin & _). congruence.
  - destruct Hentry as (-> & _ & _ & Hact & _).
    destruct (performTransformation env imageBase64 transformType options rid s1)
      as [o s2] eqn:Hrun.
    rewrite (bind_Return _ _ _ _ _ (settled_run _ _ _ _ Hrun)).
    destruct (sameBookkeeping_performTransformation _ _ _ _ _ _ _ _ Hrun)
      as [(_ & Ha & _) _].
    destruct (owner_run env rid k o s2) as (o' & s' & -> & _ & Hdel & _).
    cbn [snd]. rewrite Hdel, Ha, Hact, delete_insert_eq. now apply delete_id.
Qed.

Lemma registry_is_left_as_found_witness :
  activeRequests
    (stateAfter
       (transformImage (testEnv (httpSuccess "abc")) "data:image/jpeg;base64,test" light [])
       (newService 0))
  = activeRequests (newService 0).
Proof.
  apply (registry_is_left_as_found (testEnv (httpSuccess "abc"))
           "data:image/jpeg;base64,test" light [] (newService 0)).
  reflexivity.
Defined.

Lemma get_delete_mono k0 k (m : list (string * CacheEntry)) entry :
  OMap.get k (OMap.delete k0 m) = Some entry -> OMap.get k m = Some entry.
Proof.
  destruct (String.eqb_spec k0 k) as [->|Hne].
  - now rewrite get_delete_eq.
  - now rewrite get_delete_ne.
Qed.

(** X10. A call that throws has stored nothing in the cache: whatever the cache
    holds afterwards, it held before. (An entry found expired on the way may
    have been removed.) *)
Theorem failed_call_stores_nothing env imageBase64 transformType options s e s' :
  transformImage env imageBase64 transformType options s = (Throw e, s') ->
  nothingAdded (requestCache s) (requestCache s').
Proof.
  unfold transformImage. intros Hrun.
  pose proof (transformImage_enter_cases env imageBase64 transformType options s) as Hcases.
  cbv zeta in Hcases.
  set (k := requestKeyOf imageBase64 transformType options) in *.
  destruct (transformImage_enter env imageBase64 transformType options s)
    as [[entry|e0] s1] eqn:Henter.
  2:{ destruct Hcases as [-> _]. rewrite (bind_Throw _ _ _ _ _ Henter) in Hrun.
      injection Hrun as _ <-. now intros k0 entry. }
  rewrite (bind_Return _ _ _ _ _ Henter) in Hrun.
  destruct Hcases as (_ & Hcache & _).
  assert (Hs1 : nothingAdded (requestCache s) (requestCache s1)).
  { intros k0 entry0. destruct Hcache as [-> | ->]; [trivial | apply get_delete_mono]. }
  destruct entry as [r | rid k' p | rid k' p].
  - discriminate.
  - unfold transformImage_awaitOwn, transformImage_waiter, transformImage_rethrow,
      tryCatch, tryFinally, await, settled, bind in Hrun.
    destruct (pending env p) as [r|e1]; cbn in Hrun.
    + destruct (enableCache (serviceOptions env)); [rewrite cacheResult_run in Hrun|];
        cbn in Hrun; discriminate.
    + destruct (instanceofError e1 && hasType e1); cbn in Hrun;
        injection Hrun as _ <-; exact Hs1.
  - destruct (performTransformation env imageBase64 transformType options rid s1)
      as [o s2] eqn:Hp.
    rewrite (bind_Return _ _ _ _ _ (settled_run _ _ _ _ Hp)) in Hrun.
    destruct (sameBookkeeping_performTransformation _ _ _ _ _ _ _ _ Hp)
      as [(Hc & _) _].
    unfold transformImage_owner, transformImage_awaitOwn, transformImage_rethrow,
      tryCatch, tryFinally, await, bind in Hrun.
    destruct o as [r|e1]; cbn in Hrun.
    + destruct (enableCache (serviceOptions env)); [rewrite cacheResult_run in Hrun|];
        cbn in Hrun; discriminate.
    + destruct (instanceofError e1 && hasType e1); cbn in Hrun;
        injection Hrun as _ <-; cbn; rewrite Hc; exact Hs1.
Qed.

Lemma failed_call_stores_nothing_witness :
  nothingAdded (requestCache (newService 0))
    (requestCache
       (snd (transformImage (testEnv (httpFailure 429 "Too Many Requests"))
               "data:image/jpeg;base64,test" light [] (newService 0)))).
Proof.
  eapply (failed_call_stores_nothing (testEnv (httpFailure 429 "Too Many Requests"))
            "data:image/jpeg;base64,test" light [] (newService 0)).
  vm_compute. reflexivity.
Defined.

Lemma transformImage_enter_hit env imageBase64 transformType options s entry :
  Js.truthy (apiKey (config env)) = true ->
  enableCache (serviceOptions env) = true ->
  OMap.get (requestKeyOf imageBase64 transformType options) (requestCache s) = Some entry ->
  (expiresAt entry <? now s) = false ->
  Js.truthy (result entry) = true ->
  transformImage_enter env imageBase64 transformType options s
  = (Return (CacheHit (result entry)), with_requestIdCounter Z.succ s).
Proof.
  intros Hkey Hen Hget Hfresh Htruthy. unfold transformImage_enter.
  rewrite Hkey, Hen. cbn [negb].
  unfold bind at 1, modify at 1. unfold bind at 1, gets at 1.
  unfold requestKeyOf in Hget.
  erewrite bind_Return
    by (rewrite (getCachedResult_present _ _ _ (with_requestIdCounter Z.succ s) entry Hget);
        cbn [now with_requestIdCounter]; rewrite Hfresh; reflexivity).
  cbn [truthyString]. now rewrite Htruthy.
Qed.

Lemma transformImage_enter_hit_inv env imageBase64 transformType options s r s' :
  transformImage_enter env imageBase64 transformType options s = (Return (CacheHit r), s') ->
  s' = with_requestIdCounter Z.succ s
  /\ exists entry,
       OMap.get (requestKeyOf imageBase64 transformType options) (requestCache s) = Some entry
       /\ result entry = r
       /\ (expiresAt entry <? now s) = false
       /\ Js.truthy r = true.
Proof.
  unfold transformImage_enter, requestKeyOf.
  set (k := generateRequestKey imageBase64 (transformTypeName transformType) options).
  destruct (Js.truthy (apiKey (config env))); cbn [negb].
  2:{ unfold createAPIError, Date_now. run. discriminate. }
  unfold bind at 1, modify at 1. unfold bind at 1, gets at 1.
  set (s0 := with_requestIdCounter Z.succ s).
  assert (Hmiss : forall s1,
    (let* active := gets activeRequests in
     match active !! k with
     | Some p => ret (Join ("transform_" ++ Js.toString 10 (requestIdCounter s0))%string k p)
     | None =>
         let* p := gets started in
         modify (fun s => with_activeRequests <[k := p]> (with_started S s)) ;;
         ret (Start ("transform_" ++ Js.toString 10 (requestIdCounter s0))%string k p)
     end) s1 <> (Return (CacheHit r), s')).
  { intros s1. unfold bind, gets, modify, ret. cbn.
    destruct (activeRequests s1 !! k); cbn; discriminate. }
  destruct (enableCache (serviceOptions env)).
  - destruct (OMap.get k (requestCache s0)) as [entry|] eqn:Hget.
    + pose proof (getCachedResult_present _ _ _ s0 entry Hget) as Hlook. fold k in Hlook.
      destruct (expiresAt entry <? now s0) eqn:Hexp;
        rewrite (bind_Return _ _ _ _ _ Hlook).
      * cbn [truthyString]. intros H. now apply Hmiss in H.
      * cbn [truthyString]. destruct (Js.truthy (result entry)) eqn:Ht.
        -- intros [= <- <-]. split; [reflexivity|]. exists entry. now repeat split.
        -- intros H. now apply Hmiss in H.
    + rewrite (bind_Return _ _ _ _ _ (getCachedResult_absent _ _ _ s0 Hget)).
      cbn [truthyString]. intros H. now apply Hmiss in H.
  - unfold bind at 1, ret at 1. cbn [truthyString]. intros H. now apply Hmiss in H.
Qed.

Lemma transformImage_hit env imageBase64 transformType options s entry :
  Js.truthy (apiKey (config env)) = true ->
  enableCache (serviceOptions env) = true ->
  OMap.get (requestKeyOf imageBase64 transformType options) (requestCache s) = Some entry ->
  (expiresAt entry <? now s) = false ->
  Js.truthy (result entry) = true ->
  transformImage env imageBase64 transformType options s
  = (Return (result entry), with_requestIdCounter Z.succ s).
Proof.
  intros Hkey Hen Hget Hexp Ht. unfold transformImage.
  now rewrite (bind_Return _ _ _ _ _
                 (transformImage_enter_hit _ _ _ _ _ _ Hkey Hen Hget Hexp Ht)).
Qed.

(** What a call that returned leaves in the cache. *)
Lemma returned_call_leaves_a_valid_entry env imageBase64 transformType options s r s1 :
  enableCache (serviceOptions env) = true ->
  activeRequests s !! requestKeyOf imageBase64 transformType options = None ->
  transformImage env imageBase64 transformType options s = (Return r, s1) ->
  Js.truthy (apiKey (config env)) = true
  /\ exists entry,
       OMap.get (requestKeyOf imageBase64 transformType options) (requestCache s1) = Some entry
       /\ result entry = r
       /\ (expiresAt entry <? now s1) = false
       /\ Js.truthy r = true.
Proof.
  intros Hen Hfree Hrun.
  pose proof (transformImage_enter_cases env imageBase64 transformType options s) as Hcases.
  cbv zeta in Hcases.
  set (k := requestKeyOf imageBase64 transformType options) in *.
  unfold transformImage in Hrun.
  destruct (transformImage_enter env imageBase64 transformType options s)
    as [[entry|e] s0] eqn:Henter.
  2:{ rewrite (bind_Throw _ _ _ _ _ Henter) in Hrun. discriminate. }
  rewrite (bind_Return _ _ _ _ _ Henter) in Hrun.
  destruct Hcases as (Hkey & _ & Hentry). split; [exact Hkey|].
  destruct entry as [r0 | rid k' p | rid k' p].
  - injection Hrun as <- <-.
    destruct (transformImage_enter_hit_inv _ _ _ _ _ _ _ Henter)
      as (-> & entry & Hget & <- & Hexp & Ht).
    exists entry. now repeat split.
  - destruct Hentry as (_ & Hin & _). congruence.
  - destruct Hentry as (-> & _).
    destruct (performTransformation env imageBase64 transformType options rid s0)
      as [o s2] eqn:Hp.
    rewrite (bind_Return _ _ _ _ _ (settled_run _ _ _ _ Hp)) in Hrun.
    destruct (sameBookkeeping_performTransformation _ _ _ _ _ _ _ _ Hp) as [_ Hdata].
    unfold transformImage_owner, transformImage_awaitOwn, transformImage_rethrow,
      tryCatch, tryFinally, await, bind in Hrun.
    destruct o as [r1|e1]; cbn in Hrun.
    + rewrite Hen, cacheResult_run in Hrun. cbn in Hrun. injection Hrun as <- <-.
      exists (entryAt k r1 (now s2)). split; [cbn; apply get_set_eq|].
      split; [reflexivity|]. split; [cbn; unfold ttl; lia|].
      apply startsWith_truthy. now apply Hdata.
    + destruct (instanceofError e1 && hasType e1); cbn in Hrun; discriminate.
Qed.

(** X11. With the cache enabled, a call that returned a result is answered from
    the cache when it is repeated at once: the identical call returns the
    same result with no exchange, no sleep and no new execution; only a
    request id is consumed. *)
Theorem repeated_call_is_served_from_the_cache
    env imageBase64 transformType options s r s1 :
  enableCache (serviceOptions env) = true ->
  activeRequests s !! requestKeyOf imageBase64 transformType options = None ->
  transformImage env imageBase64 transformType options s = (Return r, s1) ->
  transformImage env imageBase64 transformType options s1
  = (Return r, with_requestIdCounter Z.succ s1).
Proof.
  intros Hen Hfree Hrun.
  destruct (returned_call_leaves_a_valid_entry _ _ _ _ _ _ _ Hen Hfree Hrun)
    as (Hkey & entry & Hget & <- & Hexp & Ht).
  now apply transformImage_hit.
Qed.

Lemma repeated_call_is_served_from_the_cache_witness :
  exists s1,
    transformImage (testEnv (httpSuccess "abc")) "data:image/jpeg;base64,test" light []
      (newService 0)
    = (Return "data:image/jpeg;base64,abc", s1)
    /\ fetches s1 = 1%nat
    /\ transformImage (testEnv (httpSuccess "abc")) "data:image/jpeg;base64,test" light [] s1
       = (Return "data:image/jpeg;base64,abc", with_requestIdCounter Z.succ s1).
Proof.
  eexists. split; [vm_compute; reflexivity|]. split; [reflexivity|].
  apply (repeated_call_is_served_from_the_cache (testEnv (httpSuccess "abc"))
           "data:image/jpeg;base64,test" light [] (newService 0));
    [reflexivity | reflexivity | vm_compute; reflexivity].
Defined.

(** ** The error a caller of [transformImage] sees *)

Lemma loop_fails_fast env request requestId maxRetries remaining attempt lastError s r :
  fetch env (fetches s) requestId request = FetchResolved r ->
  ok r = false ->
  status r < 500 ->
  performTransformation_loop env request requestId maxRetries (S remaining) attempt lastError s
  = (Throw (APIError (getErrorTypeFromStatus (status r))
              ("HTTP " ++ Js.toString 10 (status r) ++ ": " ++ statusText r)%string
              (det_status (status r) (resp_text r) requestId)
              (now (afterFetch env s))),
     afterFetch env s).
Proof.
  intros Hf Hok Hst. cbn [performTransformation_loop].
  rewrite (bind_Return _ _ _ _ _
             (settled_run _ _ _ _ (attempt_not_ok env request requestId attempt s r Hf Hok))).
  rewrite (status_below_500_not_retryable _ _ _ _ Hst). cbn [negb].
  now rewrite orb_true_r.
Qed.

(** X12. The errors the service creates are plain objects, not instances of
    [Error], so the [catch] of [transformImage] wraps each of them: when the
    exchange of a fresh request is answered with a status below 500, the
    caller receives an error of type [UNKNOWN_ERROR] ("Image transformation
    failed") whose [details.error] is the classified error ([AUTH_ERROR],
    [RATE_LIMIT_ERROR], [INVALID_REQUEST], ...) of that exchange. *)
Theorem classified_error_reaches_the_caller_wrapped
    env imageBase64 transformType options s r :
  let requestId := ("transform_" ++ Js.toString 10 (Z.succ (requestIdCounter s)))%string in
  let t := now s + elapsed env (fetches s) in
  Js.truthy (apiKey (config env)) = true ->
  freshRequest env (requestKeyOf imageBase64 transformType options) s ->
  1 <= maxRetriesOf env ->
  fetch env (fetches s) requestId
    (transformationRequest (config env) imageBase64 transformType options)
  = FetchResolved r ->
  ok r = false ->
  status r < 500 ->
  fst (transformImage env imageBase64 transformType options s)
  = Throw (APIError UNKNOWN_ERROR "Image transformation failed"
             (det_error
                (APIError (getErrorTypeFromStatus (status r))
                   ("HTTP " ++ Js.toString 10 (status r) ++ ": " ++ statusText r)%string
                   (det_status (status r) (resp_text r) requestId) t)
                requestId)
             t).
Proof.
  intros requestId t Hkey Hfresh Hmax Hf Hok Hst. unfold transformImage.
  rewrite (bind_Return _ _ _ _ _ (transformImage_enter_fresh _ _ _ _ _ Hkey Hfresh)).
  fold requestId.
  set (s1 := with_activeRequests _ _).
  assert (Hrun :
    performTransformation env imageBase64 transformType options requestId s1
    = (Throw (APIError (getErrorTypeFromStatus (status r))
                ("HTTP " ++ Js.toString 10 (status r) ++ ": " ++ statusText r)%string
                (det_status (status r) (resp_text r) requestId) t),
       afterFetch env s1)).
  { unfold performTransformation. cbv zeta.
    destruct (Z.to_nat (maxRetriesOf env)) as [|remaining] eqn:Hn; [lia|].
    now apply loop_fails_fast. }
  rewrite (bind_Return _ _ _ _ _ (settled_run _ _ _ _ Hrun)). reflexivity.
Qed.

Lemma classified_error_reaches_the_caller_wrapped_witness :
  fst (transformImage (testEnv (httpFailure 401 "Unauthorized"))
         "data:image/jpeg;base64,test" light [] (newService 0))
  = Throw (APIError UNKNOWN_ERROR "Image transformation failed"
             (det_error
                (APIError AUTH_ERROR "HTTP 401: Unauthorized"
                   (det_status 401 "Unauthorized" "transform_1") 0)
                "transform_1")
             0).
Proof.
  apply (classified_error_reaches_the_caller_wrapped (testEnv (httpFailure 401 "Unauthorized"))
           "data:image/jpeg;base64,test" light [] (newService 0)
           {| ok := false; status := 401; statusText := "Unauthorized";
              resp_text := "Unauthorized";
              resp_json := inl (ErrorInstance false "SyntaxError" "Unexpected token") |});
    [reflexivity | split; [reflexivity | now right] | cbn; lia
     | reflexivity | reflexivity | cbn; lia].
Defined.

(** ** The data-URI prefix *)

Lemma dropPrefix_startsWith p1 p2 s :
  Js.dropPrefix s (p1 ++ p2)%string <> None -> Js.startsWith s p1 = true.
Proof.
  revert s. induction p1 as [|a p1 IH]; intros s; [now destruct s|].
  change (String a p1 ++ p2)%string with (String a (p1 ++ p2)%string).
  destruct s as [|c r]; cbn [Js.dropPrefix Js.startsWith]; [easy|].
  destruct (Ascii.eqb a c); [apply IH | easy].
Qed.

(** X13. [addBase64Prefix] and [cleanBase64] undo each other on bare base64
    data: for a string that does not start with [data:], removing the
    prefix that [addBase64Prefix] puts in front gives the string back. A
    string that has the prefix is not given a second one. *)
Theorem cleanBase64_undoes_addBase64Prefix base64 :
  Js.startsWith base64 "data:" = false ->
  cleanBase64 (addBase64Prefix base64) = base64
  /\ cleanBase64 base64 = base64
  /\ addBase64Prefix (addBase64Prefix base64) = addBase64Prefix base64.
Proof.
  intros H. split; [|split].
  - unfold addBase64Prefix. rewrite H. unfold cleanBase64.
    change (Js.dropPrefix ("data:image/jpeg;base64," ++ base64) "data:image/")
      with (Some ("jpeg;base64," ++ base64)%string).
    cbv iota beta zeta.
    change (dropLowercase ("jpeg;base64," ++ base64)) with (";base64," ++ base64)%string.
    replace (Js.dropPrefix (";base64," ++ base64) ";base64,") with (Some base64)
      by (now destruct base64).
    change (String.length (";base64," ++ base64)) with (8 + String.length base64)%nat.
    change (String.length ("jpeg;base64," ++ base64)) with (12 + String.length base64)%nat.
    replace (8 + String.length base64 <? 12 + String.length base64)%nat with true;
      [reflexivity|].
    symmetry. apply Nat.ltb_lt. lia.
  - unfold cleanBase64.
    destruct (Js.dropPrefix base64 "data:image/") as [r|] eqn:Hdrop; [|reflexivity].
    rewrite (dropPrefix_startsWith "data:" "image/" base64) in H; [discriminate|].
    change ("data:" ++ "image/")%string with "data:image/". now rewrite Hdrop.
  - unfold addBase64Prefix at 1. now rewrite addBase64Prefix_starts.
Qed.

Lemma cleanBase64_undoes_addBase64Prefix_witness :
  cleanBase64 (addBase64Prefix "dGVzdA==") = "dGVzdA=="
  /\ addBase64Prefix "dGVzdA==" = "data:image/jpeg;base64,dGVzdA==".
Proof.
  split; [|reflexivity].
  apply (cleanBase64_undoes_addBase64Prefix "dGVzdA=="). reflexivity.
Defined.

(** ** The hash of a request key *)

Lemma toInt32_mod a b : a mod 2 ^ 32 = b mod 2 ^ 32 -> Js.toInt32 a = Js.toInt32 b.
Proof. unfold Js.toInt32. now intros ->. Qed.

Lemma toInt32_congruent a : Js.toInt32 a mod 2 ^ 32 = a mod 2 ^ 32.
Proof.
  unfold Js.toInt32. cbv zeta.
  destruct (2 ^ 31 <=? a mod 2 ^ 32).
  - rewrite Zminus_mod, Z_mod_same_full, Z.sub_0_r, !Z.mod_mod by lia. reflexivity.
  - now rewrite Z.mod_mod by lia.
Qed.

Lemma toInt32_range a : - 2 ^ 31 <= Js.toInt32 a < 2 ^ 31.
Proof.
  unfold Js.toInt32. cbv zeta.
  pose proof (Z.mod_pos_bound a (2 ^ 32) ltac:(lia)).
  destruct (Z.leb_spec (2 ^ 31) (a mod 2 ^ 32)); lia.
Qed.

Lemma simpleHash_step h c :
  Js.band (Js.shl h 5 - h + c) (Js.shl h 5 - h + c) = Js.toInt32 (31 * h + c).
Proof.
  unfold Js.band. rewrite Z.land_diag.
  transitivity (Js.toInt32 (Js.shl h 5 - h + c)).
  { apply toInt32_mod. apply toInt32_congruent. }
  apply toInt32_mod. unfold Js.shl.
  change (5 mod 32) with 5. rewrite Z.shiftl_mul_pow2 by lia.
  rewrite <- Z.add_sub_swap, Zminus_mod, Zplus_mod, toInt32_congruent.
  rewrite (Z.mul_mod (Js.toInt32 h)), toInt32_congruent by lia.
  rewrite <- Z.mul_mod, <- Zplus_mod, <- Zminus_mod by lia.
  f_equal. lia.
Qed.

Lemma polynomial_congruent codes a b :
  a mod 2 ^ 32 = b mod 2 ^ 32 ->
  fold_left (fun h c => 31 * h + c) codes a mod 2 ^ 32
  = fold_left (fun h c => 31 * h + c) codes b mod 2 ^ 32.
Proof.
  revert a b. induction codes as [|c codes IH]; intros a b H; [exact H|].
  cbn [fold_left]. apply IH.
  rewrite (Zplus_mod (31 * a)), (Zplus_mod (31 * b)).
  rewrite (Z.mul_mod 31 a), (Z.mul_mod 31 b) by lia. now rewrite H.
Qed.

Lemma simpleHash_loop_polynomial codes h :
  Js.toInt32 (simpleHash_loop codes h)
  = Js.toInt32 (fold_left (fun h c => 31 * h + c) codes h)
  /\ (codes <> [] -> Js.toInt32 (simpleHash_loop codes h) = simpleHash_loop codes h).
Proof.
  revert h. induction codes as [|c codes IH]; intros h; [now split|].
  cbn [simpleHash_loop fold_left]. cbv zeta. rewrite simpleHash_step.
  destruct (IH (Js.toInt32 (31 * h + c))) as [IH1 IH2]. split.
  - rewrite IH1. apply toInt32_mod, polynomial_congruent, toInt32_congruent.
  - intros _. destruct codes as [|c' codes].
    + cbn. apply toInt32_mod, toInt32_congruent.
    + apply IH2. discriminate.
Qed.

(** X14. The shift-and-mask loop of [simpleHash] computes the polynomial hash
    with multiplier 31 over the code units of the string, wrapped to a
    signed 32-bit integer; the number that is then printed in base 36 is its
    absolute value, which is at most [2^31]. *)
Theorem simpleHash_is_the_wrapped_polynomial str :
  simpleHash_loop (Js.charCodes str) 0 = Js.toInt32 (polynomial (Js.charCodes str))
  /\ simpleHash str = Js.toString 36 (Z.abs (Js.toInt32 (polynomial (Js.charCodes str))))
  /\ 0 <= Z.abs (simpleHash_loop (Js.charCodes str) 0) <= 2 ^ 31.
Proof.
  assert (H : simpleHash_loop (Js.charCodes str) 0
              = Js.toInt32 (polynomial (Js.charCodes str))).
  { destruct (simpleHash_loop_polynomial (Js.charCodes str) 0) as [H1 H2].
    destruct (Js.charCodes str) as [|c codes] eqn:Hc; [reflexivity|].
    rewrite <- H2 by discriminate. exact H1. }
  split; [exact H|]. split.
  - unfold simpleHash. now rewrite H.
  - rewrite H. pose proof (toInt32_range (polynomial (Js.charCodes str))). lia.
Qed.

(** ** The statistics of the cache *)

Lemma minimum_spec xs x :
  (minimum x xs = x \/ In (minimum x xs) xs)
  /\ minimum x xs <= x
  /\ forall y, In y xs -> minimum x xs <= y.
Proof.
  unfold minimum. revert x. induction xs as [|a xs IH]; intros x; cbn [fold_left].
  - split; [now left|]. split; [lia | intros y []].
  - destruct (IH (Z.min x a)) as (Hin & Hle & Hall). split; [|split].
    + destruct Hin as [Heq | Hin]; [|right; now right].
      rewrite Heq. destruct (Z.min_spec x a) as [[_ ->] | [_ ->]]; [now left | right; now left].
    + lia.
    + intros y [<- | Hy]; [lia | now apply Hall].
Qed.

(** X15. [getCacheStats] reads the cache without changing anything: [size] is
    the number of entries, [maxSize] the configured capacity, [hitRate] is
    always 0, and [oldestEntry] is the smallest timestamp among the entries
    (the timestamp of one of them, at most that of every one), or undefined
    exactly when the cache is empty. *)
Theorem getCacheStats_reports_the_oldest_entry opts s :
  exists stats,
    getCacheStats opts s = (Return stats, s)
    /\ size stats = Z.of_nat (List.length (requestCache s))
    /\ maxSize stats = maxCacheSize opts
    /\ hitRate stats = 0
    /\ match oldestEntry stats with
       | None => requestCache s = []
       | Some t =>
           (exists k entry, In (k, entry) (requestCache s) /\ timestamp entry = t)
           /\ forall k entry, In (k, entry) (requestCache s) -> t <= timestamp entry
       end.
Proof.
  eexists. split; [reflexivity|]. cbn. split; [reflexivity|]. split; [reflexivity|].
  split; [reflexivity|].
  destruct (requestCache s) as [|[k0 e0] cache]; [reflexivity|]. cbn [map snd].
  destruct (minimum_spec (map timestamp (map snd cache)) (timestamp e0))
    as (Hin & Hle & Hall).
  split.
  - destruct Hin as [Heq | Hin].
    + exists k0, e0. split; [now left | now rewrite Heq].
    + apply in_map_iff in Hin. destruct Hin as (e & He & Hin1).
      apply in_map_iff in Hin1. destruct Hin1 as ([k e'] & <- & Hin2).
      exists k, e'. split; [now right | exact He].
  - intros k entry [[= <- <-] | Hmem]; [exact Hle|].
    apply Hall. apply in_map. now apply (in_map snd) in Hmem.
Qed.

(** ** How many exchanges a call of the service makes *)

Lemma sameFetches_refl s : sameFetches s s.
Proof. reflexivity. Qed.

Lemma sameFetches_trans s1 s2 s3 : sameFetches s1 s2 -> sameFetches s2 s3 -> sameFetches s1 s3.
Proof. unfold sameFetches. congruence. Qed.

Lemma createAPIError_sameFetches type msg details :
  steps sameFetches (createAPIError type msg details).
Proof. intros s. reflexivity. Qed.

Lemma getCachedResult_sameFetches imageBase64 transformType options :
  steps sameFetches (getCachedResult imageBase64 transformType options).
Proof.
  intros s. unfold getCachedResult, Date_now. run.
  destruct (OMap.get _ (requestCache s)) as [entry|]; [|reflexivity].
  now destruct (expiresAt entry <? now s).
Qed.

Lemma cacheResult_sameFetches opts key result : steps sameFetches (cacheResult opts key result).
Proof. intros s. now rewrite cacheResult_run. Qed.

Lemma transformImage_enter_sameFetches env imageBase64 transformType options :
  steps sameFetches (transformImage_enter env imageBase64 transformType options).
Proof.
  unfold transformImage_enter. destruct (negb (Js.truthy (apiKey (config env)))).
  - apply (steps_bind _ sameFetches_trans); [apply createAPIError_sameFetches|].
    intros e. apply (steps_throw _ sameFetches_refl).
  - apply (steps_bind _ sameFetches_trans); [now apply steps_modify | intros _].
    apply (steps_bind _ sameFetches_trans); [apply (steps_gets _ sameFetches_refl) | intros n].
    apply (steps_bind _ sameFetches_trans).
    { destruct (enableCache (serviceOptions env));
        [apply getCachedResult_sameFetches | apply (steps_ret _ sameFetches_refl)]. }
    intros cached. destruct (truthyString cached); [apply (steps_ret _ sameFetches_refl)|].
    apply (steps_bind _ sameFetches_trans); [apply (steps_gets _ sameFetches_refl)|].
    intros active. destruct (active !! _); [apply (steps_ret _ sameFetches_refl)|].
    apply (steps_bind _ sameFetches_trans); [apply (steps_gets _ sameFetches_refl) | intros p].
    apply (steps_bind _ sameFetches_trans); [now apply steps_modify | intros _].
    apply (steps_ret _ sameFetches_refl).
Qed.

Lemma transformImage_rethrow_sameFetches requestId e :
  steps sameFetches (transformImage_rethrow requestId e).
Proof.
  unfold transformImage_rethrow. destruct (instanceofError e && hasType e).
  - apply (steps_throw _ sameFetches_refl).
  - apply (steps_bind _ sameFetches_trans); [apply createAPIError_sameFetches|].
    intros e'. apply (steps_throw _ sameFetches_refl).
Qed.

Lemma transformImage_awaitOwn_sameFetches env requestKey settlement :
  steps sameFetches (transformImage_awaitOwn env requestKey settlement).
Proof.
  unfold transformImage_awaitOwn.
  apply (steps_tryFinally _ sameFetches_trans); [|now apply steps_modify].
  apply (steps_bind _ sameFetches_trans); [apply (steps_await _ sameFetches_refl)|].
  intros r. apply (steps_bind _ sameFetches_trans); [|intros _; apply (steps_ret _ sameFetches_refl)].
  destruct (enableCache (serviceOptions env));
    [apply cacheResult_sameFetches | apply (steps_ret _ sameFetches_refl)].
Qed.

Lemma performTransformation_within env imageBase64 transformType options requestId :
  steps (withinExchanges (Z.to_nat (maxRetriesOf env)))
    (performTransformation env imageBase64 transformType options requestId).
Proof.
  intros s. unfold performTransformation, withinExchanges. cbv zeta.
  destruct (Z.to_nat (maxRetriesOf env)) as [|remaining] eqn:Hn.
  - cbn [performTransformation_loop performTransformation_giveUp].
    unfold createAPIError, Date_now. run. lia.
  - destruct (loop_bound env
                (transformationRequest (config env) imageBase64 transformType options)
                requestId (maxRetriesOf env) (S remaining) 1 None s)
      as (k & Hk & Hf & _); [lia | discriminate |].
    cbv zeta in Hf. rewrite Hf. lia.
Qed.

Lemma transformImage_within env imageBase64 transformType options :
  steps (withinExchanges (Z.to_nat (maxRetriesOf env)))
    (transformImage env imageBase64 transformType options).
Proof.
  intros s. unfold transformImage, withinExchanges, bind at 1.
  pose proof (transformImage_enter_sameFetches env imageBase64 transformType options s) as He.
  destruct (transformImage_enter env imageBase64 transformType options s) as [[entry|e] s1];
    unfold sameFetches in He; cbn [snd] in He |- *; [|lia].
  destruct entry as [r | rid k p | rid k p].
  - cbn. lia.
  - unfold bind, settled.
    pose proof (transformImage_awaitOwn_sameFetches env k (pending env p) s1) as Ha.
    destruct (transformImage_awaitOwn env k (pending env p) s1) as [o s2].
    unfold sameFetches in Ha. cbn [snd] in Ha.
    destruct (waiter_run rid (pending env p) s2) as (o' & -> & _). cbn. lia.
  - unfold bind, settled.
    pose proof (performTransformation_within env imageBase64 transformType options rid s1)
      as Hp.
    destruct (performTransformation env imageBase64 transformType options rid s1) as [o s2].
    unfold withinExchanges in Hp. cbn [snd] in Hp.
    unfold transformImage_owner.
    pose proof (steps_tryCatch _ sameFetches_trans
                  (transformImage_awaitOwn env k o) (transformImage_rethrow rid)
                  (transformImage_awaitOwn_sameFetches env k o)
                  (transformImage_rethrow_sameFetches rid) s2) as Ho.
    unfold sameFetches in Ho. rewrite Ho. lia.
Qed.

(** ** Duplicates in a batch *)

Lemma batch_loop_of_hits env a entry :
  Js.truthy (apiKey (config env)) = true ->
  enableCache (serviceOptions env) = true ->
  Js.truthy (result entry) = true ->
  forall n i total results calls s,
    OMap.get (requestKeyOf (data a) (type a) (default [] (batch_options a))) (requestCache s)
    = Some entry ->
    (expiresAt entry <? now s) = false ->
    exists s',
      batchTransformImages_loop env (repeat a n) i total results calls s
      = (Return (results ++ repeat (result entry) n,
                 calls ++ map (fun j => (i + Z.of_nat j, total)) (seq 1 n)),
         s')
      /\ fetches s' = fetches s.
Proof.
  intros Hkey Hen Ht. induction n as [|n IH]; intros i total results calls s Hget Hexp.
  - exists s. cbn. now rewrite !app_nil_r.
  - cbn [repeat batchTransformImages_loop].
    rewrite (bind_Return _ _ _ _ _
               (settled_run _ _ _ _ (transformImage_hit _ _ _ _ _ _ Hkey Hen Hget Hexp Ht))).
    destruct (IH (i + 1) total (results ++ [result entry]) (calls ++ [(i + 1, total)])
                (with_requestIdCounter Z.succ s) Hget Hexp) as (s' & Hrun & Hf).
    exists s'. rewrite Hrun. split; [|exact Hf].
    rewrite <- !app_assoc. cbn [app seq map].
    rewrite <- (List.seq_shift n 1), List.map_map.
    rewrite (List.map_ext (fun j => (i + 1 + Z.of_nat j, total))
               (fun j => (i + Z.of_nat (S j), total)))
      by (intros j; f_equal; lia).
    reflexivity.
Qed.

(** X16. A batch that holds the same image several times transforms it once:
    with the cache enabled, when the first element is transformed (and no
    execution for it was in flight), the elements after it are served from
    the cache, so that the batch makes the exchanges of that one call and
    every slot holds its result. *)
Theorem duplicates_in_a_batch_are_transformed_once env a n s r s1 :
  enableCache (serviceOptions env) = true ->
  activeRequests s !! requestKeyOf (data a) (type a) (default [] (batch_options a)) = None ->
  transformImage env (data a) (type a) (default [] (batch_options a)) s = (Return r, s1) ->
  exists calls s',
    batchTransformImages env (repeat a (S n)) s = (Return (repeat r (S n), calls), s')
    /\ fetches s' = fetches s1.
Proof.
  intros Hen Hfree Hrun.
  destruct (returned_call_leaves_a_valid_entry _ _ _ _ _ _ _ Hen Hfree Hrun)
    as (Hkey & entry & Hget & <- & Hexp & Ht).
  unfold batchTransformImages. cbn [repeat batchTransformImages_loop].
  rewrite (bind_Return _ _ _ _ _ (settled_run _ _ _ _ Hrun)).
  destruct (batch_loop_of_hits env a entry Hkey Hen Ht n (0 + 1)
              (Z.of_nat (List.length (a :: repeat a n)))
              ([] ++ [result entry]) ([] ++ [(0 + 1, Z.of_nat (List.length (a :: repeat a n)))])
              s1 Hget Hexp) as (s' & Hloop & Hf).
  eexists _, s'. rewrite Hloop. split; [reflexivity | exact Hf].
Qed.

Lemma duplicates_in_a_batch_are_transformed_once_witness :
  exists calls s',
    batchTransformImages (testEnv (httpSuccess "abc"))
      (repeat {| data := "data:image/jpeg;base64,test"; type := light; batch_options := None |}
         3)
      (newService 0)
    = (Return (repeat "data:image/jpeg;base64,abc" 3, calls), s')
    /\ fetches s' = 1%nat.
Proof.
  destruct (duplicates_in_a_batch_are_transformed_once (testEnv (httpSuccess "abc"))
              {| data := "data:image/jpeg;base64,test"; type := light; batch_options := None |}
              2 (newService 0) "data:image/jpeg;base64,abc"
              (snd (transformImage (testEnv (httpSuccess "abc")) "data:image/jpeg;base64,test"
                      light [] (newService 0))))
    as (calls & s' & Hrun & Hf); [reflexivity | reflexivity | vm_compute; reflexivity |].
  exists calls, s'. split; [exact Hrun|]. rewrite Hf. vm_compute. reflexivity.
Defined.

(** ** Options that are falsy *)

(** X17. An option whose value is falsy (a strength, step count, guidance scale,
    width or height of 0, or an empty custom prompt) does not reach the
    wire: [x || default] replaces it, and the request is the one built from
    no options at all. The seed is passed as it is given, whatever the
    options are: a seed, be it 0, is the seed of the request, which then
    differs from the request built from no options; with no seed given the
    request has none. *)
Theorem falsy_option_is_replaced_by_the_default cfg imageBase64 transformType :
  (forall e,
     falsyOption e = true ->
     transformationRequest cfg imageBase64 transformType [e]
     = transformationRequest cfg imageBase64 transformType [])
  /\ (forall options,
        req_seed (transformationRequest cfg imageBase64 transformType options)
        = get_seed options)
  /\ (forall n,
        req_seed (transformationRequest cfg imageBase64 transformType [opt_seed n]) = Some n
        /\ transformationRequest cfg imageBase64 transformType [opt_seed n]
           <> transformationRequest cfg imageBase64 transformType [])
  /\ req_seed (transformationRequest cfg imageBase64 transformType []) = None.
Proof.
  split; [|split; [|split]].
  - unfold transformationRequest.
    intros [n|n|n|n|n|n|str]; cbn; intros H; try discriminate;
      try (apply negb_true_iff in H; rewrite H; reflexivity).
  - reflexivity.
  - intros n. split; [reflexivity|].
    intros H. apply (f_equal req_seed) in H. discriminate.
  - reflexivity.
Qed.

Lemma falsy_option_is_replaced_by_the_default_witness :
  req_strength (transformationRequest testConfig "data:image/jpeg;base64,test" light
                  [opt_strength (intNumber 0)])
  = decNumber "0.3"
  /\ req_seed (transformationRequest testConfig "data:image/jpeg;base64,test" light
                 [opt_seed (intNumber 0)])
     = Some (intNumber 0).
Proof.
  destruct (falsy_option_is_replaced_by_the_default testConfig "data:image/jpeg;base64,test"
              light) as (Hfalsy & _ & Hseed & _).
  split.
  - rewrite (Hfalsy (opt_strength (intNumber 0))); reflexivity.
  - apply Hseed.
Defined.

(** * Further properties of the orchestrator *)

Section FurtherManager.
Import ImageTransformManager.

(** ** A manager that is busy, and one that is not *)

(** X18. While a transform is running, a second call of [transformImage] is
    refused with [VALIDATION_ERROR] ("Transform already in progress") before
    it does anything: the manager stays busy, nothing is added to the
    history, no progress is reported and the service is not called. *)
Theorem busy_manager_refuses env sourceImage transformType m :
  isTransforming (state m) = true ->
  transformImage env sourceImage transformType m
  = (Throw (GameError "VALIDATION_ERROR" "Transform already in progress" Undefined
              (now (apiService m)) true),
     m).
Proof.
  intros Hbusy. unfold transformImage, createError, Date_now, onService,
    APIService.Date_now. run. rewrite Hbusy. destruct m. reflexivity.
Qed.

Lemma busy_manager_refuses_witness :
  transformImage (testManagerEnv (httpSuccess "abc")) photo light busyManager
  = (Throw (GameError "VALIDATION_ERROR" "Transform already in progress" Undefined 0 true),
     busyManager).
Proof.
  apply (busy_manager_refuses (testManagerEnv (httpSuccess "abc")) photo light busyManager).
  reflexivity.
Defined.

Lemma transformImage_ends_idle env sourceImage transformType m :
  isTransforming (state m) = false ->
  exists o m1,
    transformImage env sourceImage transformType m
    = (o, with_abortController (fun _ => None)
            (with_state (fun st => set_currentPhase completed (set_isTransforming false st))
               m1)).
Proof.
  intros Hidle. unfold transformImage.
  unfold bind at 1, gets at 1. rewrite Hidle.
  unfold bind at 1. unfold Date_now at 1, onService, zoom, APIService.Date_now, gets at 1.
  cbn [fst snd]. unfold bind at 1, modify at 1. unfold tryFinally.
  match goal with |- context [tryCatch ?c ?h ?m0] => destruct (tryCatch c h m0) as [o m1] end.
  exists o, m1. unfold transformImage_finally, bind, modify. now destruct o.
Qed.

(** X19. A call of [transformImage] on a manager that is not busy leaves it not
    busy, in phase [completed] and without an abort controller, whether the
    transform succeeded or failed; and the one result it appends to the
    history tells which: the result returned, marked successful, or a result
    marked failed that carries the error thrown. *)
Theorem transform_ends_idle env sourceImage transformType m :
  isTransforming (state m) = false ->
  let run := transformImage env sourceImage transformType m in
  isTransforming (state (snd run)) = false
  /\ currentPhase (state (snd run)) = completed
  /\ abortController (snd run) = None
  /\ exists r,
       history (snd run) = history m ++ [r]
       /\ match fst run with
          | Return r' => r' = r /\ success r = true
          | Throw e => success r = false /\ result_error r = Some e
          end.
Proof.
  intros Hidle. cbv zeta.
  assert (Hphase : currentPhase (state (snd (transformImage env sourceImage transformType m)))
                   = completed
                   /\ abortController (snd (transformImage env sourceImage transformType m))
                      = None).
  { destruct (transformImage_ends_idle env sourceImage transformType m Hidle)
      as (o & m1 & ->). now split. }
  destruct Hphase as [Hphase Hctl].
  pose proof (transformImage_appends_one_result env sourceImage transformType m Hidle) as Hone.
  unfold post in Hone.
  destruct (transformImage env sourceImage transformType m) as [[r|e] m'] eqn:Hrun;
    cbn [fst snd] in *.
  - destruct Hone as (Hh & _ & Hi & Hs & _). repeat split; trivial.
    exists r. now repeat split.
  - destruct Hone as (r & Hh & _ & Hi & Hs & He & _). repeat split; trivial.
    exists r. now repeat split.
Qed.

Lemma transform_ends_idle_witness :
  let run := transformImage (testManagerEnv (httpFailure 429 "Too Many Requests")) photo light
               (newManager (newService 0)) in
  isTransforming (state (snd run)) = false
  /\ currentPhase (state (snd run)) = completed
  /\ abortController (snd run) = None
  /\ List.length (history (snd run)) = 1%nat.
Proof.
  destruct (transform_ends_idle (testManagerEnv (httpFailure 429 "Too Many Requests")) photo
              light (newManager (newService 0)) eq_refl) as (Hi & Hp & Hc & r & Hh & _).
  cbv zeta. rewrite Hi, Hp, Hc, Hh. now repeat split.
Defined.

(** ** Deciding on a transform *)





(** ** Retrying the last transform *)

Lemma getLastTransformResult_run m :
  getLastTransformResult m = (Return (last (history m)), m).
Proof. reflexivity. Qed.

(** X21. [retryLastTransform] after a transform: when that transform failed,
    the retry is a call of [transformImage] for the same image and the same
    type, whose result or error it passes on; when it succeeded, the retry
    does nothing and returns [null]. *)
Theorem retryLastTransform_repeats_a_failure env sourceImage transformType m :
  isTransforming (state m) = false ->
  let run := transformImage env sourceImage transformType m in
  match fst run with
  | Return _ => retryLastTransform env (snd run) = (Return None, snd run)
  | Throw _ =>
      retryLastTransform env (snd run)
      = match transformImage env sourceImage transformType (snd run) with
        | (Return again, m'') => (Return (Some again), m'')
        | (Throw e, m'') => (Throw e, m'')
        end
  end.
Proof.
  intros Hidle run. subst run.
  pose proof (transformImage_appends_one_result env sourceImage transformType m Hidle) as Hone.
  unfold post in Hone.
  destruct (transformImage env sourceImage transformType m) as [[r|e] m'] eqn:Hrun;
    cbn [fst snd]; unfold retryLastTransform;
    rewrite (bind_Return _ _ _ _ _ (getLastTransformResult_run m')).
  - destruct Hone as (Hh & _ & _ & Hs & _). rewrite Hh, last_snoc, Hs. reflexivity.
  - destruct Hone as (r & Hh & _ & _ & Hs & _ & Ht & Ho).
    rewrite Hh, last_snoc, Hs, Ho, Ht. unfold bind.
    now destruct (transformImage env sourceImage transformType m') as [[again|e'] m''].
Qed.

Lemma retryLastTransform_repeats_a_failure_witness :
  let env := testManagerEnv (httpFailure 429 "Too Many Requests") in
  let m' := snd (transformImage env photo light (newManager (newService 0))) in
  exists e m'',
    retryLastTransform env m' = (Throw e, m'')
    /\ List.length (history m'') = 2%nat.
Proof.
  cbv zeta.
  pose proof (retryLastTransform_repeats_a_failure
                (testManagerEnv (httpFailure 429 "Too Many Requests")) photo light
                (newManager (newService 0)) eq_refl) as H.
  cbv zeta in H.
  assert (Hrun : exists e, fst (transformImage
                                  (testManagerEnv (httpFailure 429 "Too Many Requests"))
                                  photo light (newManager (newService 0))) = Throw e)
    by (eexists; vm_compute; reflexivity).
  destruct Hrun as [e Hrun]. rewrite Hrun in H. rewrite H.
  eexists _, _. split; vm_compute; reflexivity.
Defined.

(** With an empty history there is nothing to retry. *)
Lemma retryLastTransform_empty env m :
  history m = [] -> retryLastTransform env m = (Return None, m).
Proof.
  intros H. unfold retryLastTransform.
  rewrite (bind_Return _ _ _ _ _ (getLastTransformResult_run m)), H. reflexivity.
Qed.

(** ** Clearing the history *)

(** X22. [clearHistory] makes the history a new, empty array and sets
    [failedAttempts] to 0; it does not empty the old array. Every array that
    existed before, among them the old history that earlier snapshots of the
    state refer to, keeps its contents. *)
Theorem clearHistory_starts_a_new_array m :
  let m' := stateAfter clearHistory m in
  history m' = []
  /\ failedAttempts (state m') = 0
  /\ arrays m !! transformHistory (state m') = None
  /\ forall l, is_Some (arrays m !! l) -> contents (arrays m') l = contents (arrays m) l.
Proof.
  cbv zeta. unfold stateAfter, clearHistory, newLocation. run. cbn.
  assert (Hfresh : arrays m !! fresh (dom (arrays m)) = None).
  { apply not_elem_of_dom. apply is_fresh. }
  split; [|split; [reflexivity|split; [exact Hfresh|]]].
  - unfold history, contents. cbn. now rewrite lookup_insert_eq.
  - intros l [xs Hl]. unfold contents. rewrite lookup_insert_ne; [reflexivity|].
    intros <-. congruence.
Qed.

(** ** How many exchanges a transform makes *)

Lemma atMost_weaken {A} n n' (c : M Manager A) :
  (n <= n')%nat -> steps (atMost n) c -> steps (atMost n') c.
Proof. intros Hle Hc m. specialize (Hc m). unfold atMost in *. lia. Qed.

Lemma atMost_bind {A B} n1 n2 (c : M Manager A) (k : A -> M Manager B) :
  steps (atMost n1) c -> (forall a, steps (atMost n2) (k a)) ->
  steps (atMost (n1 + n2)) (bind c k).
Proof.
  intros Hc Hk m. unfold bind. specialize (Hc m).
  destruct (c m) as [[a|e] m1]; unfold atMost in Hc |- *; cbn [snd] in *; [|lia].
  specialize (Hk a m1). unfold atMost in Hk. lia.
Qed.

Lemma atMost_quiet_bind {A B} n (c : M Manager A) (k : A -> M Manager B) :
  steps quietly c -> (forall a, steps (atMost n) (k a)) -> steps (atMost n) (bind c k).
Proof.
  intros Hc Hk. apply (atMost_bind 0 n); [|exact Hk].
  intros m. destruct (Hc m) as (_ & Hf & _). unfold atMost. lia.
Qed.

Lemma atMost_quiet {A} n (c : M Manager A) : steps quietly c -> steps (atMost n) c.
Proof. intros Hc m. destruct (Hc m) as (_ & Hf & _). unfold atMost. lia. Qed.

Lemma atMost_same n (f : Manager -> Manager) :
  (forall m, apiService (f m) = apiService m) -> steps (atMost n) (modify f).
Proof. intros H m. unfold atMost, modify. cbn. rewrite H. lia. Qed.

Lemma atMost_same_bind {B} n (f : Manager -> Manager) (k : unit -> M Manager B) :
  (forall m, apiService (f m) = apiService m) ->
  (forall a, steps (atMost n) (k a)) -> steps (atMost n) (bind (modify f) k).
Proof. intros H Hk. apply (atMost_bind 0 n); [now apply atMost_same | exact Hk]. Qed.

Lemma onService_atMost {A} n (c : M APIService.Service A) :
  steps (withinExchanges n) c -> steps (atMost n) (onService c).
Proof.
  intros Hc m. specialize (Hc (apiService m)). unfold onService, zoom, atMost.
  destruct (c (apiService m)) as [o s']. exact Hc.
Qed.

Lemma performTransform_loop_atMost env imageBase64 transformType :
  forall remaining attempt lastError,
    steps (atMost (remaining * Z.to_nat (maxRetriesOf (api env))))
      (performTransform_loop env imageBase64 transformType remaining attempt lastError).
Proof.
  induction remaining as [|remaining IH]; intros attempt lastError;
    cbn [performTransform_loop].
  - apply atMost_quiet, performTransform_giveUp_quietly.
  - change (S remaining * Z.to_nat (maxRetriesOf (api env)))%nat
      with (Z.to_nat (maxRetriesOf (api env))
            + remaining * Z.to_nat (maxRetriesOf (api env)))%nat.
    apply atMost_bind.
    + intros m. unfold settled.
      pose proof (atMost_quiet_bind (Z.to_nat (maxRetriesOf (api env)))
                    (updateProgress processing (50 + (attempt - 1) * 10))
                    (fun _ => onService (APIService.transformImage (api env) imageBase64
                                           transformType (performTransform_options transformType)))
                    (updateProgress_quietly _ _)
                    (fun _ => onService_atMost _ _ (transformImage_within _ _ _ _)) m) as H.
      now destruct (bind _ _ m).
    + intros [image|e].
      * intros m. unfold atMost. cbn. lia.
      * apply atMost_quiet_bind; [|intros _; apply IH].
        destruct (attempt <? maxTransformAttempts env); [|apply (steps_ret _ quietly_refl)].
        cbv zeta.
        apply (steps_bind _ quietly_trans); [apply updateProgress_quietly | intros _].
        apply (steps_bind _ quietly_trans); [apply sleep_quietly | intros _].
        apply checkAborted_quietly.
Qed.

Lemma atMost_tryCatch {A} n1 n2 (c : M Manager A) h :
  steps (atMost n1) c -> (forall e, steps (atMost n2) (h e)) ->
  steps (atMost (n1 + n2)) (tryCatch c h).
Proof.
  intros Hc Hh m. unfold tryCatch. specialize (Hc m).
  destruct (c m) as [[a|e] m1]; unfold atMost in Hc |- *; cbn [snd] in *; [lia|].
  specialize (Hh e m1). unfold atMost in Hh. lia.
Qed.

Lemma atMost_tryFinally {A} n (c : M Manager A) (f : M Manager unit) :
  steps (atMost n) c -> steps (atMost 0) f -> steps (atMost n) (tryFinally c f).
Proof.
  intros Hc Hf m. unfold tryFinally. specialize (Hc m).
  destruct (c m) as [o m1]. specialize (Hf m1). unfold atMost in *. cbn [snd] in *.
  destruct (f m1) as [[[]|e] m2]; cbn [snd] in *; lia.
Qed.

Lemma pushHistory_atMost r : steps (atMost 0) (pushHistory r).
Proof. intros m. unfold atMost. cbn. lia. Qed.

Lemma transformImage_try_atMost env sourceImage transformType startTime :
  steps (atMost (Z.to_nat (maxTransformAttempts env) * Z.to_nat (maxRetriesOf (api env))))
    (transformImage_try env sourceImage transformType startTime).
Proof.
  set (bound := (Z.to_nat (maxTransformAttempts env) * Z.to_nat (maxRetriesOf (api env)))%nat).
  unfold transformImage_try.
  apply atMost_same_bind; [reflexivity | intros _].
  apply atMost_quiet_bind; [apply updateProgress_quietly | intros _].
  apply atMost_quiet_bind; [apply (steps_await _ quietly_refl) | intros imageBase64].
  apply atMost_quiet_bind; [apply checkAborted_quietly | intros _].
  apply atMost_quiet_bind; [apply updateProgress_quietly | intros _].
  apply atMost_quiet_bind; [apply simulateUploadProgress_quietly | intros _].
  apply atMost_quiet_bind; [apply checkAborted_quietly | intros _].
  apply atMost_quiet_bind; [apply updateProgress_quietly | intros _].
  apply (atMost_weaken (bound + 0)); [lia|].
  apply atMost_bind; [apply performTransform_loop_atMost | intros transformedBase64].
  apply atMost_quiet_bind; [apply checkAborted_quietly | intros _].
  apply atMost_quiet_bind; [apply updateProgress_quietly | intros _].
  apply atMost_quiet_bind; [apply createImageFromBase64_quietly | intros transformedImage].
  apply atMost_quiet_bind; [apply checkAborted_quietly | intros _].
  apply atMost_quiet_bind; [apply updateProgress_quietly | intros _].
  apply atMost_quiet_bind; [apply Date_now_quietly | intros t].
  apply (atMost_bind 0 0); [apply pushHistory_atMost | intros _].
  apply atMost_quiet_bind; [apply Date_now_quietly | intros t'].
  apply atMost_same_bind; [reflexivity | intros _].
  apply atMost_quiet, (steps_ret _ quietly_refl).
Qed.

Lemma transformImage_catch_atMost sourceImage transformType startTime e :
  steps (atMost 0) (transformImage_catch sourceImage transformType startTime e).
Proof.
  unfold transformImage_catch.
  apply atMost_quiet_bind.
  { destruct (instanceofError e && hasType e);
      [apply (steps_ret _ quietly_refl) | apply createError_quietly]. }
  intros transformError.
  apply atMost_quiet_bind; [apply (steps_gets _ quietly_refl) | intros shown].
  apply atMost_quiet_bind; [apply updateProgress_quietly | intros _].
  apply atMost_quiet_bind; [apply Date_now_quietly | intros t].
  apply (atMost_bind 0 0); [apply pushHistory_atMost | intros _].
  apply atMost_same_bind; [reflexivity | intros _].
  apply atMost_quiet, (steps_throw _ quietly_refl).
Qed.

(** X23. Whatever the network answers and however the transform ends, one call
    of [transformImage] makes at most [maxTransformAttempts * maxRetries]
    exchanges: the orchestrator calls the service at most
    [maxTransformAttempts] times and each call makes at most [maxRetries]
    exchanges. A manager that is busy makes none. *)
Theorem transform_makes_a_bounded_number_of_exchanges env sourceImage transformType m :
  (fetches (apiService (stateAfter (transformImage env sourceImage transformType) m))
   <= fetches (apiService m)
      + Z.to_nat (maxTransformAttempts env) * Z.to_nat (maxRetriesOf (api env)))%nat.
Proof.
  set (bound := (Z.to_nat (maxTransformAttempts env) * Z.to_nat (maxRetriesOf (api env)))%nat).
  enough (H : steps (atMost bound) (transformImage env sourceImage transformType))
    by exact (H m).
  unfold transformImage.
  apply atMost_quiet_bind; [apply (steps_gets _ quietly_refl) | intros busy].
  destruct busy.
  - apply atMost_quiet_bind; [apply createError_quietly | intros e].
    apply atMost_quiet, (steps_throw _ quietly_refl).
  - apply atMost_quiet_bind; [apply Date_now_quietly | intros startTime].
    apply atMost_same_bind; [reflexivity | intros _].
    apply atMost_tryFinally.
    + apply (atMost_weaken (bound + 0)); [lia|].
      apply atMost_tryCatch;
        [apply transformImage_try_atMost | intros e; apply transformImage_catch_atMost].
    + unfold transformImage_finally.
      apply atMost_same_bind; [reflexivity | intros _]. now apply atMost_same.
Qed.

(** ** The counter of failed attempts and the statistics *)

Lemma sameFailedAttempts_refl m : sameFailedAttempts m m.
Proof. reflexivity. Qed.

Lemma sameFailedAttempts_trans m1 m2 m3 :
  sameFailedAttempts m1 m2 -> sameFailedAttempts m2 m3 -> sameFailedAttempts m1 m3.
Proof. unfold sameFailedAttempts. congruence. Qed.

Lemma createError_sameFailedAttempts type msg details :
  steps sameFailedAttempts (createError type msg details).
Proof. intros m. reflexivity. Qed.

Lemma updateProgress_sameFailedAttempts phase progress :
  steps sameFailedAttempts (updateProgress phase progress).
Proof. intros m. reflexivity. Qed.

Lemma checkAborted_sameFailedAttempts : steps sameFailedAttempts checkAborted.
Proof. intros m. unfold checkAborted. run. now destruct (abortController m) as [[|]|]. Qed.

Lemma onService_sameFailedAttempts {A} (c : M APIService.Service A) :
  steps sameFailedAttempts (onService c).
Proof. intros m. unfold onService, zoom. now destruct (c (apiService m)). Qed.

Lemma simulateUploadProgress_sameFailedAttempts : steps sameFailedAttempts simulateUploadProgress.
Proof.
  unfold simulateUploadProgress. generalize 1. generalize 5%nat.
  induction n as [|n IH]; intros i; cbn [simulateUploadProgress_loop].
  - apply (steps_ret _ sameFailedAttempts_refl).
  - cbv zeta.
    apply (steps_bind _ sameFailedAttempts_trans);
      [apply checkAborted_sameFailedAttempts | intros _].
    apply (steps_bind _ sameFailedAttempts_trans);
      [apply updateProgress_sameFailedAttempts | intros _].
    apply (steps_bind _ sameFailedAttempts_trans);
      [apply onService_sameFailedAttempts | intros _].
    apply IH.
Qed.

Lemma performTransform_sameFailedAttempts env imageBase64 transformType :
  steps sameFailedAttempts (performTransform env imageBase64 transformType).
Proof.
  unfold performTransform. generalize (@None JsValue). generalize 1.
  induction (Z.to_nat (maxTransformAttempts env)) as [|n IH]; intros attempt lastError;
    cbn [performTransform_loop].
  - destruct lastError as [e|]; cbn.
    + apply (steps_throw _ sameFailedAttempts_refl).
    + apply (steps_bind _ sameFailedAttempts_trans); [apply createError_sameFailedAttempts|].
      intros e. apply (steps_throw _ sameFailedAttempts_refl).
  - apply (steps_bind _ sameFailedAttempts_trans).
    + apply steps_settled, (steps_bind _ sameFailedAttempts_trans).
      * apply updateProgress_sameFailedAttempts.
      * intros _. apply onService_sameFailedAttempts.
    + intros [image|e]; [apply (steps_ret _ sameFailedAttempts_refl)|].
      apply (steps_bind _ sameFailedAttempts_trans); [|intros _; apply IH].
      destruct (attempt <? maxTransformAttempts env);
        [|apply (steps_ret _ sameFailedAttempts_refl)].
      cbv zeta.
      apply (steps_bind _ sameFailedAttempts_trans);
        [apply updateProgress_sameFailedAttempts | intros _].
      apply (steps_bind _ sameFailedAttempts_trans);
        [apply onService_sameFailedAttempts | intros _].
      apply checkAborted_sameFailedAttempts.
Qed.

Lemma transformImage_try_failedAttempts env sourceImage transformType startTime m :
  failedAttempts (state (snd (transformImage_try env sourceImage transformType startTime m)))
  = 0.
Proof.
  unfold transformImage_try. unfold bind at 1, modify at 1.
  set (m1 := with_state _ m).
  change 0 with (failedAttempts (state m1)).
  generalize m1. clear m1.
  change (steps sameFailedAttempts
            (updateProgress preparing 10 ;;
             let* imageBase64 := prepareImageForTransform env sourceImage in
             checkAborted ;;
             updateProgress uploading 20 ;;
             simulateUploadProgress ;;
             checkAborted ;;
             updateProgress processing 50 ;;
             let* transformedBase64 := performTransform env imageBase64 transformType in
             checkAborted ;;
             updateProgress downloading 80 ;;
             let* transformedImage := createImageFromBase64 env transformedBase64 in
             checkAborted ;;
             updateProgress completed 100 ;;
             let* t := Date_now in
             pushHistory
               {| success := true;
                  transformedImage := Some transformedImage;
                  originalImage := Some sourceImage;
                  ImageTransformManager.transformType := transformType;
                  processingTime := t - startTime;
                  result_error := None |} ;;
             let* t' := Date_now in
             modify (with_state (set_lastTransformTime t')) ;;
             ret {| success := true;
                    transformedImage := Some transformedImage;
                    originalImage := Some sourceImage;
                    ImageTransformManager.transformType := transformType;
                    processingTime := t - startTime;
                    result_error := None |})).
  apply (steps_bind _ sameFailedAttempts_trans);
    [apply updateProgress_sameFailedAttempts | intros _].
  apply (steps_bind _ sameFailedAttempts_trans);
    [apply (steps_await _ sameFailedAttempts_refl) | intros imageBase64].
  apply (steps_bind _ sameFailedAttempts_trans);
    [apply checkAborted_sameFailedAttempts | intros _].
  apply (steps_bind _ sameFailedAttempts_trans);
    [apply updateProgress_sameFailedAttempts | intros _].
  apply (steps_bind _ sameFailedAttempts_trans);
    [apply simulateUploadProgress_sameFailedAttempts | intros _].
  apply (steps_bind _ sameFailedAttempts_trans);
    [apply checkAborted_sameFailedAttempts | intros _].
  apply (steps_bind _ sameFailedAttempts_trans);
    [apply updateProgress_sameFailedAttempts | intros _].
  apply (steps_bind _ sameFailedAttempts_trans);
    [apply performTransform_sameFailedAttempts | intros transformedBase64].
  apply (steps_bind _ sameFailedAttempts_trans);
    [apply checkAborted_sameFailedAttempts | intros _].
  apply (steps_bind _ sameFailedAttempts_trans);
    [apply updateProgress_sameFailedAttempts | intros _].
  apply (steps_bind _ sameFailedAttempts_trans).
  { unfold createImageFromBase64. destruct (loads env transformedBase64).
    - apply (steps_ret _ sameFailedAttempts_refl).
    - apply (steps_bind _ sameFailedAttempts_trans); [apply createError_sameFailedAttempts|].
      intros e. apply (steps_throw _ sameFailedAttempts_refl). }
  intros transformedImage.
  apply (steps_bind _ sameFailedAttempts_trans);
    [apply checkAborted_sameFailedAttempts | intros _].
  apply (steps_bind _ sameFailedAttempts_trans);
    [apply updateProgress_sameFailedAttempts | intros _].
  apply (steps_bind _ sameFailedAttempts_trans);
    [apply onService_sameFailedAttempts | intros t].
  apply (steps_bind _ sameFailedAttempts_trans); [intros m0; reflexivity | intros _].
  apply (steps_bind _ sameFailedAttempts_trans);
    [apply onService_sameFailedAttempts | intros t'].
  apply (steps_bind _ sameFailedAttempts_trans); [now apply steps_modify | intros _].
  apply (steps_ret _ sameFailedAttempts_refl).
Qed.

Lemma transformImage_catch_failedAttempts sourceImage transformType startTime e m :
  exists e' m',
    transformImage_catch sourceImage transformType startTime e m = (Throw e', m')
    /\ failedAttempts (state m') = failedAttempts (state m) + 1.
Proof.
  unfold transformImage_catch.
  destruct (instanceofError e && hasType e);
    unfold createError, updateProgress, pushHistory, Date_now, onService, zoom,
           APIService.Date_now, bind, gets, modify, ret, throw; cbn;
    eexists _, _; (split; [reflexivity|]); reflexivity.
Qed.

Lemma transformImage_idle_run env sourceImage transformType m :
  isTransforming (state m) = false ->
  transformImage env sourceImage transformType m
  = tryFinally
      (tryCatch (transformImage_try env sourceImage transformType (now (apiService m)))
                (transformImage_catch sourceImage transformType (now (apiService m))))
      transformImage_finally
      (with_abortController (fun _ => Some false)
         (with_apiService (fun _ => apiService m) m)).
Proof.
  intros Hidle. unfold transformImage.
  unfold bind at 1, gets at 1. rewrite Hidle. reflexivity.
Qed.

(** X24. [failedAttempts] counts the failure of the last transform only: every
    call of [transformImage] on a manager that is not busy resets it, so that
    it is 0 after a transform that succeeded and 1 after one that failed,
    however many transforms failed before and however many attempts the
    failed one made. *)
Theorem failedAttempts_counts_the_last_transform_only env sourceImage transformType m :
  isTransforming (state m) = false ->
  let run := transformImage env sourceImage transformType m in
  failedAttempts (state (snd run))
  = match fst run with Return _ => 0 | Throw _ => 1 end.
Proof.
  intros Hidle. cbv zeta. rewrite (transformImage_idle_run _ _ _ _ Hidle).
  unfold tryFinally, tryCatch.
  set (m1 := with_abortController _ _).
  pose proof (transformImage_try_failedAttempts env sourceImage transformType
                (now (apiService m)) m1) as Htry.
  destruct (transformImage_try env sourceImage transformType (now (apiService m)) m1)
    as [[r|e] m2]; cbn [snd] in Htry.
  - cbn. exact Htry.
  - destruct (transformImage_catch_failedAttempts sourceImage transformType
                (now (apiService m)) e m2) as (e' & m3 & -> & Hf).
    cbn. rewrite Hf, Htry. reflexivity.
Qed.

Lemma failedAttempts_counts_the_last_transform_only_witness :
  let env := testManagerEnv (httpFailure 500 "Internal Server Error") in
  let m1 := snd (transformImage env photo light (newManager (newService 0))) in
  failedAttempts (state m1) = 1
  /\ failedAttempts (state (snd (transformImage env photo heavy m1))) = 1.
Proof.
  cbv zeta. split; [vm_compute; reflexivity|].
  rewrite (failedAttempts_counts_the_last_transform_only
             (testManagerEnv (httpFailure 500 "Internal Server Error")) photo heavy
             (snd (transformImage (testManagerEnv (httpFailure 500 "Internal Server Error"))
                     photo light (newManager (newService 0)))));
    vm_compute; reflexivity.
Defined.

Lemma filter_length_partition {A} (f : A -> bool) (l : list A) :
  List.length l
  = (List.length (List.filter f l) + List.length (List.filter (fun x => negb (f x)) l))%nat.
Proof.
  induction l as [|x l IH]; [reflexivity|]. cbn. destruct (f x); cbn; lia.
Qed.

(** X25. The statistics count every transform once: the total is the number of
    successful transforms plus the number of failed ones, and a call of
    [transformImage] on a manager that is not busy raises the total by one
    and, with it, the count of successful transforms when it returned and
    the count of failed ones when it threw. *)
Theorem stats_count_every_transform env sourceImage transformType m :
  isTransforming (state m) = false ->
  let run := transformImage env sourceImage transformType m in
  exists before after,
    statsOf m = Return before
    /\ statsOf (snd run) = Return after
    /\ totalTransforms after = successfulTransforms after + failedTransforms after
    /\ totalTransforms after = totalTransforms before + 1
    /\ match fst run with
       | Return _ =>
           successfulTransforms after = successfulTransforms before + 1
           /\ failedTransforms after = failedTransforms before
       | Throw _ =>
           successfulTransforms after = successfulTransforms before
           /\ failedTransforms after = failedTransforms before + 1
       end
    /\ stats_isTransforming after = false.
Proof.
  intros Hidle. cbv zeta.
  pose proof (transformImage_appends_one_result env sourceImage transformType m Hidle) as Hone.
  unfold post in Hone.
  eexists _, _. split; [reflexivity|]. split; [reflexivity|].
  cbn [totalTransforms successfulTransforms failedTransforms stats_isTransforming].
  fold (history m). fold (history (snd (transformImage env sourceImage transformType m))).
  destruct (transformImage env sourceImage transformType m) as [[r|e] m'] eqn:Hrun;
    cbn [fst snd].
  - destruct Hone as (Hh & _ & Hi & Hs & _). rewrite Hh, Hi, !List.filter_app, !length_app.
    cbn [List.filter]. rewrite Hs. cbn [negb List.length].
    pose proof (filter_length_partition (fun r => success r) (history m)). lia.
  - destruct Hone as (r & Hh & _ & Hi & Hs & _). rewrite Hh, Hi, !List.filter_app, !length_app.
    cbn [List.filter]. rewrite Hs. cbn [negb List.length].
    pose proof (filter_length_partition (fun r => success r) (history m)). lia.
Qed.

Lemma stats_count_every_transform_witness :
  exists after,
    statsOf (snd (transformImage (testManagerEnv (httpSuccess "abc")) photo light
                    (newManager (newService 0))))
    = Return after
    /\ totalTransforms after = 1
    /\ successfulTransforms after = 1.
Proof.
  destruct (stats_count_every_transform (testManagerEnv (httpSuccess "abc")) photo light
              (newManager (newService 0)) eq_refl)
    as (before & after & Hb & Ha & _ & Ht & Hcase & _).
  exists after. split; [exact Ha|].
  assert (Hrun : exists r, fst (transformImage (testManagerEnv (httpSuccess "abc")) photo light
                                  (newManager (newService 0))) = Return r)
    by (eexists; vm_compute; reflexivity).
  destruct Hrun as [r Hrun]. rewrite Hrun in Hcase. destruct Hcase as [Hs _].
  injection Hb as <-. split; [exact Ht | exact Hs].
Defined.

(** ** The progress that is reported *)

Lemma reportsClamped_refl m : reportsClamped m m.
Proof. exists []. now rewrite app_nil_r. Qed.

Lemma reportsClamped_trans m1 m2 m3 :
  reportsClamped m1 m2 -> reportsClamped m2 m3 -> reportsClamped m1 m3.
Proof.
  intros (l1 & H1 & F1) (l2 & H2 & F2). exists (l1 ++ l2). split.
  - now rewrite H2, H1, app_assoc.
  - now apply Forall_app.
Qed.

Lemma silent_reportsClamped {A} (c : M Manager A) :
  (forall m, reported (snd (c m)) = reported m) -> steps reportsClamped c.
Proof. intros H m. exists []. now rewrite app_nil_r. Qed.

Lemma quietly_silent {A} (c : M APIService.Service A) m :
  reported (snd (onService c m)) = reported m.
Proof. unfold onService, zoom. now destruct (c (apiService m)). Qed.

Lemma updateProgress_reportsClamped phase progress :
  steps reportsClamped (updateProgress phase progress).
Proof.
  intros m. eexists. split; [reflexivity|]. constructor; [|constructor]. cbn. lia.
Qed.

Lemma createError_reportsClamped type msg details :
  steps reportsClamped (createError type msg details).
Proof. now apply silent_reportsClamped. Qed.

Lemma checkAborted_reportsClamped : steps reportsClamped checkAborted.
Proof.
  apply silent_reportsClamped. intros m. unfold checkAborted. run.
  now destruct (abortController m) as [[|]|].
Qed.

Lemma simulateUploadProgress_reportsClamped : steps reportsClamped simulateUploadProgress.
Proof.
  unfold simulateUploadProgress. generalize 1. generalize 5%nat.
  induction n as [|n IH]; intros i; cbn [simulateUploadProgress_loop].
  - apply (steps_ret _ reportsClamped_refl).
  - cbv zeta.
    apply (steps_bind _ reportsClamped_trans); [apply checkAborted_reportsClamped | intros _].
    apply (steps_bind _ reportsClamped_trans); [apply updateProgress_reportsClamped | intros _].
    apply (steps_bind _ reportsClamped_trans);
      [apply silent_reportsClamped, quietly_silent | intros _].
    apply IH.
Qed.

Lemma performTransform_reportsClamped env imageBase64 transformType :
  steps reportsClamped (performTransform env imageBase64 transformType).
Proof.
  unfold performTransform. generalize (@None JsValue). generalize 1.
  induction (Z.to_nat (maxTransformAttempts env)) as [|n IH]; intros attempt lastError;
    cbn [performTransform_loop].
  - destruct lastError as [e|]; cbn.
    + apply (steps_throw _ reportsClamped_refl).
    + apply (steps_bind _ reportsClamped_trans); [apply createError_reportsClamped|].
      intros e. apply (steps_throw _ reportsClamped_refl).
  - apply (steps_bind _ reportsClamped_trans).
    + apply steps_settled, (steps_bind _ reportsClamped_trans).
      * apply updateProgress_reportsClamped.
      * intros _. apply silent_reportsClamped, quietly_silent.
    + intros [image|e]; [apply (steps_ret _ reportsClamped_refl)|].
      apply (steps_bind _ reportsClamped_trans); [|intros _; apply IH].
      destruct (attempt <? maxTransformAttempts env);
        [|apply (steps_ret _ reportsClamped_refl)].
      cbv zeta.
      apply (steps_bind _ reportsClamped_trans);
        [apply updateProgress_reportsClamped | intros _].
      apply (steps_bind _ reportsClamped_trans);
        [apply silent_reportsClamped, quietly_silent | intros _].
      apply checkAborted_reportsClamped.
Qed.

Lemma transformImage_try_reportsClamped env sourceImage transformType startTime :
  steps reportsClamped (transformImage_try env sourceImage transformType startTime).
Proof.
  unfold transformImage_try.
  apply (steps_bind _ reportsClamped_trans); [now apply silent_reportsClamped | intros _].
  apply (steps_bind _ reportsClamped_trans); [apply updateProgress_reportsClamped | intros _].
  apply (steps_bind _ reportsClamped_trans);
    [apply (steps_await _ reportsClamped_refl) | intros imageBase64].
  apply (steps_bind _ reportsClamped_trans); [apply checkAborted_reportsClamped | intros _].
  apply (steps_bind _ reportsClamped_trans); [apply updateProgress_reportsClamped | intros _].
  apply (steps_bind _ reportsClamped_trans);
    [apply simulateUploadProgress_reportsClamped | intros _].
  apply (steps_bind _ reportsClamped_trans); [apply checkAborted_reportsClamped | intros _].
  apply (steps_bind _ reportsClamped_trans); [apply updateProgress_reportsClamped | intros _].
  apply (steps_bind _ reportsClamped_trans);
    [apply performTransform_reportsClamped | intros transformedBase64].
  apply (steps_bind _ reportsClamped_trans); [apply checkAborted_reportsClamped | intros _].
  apply (steps_bind _ reportsClamped_trans); [apply updateProgress_reportsClamped | intros _].
  apply (steps_bind _ reportsClamped_trans).
  { unfold createImageFromBase64. destruct (loads env transformedBase64).
    - apply (steps_ret _ reportsClamped_refl).
    - apply (steps_bind _ reportsClamped_trans); [apply createError_reportsClamped|].
      intros e. apply (steps_throw _ reportsClamped_refl). }
  intros transformedImage.
  apply (steps_bind _ reportsClamped_trans); [apply checkAborted_reportsClamped | intros _].
  apply (steps_bind _ reportsClamped_trans); [apply updateProgress_reportsClamped | intros _].
  apply (steps_bind _ reportsClamped_trans);
    [apply silent_reportsClamped, quietly_silent | intros t].
  apply (steps_bind _ reportsClamped_trans); [now apply silent_reportsClamped | intros _].
  apply (steps_bind _ reportsClamped_trans);
    [apply silent_reportsClamped, quietly_silent | intros t'].
  apply (steps_bind _ reportsClamped_trans); [now apply silent_reportsClamped | intros _].
  apply (steps_ret _ reportsClamped_refl).
Qed.

Lemma transformImage_catch_reportsClamped sourceImage transformType startTime e :
  steps reportsClamped (transformImage_catch sourceImage transformType startTime e).
Proof.
  unfold transformImage_catch.
  apply (steps_bind _ reportsClamped_trans).
  { destruct (instanceofError e && hasType e);
      [apply (steps_ret _ reportsClamped_refl) | apply createError_reportsClamped]. }
  intros transformError.
  apply (steps_bind _ reportsClamped_trans);
    [apply (steps_gets _ reportsClamped_refl) | intros shown].
  apply (steps_bind _ reportsClamped_trans); [apply updateProgress_reportsClamped | intros _].
  apply (steps_bind _ reportsClamped_trans);
    [apply silent_reportsClamped, quietly_silent | intros t].
  apply (steps_bind _ reportsClamped_trans); [now apply silent_reportsClamped | intros _].
  apply (steps_bind _ reportsClamped_trans); [now apply silent_reportsClamped | intros _].
  apply (steps_throw _ reportsClamped_refl).
Qed.

(** X26. Every progress event that a call of [transformImage] reports carries a
    progress between 0 and 100, whatever the number of attempts: the value
    [50 + attempt * 10] of the later attempts is clamped by
    [updateProgress]. Events reported earlier are kept. *)
Theorem reported_progress_is_clamped env sourceImage transformType m :
  exists events,
    reported (stateAfter (transformImage env sourceImage transformType) m)
    = reported m ++ events
    /\ Forall (fun p => 0 <= progress_reported p <= 100) events.
Proof.
  unfold stateAfter.
  destruct (isTransforming (state m)) eqn:Hbusy.
  - exists []. rewrite app_nil_r. split; [|constructor].
    unfold transformImage, createError, Date_now, onService, APIService.Date_now. run.
    now rewrite Hbusy.
  - rewrite (transformImage_idle_run _ _ _ _ Hbusy).
    set (m1 := with_abortController _ _).
    destruct (steps_tryFinally _ reportsClamped_trans
                (tryCatch (transformImage_try env sourceImage transformType (now (apiService m)))
                   (transformImage_catch sourceImage transformType (now (apiService m))))
                transformImage_finally) with (s := m1) as (events & Hr & Hf).
    + apply (steps_tryCatch _ reportsClamped_trans);
        [apply transformImage_try_reportsClamped
        | intros e; apply transformImage_catch_reportsClamped].
    + unfold transformImage_finally.
      apply (steps_bind _ reportsClamped_trans); [now apply silent_reportsClamped | intros _].
      now apply silent_reportsClamped.
    + exists events. split; [exact Hr | exact Hf].
Qed.

End FurtherManager.
